(** * Nexus Commander: drafting assistant and Draft Master game

    A shallow embedding of [src/components/drafting_assistant.py]
    (ChampionGraph, DraftPredictor) and of
    [src/components/draft_master_game.py] (DraftScorer, DraftMasterGame),
    with the properties of the draft core stated and proved over it.

    Conventions of the embedding.
    - Python [int] is [Z]; a Python [float] is carried as the rational it
      denotes, [Q], and equality of floats is [Qeq].  The statistics of the
      graph and the scores of the predictor are computed exactly, without
      the rounding of binary floating point.  The time bonus of a move is
      truncated to an integer, so there the rounding shows in the points:
      it is computed with the rounding of binary64 written out
      ([round64]), including the overflow to an infinity.
    - A [dict] (and a [defaultdict]) is a [gmap]; reading a missing key of a
      [defaultdict] yields its default.  (Python also stores the default on
      such a read; every later read of that key goes through the same
      default, so the stored entry is not observable and is not modelled.)
    - A [set] of names that is iterated is a duplicate-free list, the order
      of the list being the iteration order of the set.
    - Functions that mutate the session run in a small state-and-exception
      monad over [GameState]; an uncaught Python exception is [Raise].
    - [random.choice] and [datetime.now] take their value from an explicit
      argument. *)

From Stdlib Require Import QArith ZArith String List DecimalString Lia Lqa.
From Stdlib Require Import Qround Qabs Qpower SpecFloat.
From Stdlib Require Import Sorted Permutation.
From stdpp Require Import gmap strings list fin_maps sorting.

Local Open Scope Z_scope.

(** ** Numbers and strings of the host language *)

(** [int(x)] on a float: truncation towards zero. *)
Definition int_of_float (x : Q) : Z := Z.quot (Qnum x) (Z.pos (Qden x)).

(** [min(a, b)]: the first argument unless the second is strictly
    smaller. *)
Definition Qmin' (a b : Q) : Q := if Qlt_le_dec b a then b else a.

Definition Qgtb (a b : Q) : bool := negb (Qle_bool a b).
Definition Qgeb (a b : Q) : bool := Qle_bool b a.
Definition Qltb (a b : Q) : bool := negb (Qle_bool b a).

(** *** Binary floating point

    A [float] is an IEEE 754 binary64 number: 53 significant bits, the unit
    in the last place never below [2^-1074], magnitudes below [2^1024].
    An arithmetic operation on floats yields the exact result rounded to
    the nearest such number, a tie going to the even significand, and an
    infinity when the rounded magnitude reaches [2^1024]. *)

(** [2 ** e]. *)
Definition pow2 (e : Z) : Q := Qpower 2 e.

(** The binade of a non-zero [x]: the [b] with [2^b <= |x| < 2^(b+1)]. *)
Definition binade (x : Q) : Z :=
  let k := Z.log2 (Z.abs (Qnum x)) - Z.log2 (Z.pos (Qden x)) in
  if Qle_bool (pow2 k) (Qabs x) then k else k - 1.

(** Nearest integer, ties to even. *)
Definition round_half_even (x : Q) : Z :=
  let n := Qnum x in
  let d := Z.pos (Qden x) in
  let q := n / d in
  let r := n mod d in
  if 2 * r <? d then q
  else if d <? 2 * r then q + 1
  else if Z.even q then q else q + 1.

(** The unit in the last place of the floats next to [x]. *)
Definition ulp (x : Q) : Q := pow2 (Z.max (binade x - 52) (-1074)).

(** The multiple of [ulp x] nearest to [x]. *)
Definition nearest (x : Q) : Q := (inject_Z (round_half_even (x / ulp x)) * ulp x)%Q.

(** The value of a float operation: a finite number or an infinity. *)
Inductive binary64 :=
  | Finite (x : Q)
  | Infinite (negative : bool).

(** The float that an operation with the exact result [x] yields. *)
Definition round64 (x : Q) : binary64 :=
  if Qeq_bool x 0 then Finite 0
  else if Qle_bool (pow2 1024) (Qabs (nearest x)) then Infinite (Qltb x 0)
  else Finite (nearest x).

(** The Standard Library specifies the operations of IEEE 754 on
    [spec_float]; [round64] is compared with it on sample floats.
    [IEEE_float m e] is the binary64 number nearest to [m * 2^e], and
    [IEEE_value] the rational that a finite float denotes. *)
Definition IEEE_float (m e : Z) : spec_float := binary_normalize 53 1024 m e false.

Definition IEEE_value (f : spec_float) : option Q :=
  match f with
  | S754_zero _ => Some 0%Q
  | S754_finite s m e => Some (inject_Z (if s then Z.neg m else Z.pos m) * pow2 e)%Q
  | S754_infinity _ | S754_nan => None
  end.

Definition same_float (f : spec_float) (r : binary64) : bool :=
  match f, r with
  | S754_infinity s, Infinite s' => bool_decide (s = s')
  | _, Finite x => match IEEE_value f with Some y => Qeq_bool x y | None => false end
  | _, _ => false
  end.

(** The difference, the product and the sum of two floats, by the Standard
    Library and by [round64]. *)
Definition same_results (x y : Z * Z) : bool :=
  let fx := IEEE_float x.1 x.2 in
  let fy := IEEE_float y.1 y.2 in
  match IEEE_value fx, IEEE_value fy with
  | Some qx, Some qy =>
    same_float (SFsub 53 1024 fx fy) (round64 (qx - qy))
    && same_float (SFmul 53 1024 fx fy) (round64 (qx * qy))
    && same_float (SFadd 53 1024 fx fy) (round64 (qx + qy))
  | _, _ => false
  end.

(** 30, 10, 9.9, 5, 0, the least positive float, -1e308, the largest float,
    a subnormal tie, the float before 20.1, and -2.5. *)
Definition float_samples : list (Z * Z) :=
  [(30, 0); (10, 0); (5573204538870989, -49); (5, 0); (0, 0); (1, -1074);
   (-5009954314563162, 971); (9007199254740991, 971); (3, -1075);
   (5657647031884185, -48); (-5, -1)].

(** [str(n)] for an integer. *)
Definition str_of_Z (n : Z) : string := NilZero.string_of_int (Z.to_int n).

(** [sep.join(l)]. *)
Definition join (sep : string) (l : list string) : string := String.concat sep l.

(** [sum(l)] and [np.mean(l)] over floats. *)
Definition Qsum (l : list Q) : Q := fold_right Qplus 0%Q l.
Definition np_mean (l : list Q) : Q := (Qsum l / inject_Z (Z.of_nat (length l)))%Q.

(** [sum(l)] over integers. *)
Definition Zsum (l : list Z) : Z := fold_right Z.add 0 l.

(** [range(a, b)]. *)
Definition range (a b : Z) : list Z :=
  map (fun i => a + Z.of_nat i) (seq 0 (Z.to_nat (b - a))).

(** ** Records of the ingestion layer that the core reads
    ([src/core/data_ingestion.py]) *)

(** One entry of [DraftData.bans], [.picks] or [.sequence]. *)
Record DraftAction := {
  act_champion : string;
  act_team_id : string;
  act_sequence : Z;
  act_type : string
}.

Record DraftData := {
  bans : list DraftAction;
  picks : list DraftAction;
  sequence : list DraftAction
}.

Definition get_team_bans (d : DraftData) (team_id : string) : list string :=
  map act_champion (filter (fun b => act_team_id b = team_id) (bans d)).

Definition get_team_picks (d : DraftData) (team_id : string) : list string :=
  map act_champion (filter (fun p => act_team_id p = team_id) (picks d)).

Record TeamStats := {
  ts_team_id : string;
  win : bool
}.

Record MatchMetadata := {
  match_id : string;
  md_tournament : string;
  team1_id : string;
  team1_name : string;
  team2_name : string
}.

(** One element of [parsed_matches]. *)
Record Match := {
  metadata : MatchMetadata;
  draft : DraftData;
  team_stats : list TeamStats
}.

(** ** ChampionGraph *)

Record ChampionGraph := {
  synergies : gmap string (gmap string Q);
  counters : gmap string (gmap string Q);
  win_rates : gmap string Q;
  pick_rates : gmap string Q
}.

(** [ChampionGraph.__init__]. *)
Definition ChampionGraph_init : ChampionGraph :=
  {| synergies := ∅; counters := ∅; win_rates := ∅; pick_rates := ∅ |}.

(** [self.win_rates[c]], a [defaultdict(lambda: 0.5)]. *)
Definition win_rate (g : ChampionGraph) (c : string) : Q :=
  default (1#2)%Q (win_rates g !! c).

(** [self.pick_rates[c]], a [defaultdict(lambda: 0.0)]. *)
Definition pick_rate (g : ChampionGraph) (c : string) : Q :=
  default 0%Q (pick_rates g !! c).

(** [d[a].get(b, dflt)] on a dictionary of dictionaries whose outer default
    is an empty dictionary. *)
Definition get2 (d : gmap string (gmap string Q)) (a b : string) (dflt : Q) : Q :=
  default dflt (default ∅ (d !! a) !! b).

(** [d[a][b] = v]. *)
Definition set2 (d : gmap string (gmap string Q)) (a b : string) (v : Q)
  : gmap string (gmap string Q) :=
  <[a := <[b := v]> (default ∅ (d !! a))]> d.

(** [self.synergies[a][b]] (inner default [0.0]) and
    [self.synergies[a].get(b, 0)]. *)
Definition synergy (g : ChampionGraph) (a b : string) : Q := get2 (synergies g) a b 0%Q.

(** [self.counters[a].get(b, 0.5)]. *)
Definition counter (g : ChampionGraph) (a b : string) : Q := get2 (counters g) a b (1#2)%Q.

(** *** Counting tables of [build_from_matches] *)

(** A [defaultdict(int)]: lookup and [d[k] += 1]. *)
Definition dget `{Countable K} (d : gmap K Z) (k : K) : Z := default 0 (d !! k).
Definition incr `{Countable K} (k : K) (d : gmap K Z) : gmap K Z := <[k := dget d k + 1]> d.

Record Tallies := {
  teammate_pairs : gmap (string * string) Z;
  teammate_wins : gmap (string * string) Z;
  matchup_counts : gmap (string * string) Z;
  matchup_wins : gmap (string * string) Z;
  champion_games : gmap string Z;
  champion_wins : gmap string Z
}.

Definition Tallies_init : Tallies :=
  {| teammate_pairs := ∅; teammate_wins := ∅; matchup_counts := ∅;
     matchup_wins := ∅; champion_games := ∅; champion_wins := ∅ |}.

(** [tuple(sorted([c1, c2]))]. *)
Definition sorted_pair (c1 c2 : string) : string * string :=
  if String.ltb c2 c1 then (c2, c1) else (c1, c2).

(** The pairs visited by
    [for i, c1 in enumerate(l): for c2 in l[i+1:]], in visiting order. *)
Fixpoint later_pairs (l : list string) : list (string * string) :=
  match l with
  | [] => []
  | c1 :: rest => map (fun c2 => (c1, c2)) rest ++ later_pairs rest
  end.

(** The pairs visited by [for a in l1: for b in l2]. *)
Definition cross_pairs (l1 l2 : list string) : list (string * string) :=
  flat_map (fun a => map (fun b => (a, b)) l2) l1.

(** Body of the loop over [match['team_stats']]. *)
Definition tally_team (d : DraftData) (t : Tallies) (team_stat : TeamStats) : Tallies :=
  let team_id := ts_team_id team_stat in
  let team_picks := get_team_picks d team_id in
  let won := win team_stat in
  let bump {K} `{Countable K} (k : K) (m : gmap K Z) := if won then incr k m else m in
  (* Update win rates *)
  let games := fold_left (fun m champ => incr champ m) team_picks (champion_games t) in
  let wins := fold_left (fun m champ => bump champ m) team_picks (champion_wins t) in
  (* Track teammate synergies *)
  let pairs := map (fun p => sorted_pair (fst p) (snd p)) (later_pairs team_picks) in
  let tpairs := fold_left (fun m pair => incr pair m) pairs (teammate_pairs t) in
  let twins := fold_left (fun m pair => bump pair m) pairs (teammate_wins t) in
  (* Track matchups against opponents *)
  let opponent_picks :=
    filter (fun p => act_team_id p ≠ team_id ∧ act_type p = "pick") (picks d) in
  let opponent_champs := map act_champion opponent_picks in
  let matchups := cross_pairs team_picks opponent_champs in
  let mcounts := fold_left (fun m mu => incr mu m) matchups (matchup_counts t) in
  let mwins := fold_left (fun m mu => bump mu m) matchups (matchup_wins t) in
  {| teammate_pairs := tpairs; teammate_wins := twins;
     matchup_counts := mcounts; matchup_wins := mwins;
     champion_games := games; champion_wins := wins |}.

(** Body of the loop over [parsed_matches]. *)
Definition tally_match (t : Tallies) (m : Match) : Tallies :=
  fold_left (tally_team (draft m)) (team_stats m) t.

Definition tally (parsed_matches : list Match) : Tallies :=
  fold_left tally_match parsed_matches Tallies_init.

(** Integer-by-integer true division [a / b]. *)
Definition Zdiv_float (a b : Z) : Q := (inject_Z a / inject_Z b)%Q.

(** *** The four passes that fill the graph, in the order of the source *)

(** "Calculate synergy scores": one iteration of the loop over
    [teammate_pairs.items()].  The expected win rate is read from
    [self.win_rates] as it is at this point of [build_from_matches]. *)
Definition synergy_step (t : Tallies) (g : ChampionGraph)
    (item : string * string * Z) : ChampionGraph :=
  let '(champ1, champ2, count) := item in
  if 3 <=? count then
    let wr := Zdiv_float (dget (teammate_wins t) (champ1, champ2)) count in
    let expected := ((win_rate g champ1 + win_rate g champ2) / 2)%Q in
    let syn := (wr - expected)%Q in
    {| synergies := set2 (set2 (synergies g) champ1 champ2 syn) champ2 champ1 syn;
       counters := counters g; win_rates := win_rates g; pick_rates := pick_rates g |}
  else g.

(** "Calculate counter scores". *)
Definition counter_step (t : Tallies) (g : ChampionGraph)
    (item : string * string * Z) : ChampionGraph :=
  let '(my_champ, opp_champ, count) := item in
  if 3 <=? count then
    let wr := Zdiv_float (dget (matchup_wins t) (my_champ, opp_champ)) count in
    {| synergies := synergies g;
       counters := set2 (counters g) my_champ opp_champ wr;
       win_rates := win_rates g; pick_rates := pick_rates g |}
  else g.

(** "Calculate win rates". *)
Definition win_rate_step (t : Tallies) (g : ChampionGraph)
    (item : string * Z) : ChampionGraph :=
  let '(champ, games) := item in
  if 0 <? games then
    {| synergies := synergies g; counters := counters g;
       win_rates := <[champ := Zdiv_float (dget (champion_wins t) champ) games]> (win_rates g);
       pick_rates := pick_rates g |}
  else g.

(** "Calculate pick rates". *)
Definition pick_rate_step (total_games : Z) (g : ChampionGraph)
    (item : string * Z) : ChampionGraph :=
  let '(champ, games) := item in
  {| synergies := synergies g; counters := counters g; win_rates := win_rates g;
     pick_rates := <[champ := Zdiv_float games total_games]> (pick_rates g) |}.

(** [ChampionGraph.build_from_matches(self, parsed_matches)]. *)
Definition build_from_matches (self : ChampionGraph) (parsed_matches : list Match)
  : ChampionGraph :=
  let t := tally parsed_matches in
  let g1 := fold_left (synergy_step t) (map_to_list (teammate_pairs t)) self in
  let g2 := fold_left (counter_step t) (map_to_list (matchup_counts t)) g1 in
  let g3 := fold_left (win_rate_step t) (map_to_list (champion_games t)) g2 in
  let total_games := Z.of_nat (length parsed_matches) in
  fold_left (pick_rate_step total_games) (map_to_list (champion_games t)) g3.

(** [get_champion_power]. *)
Definition get_champion_power (g : ChampionGraph) (champion : string) : Q :=
  let base_power := win_rate g champion in
  let popularity_bonus := Qmin' (pick_rate g champion * (2#10)) (1#10) in
  (base_power + popularity_bonus)%Q.

(** [get_team_synergy].  The sum over the pairs is exact here; the float sum
    of the source is within rounding of it, and its last bits depend on the
    order in which the roster lists the champions. *)
Definition get_team_synergy (g : ChampionGraph) (champions : list string) : Q :=
  if (length champions <=? 1)%nat then 0%Q
  else
    let prs := later_pairs champions in
    let total_synergy := fold_left (fun acc p => (acc + synergy g (fst p) (snd p))%Q) prs 0%Q in
    let pairs := Z.of_nat (length prs) in
    if 0 <? pairs then (total_synergy / inject_Z pairs)%Q else 0%Q.

(** [get_counter_score]. *)
Definition get_counter_score (g : ChampionGraph)
    (my_champions opponent_champions : list string) : Q :=
  match my_champions, opponent_champions with
  | [], _ | _, [] => 0%Q
  | _, _ =>
    let mus := cross_pairs my_champions opponent_champions in
    let total_score :=
      fold_left (fun acc p => (acc + (counter g (fst p) (snd p) - (1#2)))%Q) mus 0%Q in
    let matchups := Z.of_nat (length mus) in
    if 0 <? matchups then (total_score / inject_Z matchups)%Q else 0%Q
  end.

(** ** Formatting of floats in messages *)

(** [n] rendered with at least [width] digits. *)
Definition zero_pad (width : nat) (n : Z) : string :=
  let s := str_of_Z n in
  String.concat "" (repeat "0" (width - String.length s)) +:+ s.

(** [format(x, ".<digits>%")], on the exact value of [x]. *)
Definition format_percent (digits : nat) (x : Q) : string :=
  let scale := 10 ^ Z.of_nat digits in
  let v := round_half_even (x * inject_Z (100 * scale)) in
  let a := Z.abs v in
  (if v <? 0 then "-" else "") +:+ str_of_Z (a / scale)
  +:+ (match digits with O => "" | _ => "." +:+ zero_pad digits (a mod scale) end)
  +:+ "%".

(** ** DraftState and DraftRecommendation *)

Record DraftState := {
  team1_picks : list string;
  team1_bans : list string;
  team2_picks : list string;
  team2_bans : list string;
  ds_current_phase : string;
  turn : Z
}.

Record DraftRecommendation := {
  rec_champion : string;
  win_rate_impact : Q;
  rec_reasoning : list string;
  rec_synergies : list string;
  rec_counters : list string;
  priority : string;
  confidence : Q
}.

(** [recommendations.sort(key=lambda x: x.win_rate_impact, reverse=True)]:
    a stable sort, largest impact first; of two recommendations with equal
    impact the one that came first stays first. *)
Fixpoint insert_by_impact (x : DraftRecommendation) (l : list DraftRecommendation)
  : list DraftRecommendation :=
  match l with
  | [] => [x]
  | y :: ys =>
    if Qle_bool (win_rate_impact y) (win_rate_impact x) then x :: y :: ys
    else y :: insert_by_impact x ys
  end.

Definition sort_by_impact (l : list DraftRecommendation) : list DraftRecommendation :=
  fold_right insert_by_impact [] l.

(** ** DraftPredictor *)

Record WinProbability := {
  wp_team1 : Q;
  wp_team2 : Q;
  team1_power : Q;
  team2_power : Q;
  team1_synergy : Q;
  team2_synergy : Q;
  counter_advantage : Q
}.

(** Mean power of a roster, [0.5] for an empty one:
    [np.mean([power(c) for c in picks]) if picks else 0.5]. *)
Definition team_power (g : ChampionGraph) (picks : list string) : Q :=
  match picks with
  | [] => (1#2)%Q
  | _ => np_mean (map (get_champion_power g) picks)
  end.

(** [team1_score] and [team2_score] of [predict_win_probability]. *)
Definition team_scores (g : ChampionGraph) (draft_state : DraftState) : Q * Q :=
  let team1_power := team_power g (team1_picks draft_state) in
  let team2_power := team_power g (team2_picks draft_state) in
  let team1_synergy := get_team_synergy g (team1_picks draft_state) in
  let team2_synergy := get_team_synergy g (team2_picks draft_state) in
  let counter_advantage :=
    get_counter_score g (team1_picks draft_state) (team2_picks draft_state) in
  ((team1_power + team1_synergy + counter_advantage)%Q,
   (team2_power + team2_synergy - counter_advantage)%Q).

(** [predict_win_probability]. *)
Definition predict_win_probability (g : ChampionGraph) (draft_state : DraftState)
  : WinProbability :=
  let '(team1_score, team2_score) := team_scores g draft_state in
  let total := (team1_score + team2_score)%Q in
  let '(team1_prob, team2_prob) :=
    if Qgtb total 0 then ((team1_score / total)%Q, (team2_score / total)%Q)
    else ((1#2)%Q, (1#2)%Q) in
  {| wp_team1 := team1_prob; wp_team2 := team2_prob;
     team1_power := team_power g (team1_picks draft_state);
     team2_power := team_power g (team2_picks draft_state);
     team1_synergy := get_team_synergy g (team1_picks draft_state);
     team2_synergy := get_team_synergy g (team2_picks draft_state);
     counter_advantage :=
       get_counter_score g (team1_picks draft_state) (team2_picks draft_state) |}.

(** The body of the loop of [recommend_pick] for one candidate. *)
Definition evaluate_pick (g : ChampionGraph) (my_picks opp_picks : list string)
    (champion : string) : DraftRecommendation :=
  let test_picks := my_picks ++ [champion] in
  let synergy_score := get_team_synergy g test_picks in
  let counter_score := get_counter_score g test_picks opp_picks in
  let champion_power := get_champion_power g champion in
  let total_score := (champion_power + synergy_score * (3#10) + counter_score * (4#10))%Q in
  let synergies :=
    flat_map (fun my_champ =>
      let synergy_value := synergy g champion my_champ in
      if Qgtb synergy_value (5#100)
      then [my_champ +:+ " (+" +:+ format_percent 1 synergy_value +:+ ")"] else [])
      my_picks in
  let counters :=
    flat_map (fun opp_champ =>
      let counter_value := counter g champion opp_champ in
      if Qgtb counter_value (6#10)
      then [opp_champ +:+ " (" +:+ format_percent 0 counter_value +:+ " WR)"] else [])
      opp_picks in
  let reasoning :=
    ((match synergies with
      | [] => []
      | _ => ["Strong synergy with " +:+ join ", " (firstn 2 synergies)]
      end)
     ++ (match counters with
         | [] => []
         | _ => ["Counters " +:+ join ", " (firstn 2 counters)]
         end)
     ++ (if Qgtb champion_power (52#100)
         then ["Strong meta pick (" +:+ format_percent 1 champion_power +:+ " WR)"]
         else [])) in
  let priority :=
    if Qgtb total_score (65#100) then "critical"
    else if Qgtb total_score (55#100) then "high"
    else if Qgtb total_score (50#100) then "medium"
    else "low" in
  {| rec_champion := champion;
     win_rate_impact := (total_score - (1#2))%Q;
     rec_reasoning := match reasoning with [] => ["Solid option"] | _ => reasoning end;
     rec_synergies := synergies;
     rec_counters := counters;
     priority := priority;
     confidence := Qmin' (champion_power * 2) 1 |}.

(** [recommend_pick]. *)
Definition recommend_pick (g : ChampionGraph) (draft_state : DraftState) (team : Z)
    (available_champions : list string) : list DraftRecommendation :=
  let my_picks := if team =? 1 then team1_picks draft_state else team2_picks draft_state in
  let opp_picks := if team =? 1 then team2_picks draft_state else team1_picks draft_state in
  let recommendations := map (evaluate_pick g my_picks opp_picks) (firstn 30 available_champions) in
  firstn 10 (sort_by_impact recommendations).

(** The body of the loop of [recommend_ban] for one candidate. *)
Definition evaluate_ban (g : ChampionGraph) (my_picks : list string) (champion : string)
  : DraftRecommendation :=
  let champion_power := get_champion_power g champion in
  let pick_rate := pick_rate g champion in
  let threat_to_us :=
    match my_picks with
    | [] => 0%Q
    | _ => (np_mean (map (fun my_champ => counter g champion my_champ) my_picks) - (1#2))%Q
    end in
  let threat_score := (champion_power * (5#10) + threat_to_us * (3#10) + pick_rate * (2#10))%Q in
  let reasoning :=
    ((if Qgtb champion_power (53#100)
      then ["High win rate (" +:+ format_percent 1 champion_power +:+ ")"] else [])
     ++ (if Qgtb pick_rate (3#10)
         then ["Commonly picked (" +:+ format_percent 1 pick_rate +:+ " pick rate)"] else [])
     ++ (if Qgtb threat_to_us (5#100) then ["Counters our composition"] else [])) in
  let priority :=
    if Qgtb threat_score (6#10) then "critical"
    else if Qgtb threat_score (55#100) then "high"
    else "medium" in
  {| rec_champion := champion;
     win_rate_impact := threat_score;
     rec_reasoning := match reasoning with [] => ["Standard ban"] | _ => reasoning end;
     rec_synergies := [];
     rec_counters := [];
     priority := priority;
     confidence := Qmin' (pick_rate * 3) 1 |}.

(** [recommend_ban]. *)
Definition recommend_ban (g : ChampionGraph) (draft_state : DraftState) (team : Z)
    (available_champions : list string) : list DraftRecommendation :=
  let my_picks := if team =? 1 then team1_picks draft_state else team2_picks draft_state in
  let recommendations := map (evaluate_ban g my_picks) (firstn 30 available_champions) in
  firstn 10 (sort_by_impact recommendations).

(** ** DraftingAssistant *)

(** The fields of a [DraftingAssistant] that the game reads.
    [all_champions] is the set of names, in its iteration order. *)
Record DraftingAssistant := {
  da_matches : list Match;
  graph : ChampionGraph;
  all_champions : list string
}.

(** The names that [DraftingAssistant.__init__] collects: the champion of
    every action of every draft sequence. *)
Definition sequence_champions (parsed_matches : list Match) : list string :=
  flat_map (λ m, map act_champion (sequence (draft m))) parsed_matches.

(** What [DraftingAssistant.__init__(parsed_matches)] establishes: the graph
    is built from a fresh [ChampionGraph], and [all_champions] enumerates,
    without repetition, the names collected from the draft sequences. *)
Definition assistant_of (parsed_matches : list Match) (a : DraftingAssistant) : Prop :=
  da_matches a = parsed_matches
  ∧ graph a = build_from_matches ChampionGraph_init parsed_matches
  ∧ NoDup (all_champions a)
  ∧ ∀ c, c ∈ all_champions a ↔ c ∈ sequence_champions parsed_matches.

(** ** Draft Master: the session record ([GameState]) *)

(** The [extras] dictionary of a graded move. *)
Record MoveExtras := {
  bonuses : list (string * Z);
  ex_streak : Z;
  ex_combo : Z;
  ex_base : Z;
  ex_time_bonus : Z
}.

(** The [move_record] dictionary appended to [moves_evaluated]. *)
Record MoveRecord := {
  mv_phase : Z;
  mv_action : string;
  mv_champion : string;
  mv_score : Z;
  mv_reasoning : string;
  mv_time_taken : Q;
  mv_extras : MoveExtras
}.

Record GameState := {
  game_id : string;
  player_name : string;
  difficulty : string;
  historical_match_id : string;
  tournament : string;
  real_team1 : string;
  real_team2 : string;
  player_picks : list string;
  player_bans : list string;
  ai_picks : list string;
  ai_bans : list string;
  current_phase : Z;
  player_turn : bool;
  score : Z;
  moves_evaluated : list MoveRecord;
  combo_count : Z;
  streak_count : Z;
  powerups_active : list string;
  achievements : list string;
  perfect_moves : Z;
  started_at : Z;
  completed_at : option Z;
  final_win_probability : Q
}.

(** Field assignments [game_state.f = v]. *)
Definition set_player_picks (v : list string) (gs : GameState) : GameState :=
  {| game_id := game_id gs; player_name := player_name gs; difficulty := difficulty gs;
     historical_match_id := historical_match_id gs; tournament := tournament gs;
     real_team1 := real_team1 gs; real_team2 := real_team2 gs; player_picks := v;
     player_bans := player_bans gs; ai_picks := ai_picks gs; ai_bans := ai_bans gs;
     current_phase := current_phase gs; player_turn := player_turn gs; score := score gs;
     moves_evaluated := moves_evaluated gs; combo_count := combo_count gs;
     streak_count := streak_count gs; powerups_active := powerups_active gs;
     achievements := achievements gs; perfect_moves := perfect_moves gs;
     started_at := started_at gs; completed_at := completed_at gs;
     final_win_probability := final_win_probability gs |}.

Definition set_player_bans (v : list string) (gs : GameState) : GameState :=
  {| game_id := game_id gs; player_name := player_name gs; difficulty := difficulty gs;
     historical_match_id := historical_match_id gs; tournament := tournament gs;
     real_team1 := real_team1 gs; real_team2 := real_team2 gs;
     player_picks := player_picks gs; player_bans := v; ai_picks := ai_picks gs;
     ai_bans := ai_bans gs; current_phase := current_phase gs;
     player_turn := player_turn gs; score := score gs;
     moves_evaluated := moves_evaluated gs; combo_count := combo_count gs;
     streak_count := streak_count gs; powerups_active := powerups_active gs;
     achievements := achievements gs; perfect_moves := perfect_moves gs;
     started_at := started_at gs; completed_at := completed_at gs;
     final_win_probability := final_win_probability gs |}.

Definition set_ai_picks (v : list string) (gs : GameState) : GameState :=
  {| game_id := game_id gs; player_name := player_name gs; difficulty := difficulty gs;
     historical_match_id := historical_match_id gs; tournament := tournament gs;
     real_team1 := real_team1 gs; real_team2 := real_team2 gs;
     player_picks := player_picks gs; player_bans := player_bans gs; ai_picks := v;
     ai_bans := ai_bans gs; current_phase := current_phase gs;
     player_turn := player_turn gs; score := score gs;
     moves_evaluated := moves_evaluated gs; combo_count := combo_count gs;
     streak_count := streak_count gs; powerups_active := powerups_active gs;
     achievements := achievements gs; perfect_moves := perfect_moves gs;
     started_at := started_at gs; completed_at := completed_at gs;
     final_win_probability := final_win_probability gs |}.

Definition set_ai_bans (v : list string) (gs : GameState) : GameState :=
  {| game_id := game_id gs; player_name := player_name gs; difficulty := difficulty gs;
     historical_match_id := historical_match_id gs; tournament := tournament gs;
     real_team1 := real_team1 gs; real_team2 := real_team2 gs;
     player_picks := player_picks gs; player_bans := player_bans gs;
     ai_picks := ai_picks gs; ai_bans := v; current_phase := current_phase gs;
     player_turn := player_turn gs; score := score gs;
     moves_evaluated := moves_evaluated gs; combo_count := combo_count gs;
     streak_count := streak_count gs; powerups_active := powerups_active gs;
     achievements := achievements gs; perfect_moves := perfect_moves gs;
     started_at := started_at gs; completed_at := completed_at gs;
     final_win_probability := final_win_probability gs |}.

Definition set_current_phase (v : Z) (gs : GameState) : GameState :=
  {| game_id := game_id gs; player_name := player_name gs; difficulty := difficulty gs;
     historical_match_id := historical_match_id gs; tournament := tournament gs;
     real_team1 := real_team1 gs; real_team2 := real_team2 gs;
     player_picks := player_picks gs; player_bans := player_bans gs;
     ai_picks := ai_picks gs; ai_bans := ai_bans gs; current_phase := v;
     player_turn := player_turn gs; score := score gs;
     moves_evaluated := moves_evaluated gs; combo_count := combo_count gs;
     streak_count := streak_count gs; powerups_active := powerups_active gs;
     achievements := achievements gs; perfect_moves := perfect_moves gs;
     started_at := started_at gs; completed_at := completed_at gs;
     final_win_probability := final_win_probability gs |}.

Definition set_score (v : Z) (gs : GameState) : GameState :=
  {| game_id := game_id gs; player_name := player_name gs; difficulty := difficulty gs;
     historical_match_id := historical_match_id gs; tournament := tournament gs;
     real_team1 := real_team1 gs; real_team2 := real_team2 gs;
     player_picks := player_picks gs; player_bans := player_bans gs;
     ai_picks := ai_picks gs; ai_bans := ai_bans gs; current_phase := current_phase gs;
     player_turn := player_turn gs; score := v; moves_evaluated := moves_evaluated gs;
     combo_count := combo_count gs; streak_count := streak_count gs;
     powerups_active := powerups_active gs; achievements := achievements gs;
     perfect_moves := perfect_moves gs; started_at := started_at gs;
     completed_at := completed_at gs; final_win_probability := final_win_probability gs |}.

Definition set_moves_evaluated (v : list MoveRecord) (gs : GameState) : GameState :=
  {| game_id := game_id gs; player_name := player_name gs; difficulty := difficulty gs;
     historical_match_id := historical_match_id gs; tournament := tournament gs;
     real_team1 := real_team1 gs; real_team2 := real_team2 gs;
     player_picks := player_picks gs; player_bans := player_bans gs;
     ai_picks := ai_picks gs; ai_bans := ai_bans gs; current_phase := current_phase gs;
     player_turn := player_turn gs; score := score gs; moves_evaluated := v;
     combo_count := combo_count gs; streak_count := streak_count gs;
     powerups_active := powerups_active gs; achievements := achievements gs;
     perfect_moves := perfect_moves gs; started_at := started_at gs;
     completed_at := completed_at gs; final_win_probability := final_win_probability gs |}.

Definition set_combo_count (v : Z) (gs : GameState) : GameState :=
  {| game_id := game_id gs; player_name := player_name gs; difficulty := difficulty gs;
     historical_match_id := historical_match_id gs; tournament := tournament gs;
     real_team1 := real_team1 gs; real_team2 := real_team2 gs;
     player_picks := player_picks gs; player_bans := player_bans gs;
     ai_picks := ai_picks gs; ai_bans := ai_bans gs; current_phase := current_phase gs;
     player_turn := player_turn gs; score := score gs;
     moves_evaluated := moves_evaluated gs; combo_count := v;
     streak_count := streak_count gs; powerups_active := powerups_active gs;
     achievements := achievements gs; perfect_moves := perfect_moves gs;
     started_at := started_at gs; completed_at := completed_at gs;
     final_win_probability := final_win_probability gs |}.

Definition set_streak_count (v : Z) (gs : GameState) : GameState :=
  {| game_id := game_id gs; player_name := player_name gs; difficulty := difficulty gs;
     historical_match_id := historical_match_id gs; tournament := tournament gs;
     real_team1 := real_team1 gs; real_team2 := real_team2 gs;
     player_picks := player_picks gs; player_bans := player_bans gs;
     ai_picks := ai_picks gs; ai_bans := ai_bans gs; current_phase := current_phase gs;
     player_turn := player_turn gs; score := score gs;
     moves_evaluated := moves_evaluated gs; combo_count := combo_count gs;
     streak_count := v; powerups_active := powerups_active gs;
     achievements := achievements gs; perfect_moves := perfect_moves gs;
     started_at := started_at gs; completed_at := completed_at gs;
     final_win_probability := final_win_probability gs |}.

Definition set_achievements (v : list string) (gs : GameState) : GameState :=
  {| game_id := game_id gs; player_name := player_name gs; difficulty := difficulty gs;
     historical_match_id := historical_match_id gs; tournament := tournament gs;
     real_team1 := real_team1 gs; real_team2 := real_team2 gs;
     player_picks := player_picks gs; player_bans := player_bans gs;
     ai_picks := ai_picks gs; ai_bans := ai_bans gs; current_phase := current_phase gs;
     player_turn := player_turn gs; score := score gs;
     moves_evaluated := moves_evaluated gs; combo_count := combo_count gs;
     streak_count := streak_count gs; powerups_active := powerups_active gs;
     achievements := v; perfect_moves := perfect_moves gs; started_at := started_at gs;
     completed_at := completed_at gs; final_win_probability := final_win_probability gs |}.

Definition set_perfect_moves (v : Z) (gs : GameState) : GameState :=
  {| game_id := game_id gs; player_name := player_name gs; difficulty := difficulty gs;
     historical_match_id := historical_match_id gs; tournament := tournament gs;
     real_team1 := real_team1 gs; real_team2 := real_team2 gs;
     player_picks := player_picks gs; player_bans := player_bans gs;
     ai_picks := ai_picks gs; ai_bans := ai_bans gs; current_phase := current_phase gs;
     player_turn := player_turn gs; score := score gs;
     moves_evaluated := moves_evaluated gs; combo_count := combo_count gs;
     streak_count := streak_count gs; powerups_active := powerups_active gs;
     achievements := achievements gs; perfect_moves := v; started_at := started_at gs;
     completed_at := completed_at gs; final_win_probability := final_win_probability gs |}.

Definition set_completed_at (v : option Z) (gs : GameState) : GameState :=
  {| game_id := game_id gs; player_name := player_name gs; difficulty := difficulty gs;
     historical_match_id := historical_match_id gs; tournament := tournament gs;
     real_team1 := real_team1 gs; real_team2 := real_team2 gs;
     player_picks := player_picks gs; player_bans := player_bans gs;
     ai_picks := ai_picks gs; ai_bans := ai_bans gs; current_phase := current_phase gs;
     player_turn := player_turn gs; score := score gs;
     moves_evaluated := moves_evaluated gs; combo_count := combo_count gs;
     streak_count := streak_count gs; powerups_active := powerups_active gs;
     achievements := achievements gs; perfect_moves := perfect_moves gs;
     started_at := started_at gs; completed_at := v;
     final_win_probability := final_win_probability gs |}.

Definition set_final_win_probability (v : Q) (gs : GameState) : GameState :=
  {| game_id := game_id gs; player_name := player_name gs; difficulty := difficulty gs;
     historical_match_id := historical_match_id gs; tournament := tournament gs;
     real_team1 := real_team1 gs; real_team2 := real_team2 gs;
     player_picks := player_picks gs; player_bans := player_bans gs;
     ai_picks := ai_picks gs; ai_bans := ai_bans gs; current_phase := current_phase gs;
     player_turn := player_turn gs; score := score gs;
     moves_evaluated := moves_evaluated gs; combo_count := combo_count gs;
     streak_count := streak_count gs; powerups_active := powerups_active gs;
     achievements := achievements gs; perfect_moves := perfect_moves gs;
     started_at := started_at gs; completed_at := completed_at gs;
     final_win_probability := v |}.

(** ** Mutation and exceptions *)

(** The exceptions the modelled code can raise. *)
Inductive exn := KeyError | IndexError | UnboundLocalError | ValueError | OverflowError.

(** Result of running a method on a mutable object of type [S]: it returns a
    value or raises, and in both cases leaves the object in some state. *)
Inductive result (S A : Type) :=
  | Return (a : A) (s : S)
  | Raise (e : exn) (s : S).
Arguments Return {S A} a s.
Arguments Raise {S A} e s.

Definition M (S A : Type) : Type := S → result S A.

Global Instance M_ret {S} : MRet (M S) := λ A a s, Return a s.
Global Instance M_bind {S} : MBind (M S) := λ A B f m s,
  match m s with
  | Return a s' => f a s'
  | Raise e s' => Raise e s'
  end.

Global Instance M_fmap {S} : FMap (M S) := λ A B f m s,
  match m s with
  | Return a s' => Return (f a) s'
  | Raise e s' => Raise e s'
  end.

Definition get {S} : M S S := λ s, Return s s.
Definition modify {S} (f : S → S) : M S unit := λ s, Return tt (f s).
Definition raise {S A} (e : exn) : M S A := λ s, Raise e s.

(** [random.choice(seq)], the draw being [rnd]: [IndexError] on an empty
    sequence. *)
Definition random_choice {S A} (rnd : nat) (seq : list A) : M S A :=
  match seq !! (rnd mod length seq)%nat with
  | Some x => mret x
  | None => raise IndexError
  end.

(** [seq[0]]. *)
Definition index0 {S A} (seq : list A) : M S A :=
  match seq with
  | x :: _ => mret x
  | [] => raise IndexError
  end.

(** ** DraftScorer *)

(** [self.scoring_rules]. *)
Module scoring_rules.
Definition optimal_pick : Z := 100.
Definition good_pick : Z := 75.
Definition acceptable_pick : Z := 50.
Definition suboptimal_pick : Z := 25.
Definition poor_pick : Z := 0.
Definition time_bonus : Z := 10.
Definition synergy_bonus : Z := 50.
Definition counter_bonus : Z := 50.
Definition combo_multiplier : Q := 15 # 10.
Definition streak_bonus : Z := 25.
Definition perfect_move_bonus : Z := 100.
End scoring_rules.

Record Achievement := {
  ach_name : string;
  ach_desc : string;
  ach_bonus : Z
}.

(** [self.achievements] of the scorer. *)
Definition achievements_table : gmap string Achievement :=
  list_to_map [
    ("first_blood", {| ach_name := "First Blood"; ach_desc := "First optimal pick"; ach_bonus := 50 |});
    ("combo_master", {| ach_name := "Combo Master"; ach_desc := "3 optimal picks in a row"; ach_bonus := 150 |});
    ("synergy_king", {| ach_name := "Synergy King"; ach_desc := "Build perfect synergy comp"; ach_bonus := 200 |});
    ("counter_strike", {| ach_name := "Counter Strike"; ach_desc := "Counter all enemy picks"; ach_bonus := 175 |});
    ("speedster", {| ach_name := "Speedster"; ach_desc := "All picks under 15s"; ach_bonus := 125 |});
    ("flawless", {| ach_name := "Flawless Victory"; ach_desc := "All optimal picks"; ach_bonus := 500 |});
    ("comeback_kid", {| ach_name := "Comeback Kid"; ach_desc := "Win from losing position"; ach_bonus := 250 |});
    ("draft_god", {| ach_name := "Draft God"; ach_desc := "90%+ win probability"; ach_bonus := 300 |})
  ].

(** [self.achievements[key]['bonus']] for a key of the table. *)
Definition bonus_of (key : string) : Z :=
  default 0 (ach_bonus <$> achievements_table !! key).

(** The loop that looks for [chosen_champion] among the recommendations:
    index of the first recommendation of that champion, counted from [i]. *)
Fixpoint find_rank (i : Z) (chosen_champion : string) (recommendations : list DraftRecommendation)
  : option Z :=
  match recommendations with
  | [] => None
  | r :: rest =>
    if bool_decide (rec_champion r = chosen_champion) then Some i
    else find_rank (i + 1) chosen_champion rest
  end.

(** Base points of a rank (the [if]/[elif] chain of [score_pick]). *)
Definition base_score_of (chosen_rank : option Z) : Z :=
  match chosen_rank with
  | None => scoring_rules.poor_pick
  | Some r =>
    if r =? 0 then scoring_rules.optimal_pick
    else if r <=? 2 then scoring_rules.good_pick
    else if r <=? 5 then scoring_rules.acceptable_pick
    else scoring_rules.suboptimal_pick
  end.

(** [int(max(0, 30 - time_taken) * self.scoring_rules['time_bonus'])], the
    time taken being a float.  The difference is a float [d]; [max(0, d)]
    is [d] when [0 < d] and the integer 0 otherwise, which gives the bonus
    0; the product of [d] and 10 is a float again, and [int] truncates it,
    raising [OverflowError] on an infinity, which is [None] here.
    [time_taken] is a finite float, as the signature of [make_move]
    declares it, given by the rational it denotes. *)
Definition time_bonus_of (time_taken : Q) : option Z :=
  match round64 (30 - time_taken) with
  | Finite d =>
    if Qltb 0 d then
      match round64 (d * inject_Z scoring_rules.time_bonus) with
      | Finite p => Some (int_of_float p)
      | Infinite _ => None
      end
    else Some 0
  | Infinite negative => if negative then Some 0 else None
  end.

(** The rank-dependent part of [score_pick]: updates the streak, perfect-move
    and combo counters of the session and yields the reasoning text and the
    bonuses collected so far. *)
Definition grade_rank (chosen_rank : option Z) (recommendations : list DraftRecommendation)
  : M GameState (string * list (string * Z)) :=
  match chosen_rank with
  | None =>
    modify (set_streak_count 0);;
    mret ("Unconventional choice", [])
  | Some r =>
    if r =? 0 then
      let why :=
        match recommendations with
        | r0 :: _ => match rec_reasoning r0 with s :: _ => s | [] => "" end
        | [] => ""
        end in
      modify (λ gs, set_streak_count (streak_count gs + 1) gs);;
      modify (λ gs, set_perfect_moves (perfect_moves gs + 1) gs);;
      gs ← get;
      let first_blood :=
        if perfect_moves gs =? 1 then [("First Blood", bonus_of "first_blood")] else [] in
      if 3 <=? streak_count gs then
        modify (λ gs, set_combo_count (combo_count gs + 1) gs);;
        gs ← get;
        let combo_bonus :=
          int_of_float (inject_Z scoring_rules.optimal_pick * scoring_rules.combo_multiplier) in
        let combo_master :=
          if combo_count gs =? 1 then [("Combo Master", bonus_of "combo_master")] else [] in
        mret ("Optimal pick! " +:+ why, first_blood ++ [("Combo x3", combo_bonus)] ++ combo_master)
      else mret ("Optimal pick! " +:+ why, first_blood)
    else if r <=? 2 then
      modify (λ gs, set_streak_count (Z.max 0 (streak_count gs - 1)) gs);;
      mret ("Good pick! Ranked #" +:+ str_of_Z (r + 1), [])
    else if r <=? 5 then
      modify (set_streak_count 0);;
      mret ("Acceptable pick", [])
    else
      modify (set_streak_count 0);;
      mret ("Suboptimal - better options available", [])
  end.

(** [DraftScorer.score_pick].  (The [draft_state] argument is not read.) *)
Definition score_pick (chosen_champion : string) (recommendations : list DraftRecommendation)
    (time_taken : Q) : M GameState (Z * string * MoveExtras) :=
  let chosen_rank := find_rank 0 chosen_champion recommendations in
  let base_score := base_score_of chosen_rank in
  '(reasoning, bonuses) ← grade_rank chosen_rank recommendations;
  time_bonus ←
    match time_bonus_of time_taken with
    | Some n => mret n
    | None => raise OverflowError
    end;
  let bonuses :=
    if 200 <? time_bonus then bonuses ++ [("Speed Bonus", time_bonus)] else bonuses in
  gs ← get;
  let bonuses :=
    if 0 <? streak_count gs
    then bonuses ++ [("Streak", streak_count gs * scoring_rules.streak_bonus)]
    else bonuses in
  let total_score := base_score + time_bonus + Zsum (map snd bonuses) in
  let reasoning :=
    match bonuses with
    | [] => reasoning
    | _ =>
      reasoning +:+ " + "
      +:+ join " + " (map (λ b, fst b +:+ " (+" +:+ str_of_Z (snd b) +:+ ")") bonuses)
    end in
  let extras :=
    {| bonuses := bonuses; ex_streak := streak_count gs; ex_combo := combo_count gs;
       ex_base := base_score; ex_time_bonus := time_bonus |} in
  mret (total_score, reasoning, extras).

(** One [if ... and key not in game_state.achievements] block of
    [check_achievements]. *)
Definition unlock (key : string) (cond : GameState → bool) : M GameState (list string) :=
  gs ← get;
  if cond gs && bool_decide (key ∉ achievements gs) then
    modify (λ gs, set_achievements (achievements gs ++ [key]) gs);;
    mret [key]
  else mret [].

(** [sum(m.get('time_taken', 30) for m in moves) / max(1, len(moves))]. *)
Definition avg_time (gs : GameState) : Q :=
  (Qsum (map mv_time_taken (moves_evaluated gs))
   / inject_Z (Z.max 1 (Z.of_nat (length (moves_evaluated gs)))))%Q.

(** [DraftScorer.check_achievements]. *)
Definition check_achievements : M GameState (list string) :=
  n1 ← unlock "flawless" (λ gs, 10 <=? perfect_moves gs);
  n2 ← unlock "speedster"
         (λ gs, Qltb (avg_time gs) 15 && (10 <=? Z.of_nat (length (moves_evaluated gs))));
  n3 ← unlock "draft_god" (λ gs, Qgeb (final_win_probability gs) (9#10));
  mret (n1 ++ n2 ++ n3).

Record FinalScore := {
  fs_base_score : Z;
  win_probability_bonus : Z;
  achievement_bonus : Z;
  total_score : Z;
  rating : string;
  rank : string;
  moves_made : Z;
  average_move_score : Q;
  fs_perfect_moves : Z;
  combos : Z;
  fs_achievements : list string
}.

(** The step function on the final win probability. *)
Definition wp_bonus_of (p : Q) : Z :=
  if Qgtb p (75#100) then 800
  else if Qgtb p (65#100) then 500
  else if Qgtb p (55#100) then 300
  else if Qgtb p (5#10) then 100
  else 0.

(** [sum(self.achievements[ach]['bonus'] for ach in l if ach in self.achievements)]. *)
Definition achievement_bonus_of (l : list string) : Z :=
  Zsum (map bonus_of (filter (λ ach, is_Some (achievements_table !! ach)) l)).

(** [DraftScorer.calculate_final_score]. *)
Definition calculate_final_score (gs : GameState) : FinalScore :=
  let base_score := Zsum (map mv_score (moves_evaluated gs)) in
  let wp_bonus := wp_bonus_of (final_win_probability gs) in
  let achievement_bonus := achievement_bonus_of (achievements gs) in
  let total_score := base_score + wp_bonus + achievement_bonus in
  let '(rating, rank) :=
    if 3000 <=? total_score then ("Legendary", "S+")
    else if 2000 <=? total_score then ("Master", "S")
    else if 1500 <=? total_score then ("Diamond", "A")
    else if 1000 <=? total_score then ("Platinum", "B")
    else ("Gold", "C") in
  {| fs_base_score := base_score;
     win_probability_bonus := wp_bonus;
     achievement_bonus := achievement_bonus;
     total_score := total_score;
     rating := rating;
     rank := rank;
     moves_made := Z.of_nat (length (moves_evaluated gs));
     average_move_score :=
       match moves_evaluated gs with
       | [] => 0%Q
       | _ => Zdiv_float base_score (Z.of_nat (length (moves_evaluated gs)))
       end;
     fs_perfect_moves := perfect_moves gs;
     combos := combo_count gs;
     fs_achievements := achievements gs |}.

(** ** DraftMasterGame *)

(** The dictionary returned by [get_available_actions]. *)
Record Actions := {
  action_type : string;
  available_champions : list string;
  recommendations : list DraftRecommendation;
  time_limit : Z;
  phase : Z;
  phase_description : string
}.

Record AiMove := {
  ai_champion : string;
  ai_reasoning : string
}.

Record Comparison := {
  real_team_picks : list string;
  similarity : Q;
  shared_champions : list string;
  real_team_won : bool
}.

Record Celebration := {
  effects : list string;
  message : string;
  cel_rank : string;
  title : string
}.

Record StatsBreakdown := {
  sb_perfect_moves : Z;
  sb_combo_count : Z;
  streak_best : Z;
  sb_avg_time : Q
}.

(** The dictionary returned by [_complete_game]; [comparison] is [None] for
    the empty dictionary. *)
Record FinalResults := {
  final_score : FinalScore;
  win_probability : Q;
  player_draft : list string * list string;
  ai_draft : list string * list string;
  comparison : option Comparison;
  new_achievements : list string;
  celebration : Celebration;
  stats_breakdown : StatsBreakdown
}.

(** The dictionary returned by an accepted [make_move]. *)
Record MoveOutcome := {
  player_move : MoveRecord;
  ai_move : AiMove;
  current_score : Z;
  game_complete : bool;
  mo_streak : Z;
  mo_combo : Z;
  mo_perfect_moves : Z;
  final_results : option FinalResults
}.

(** What [make_move] returns: [{'error': msg}] or the outcome above. *)
Inductive MoveResult :=
  | MoveError (error : string)
  | MoveDone (outcome : MoveOutcome).

Record DraftMasterGame := {
  matches : list Match;
  assistant : DraftingAssistant;
  active_games : gmap string GameState
}.

(** [DraftMasterGame.__init__]. *)
Definition DraftMasterGame_init (parsed_matches : list Match)
    (drafting_assistant : DraftingAssistant) : DraftMasterGame :=
  {| matches := parsed_matches; assistant := drafting_assistant; active_games := ∅ |}.

(** [_get_phase_description]. *)
Definition _get_phase_description (phase : Z) : string :=
  let descriptions : list (Z * string) := [
    (0, "First Ban Phase - Ban 1");
    (1, "First Ban Phase - Ban 2");
    (2, "First Ban Phase - Ban 3");
    (3, "First Pick Phase - Pick 1");
    (4, "First Pick Phase - Pick 2");
    (5, "Second Ban Phase - Ban 1");
    (6, "Second Ban Phase - Ban 2");
    (7, "Second Pick Phase - Pick 1");
    (8, "Second Pick Phase - Pick 2");
    (9, "Second Pick Phase - Pick 3");
    (10, "Second Pick Phase - Pick 4");
    (11, "Final Ban Phase - Ban 1");
    (12, "Final Ban Phase - Ban 2");
    (13, "Final Pick Phase") ] in
  default ("Phase " +:+ str_of_Z phase)
    (snd <$> List.find (λ d, fst d =? phase) descriptions).

(** [ban_phases] of [get_available_actions]. *)
Definition ban_phases : list Z := range 0 3 ++ range 5 7 ++ range 11 13.

(** The action of a phase: ['ban' if phase in ban_phases else 'pick']. *)
Definition action_type_of (phase : Z) : string :=
  if bool_decide (phase ∈ ban_phases) then "ban" else "pick".

(** The champions of the pool that nobody picked or banned:
    [[c for c in all_champions if c not in all_picked and c not in all_banned]]. *)
Definition available (a : DraftingAssistant) (gs : GameState) : list string :=
  let all_picked : gset string := list_to_set (player_picks gs ++ ai_picks gs) in
  let all_banned : gset string := list_to_set (player_bans gs ++ ai_bans gs) in
  filter (λ c, (c ∉ all_picked) ∧ (c ∉ all_banned)) (all_champions a).

(** The [final_draft] that [_complete_game] builds from the session. *)
Definition final_draft (gs : GameState) : DraftState :=
  {| team1_picks := player_picks gs; team1_bans := player_bans gs;
     team2_picks := ai_picks gs; team2_bans := ai_bans gs;
     ds_current_phase := "complete"; turn := 1 |}.

(** The methods below are those of one engine [self]; they run on the
    session object [self.active_games[game_id]]. *)
Section Session.
Variable self : DraftMasterGame.

(** The recommendation list that [get_available_actions] computes for the
    player before it applies the difficulty to it. *)
Definition player_recommendations (gs : GameState) : list DraftRecommendation :=
  let action_type := action_type_of (current_phase gs) in
  let draft_state :=
    {| team1_picks := player_picks gs; team1_bans := player_bans gs;
       team2_picks := ai_picks gs; team2_bans := ai_bans gs;
       ds_current_phase := action_type;
       turn := if player_turn gs then 1 else 2 |} in
  if bool_decide (current_phase gs ∈ ban_phases)
  then recommend_ban (graph (assistant self)) draft_state 1 (available (assistant self) gs)
  else recommend_pick (graph (assistant self)) draft_state 1 (available (assistant self) gs).

(** [get_available_actions], after the lookup of the session. *)
Definition get_available_actions : M GameState Actions :=
  gs ← get;
  let phase := current_phase gs in
  let action_type := action_type_of phase in
  let available := available (assistant self) gs in
  let recommendations := player_recommendations gs in
  hints ←
    (if bool_decide (difficulty gs = "easy") then mret (firstn 5 recommendations)
     else if bool_decide (difficulty gs = "medium") then mret (firstn 3 recommendations)
     else if bool_decide (difficulty gs = "hard") then
       (r ← index0 recommendations; mret [r])
     else mret []);
  mret {| action_type := action_type;
          available_champions := firstn 50 available;
          recommendations := if bool_decide (difficulty gs ≠ "pro") then hints else [];
          time_limit := 30;
          phase := phase;
          phase_description := _get_phase_description phase |}.

(** The recommendation list that [_ai_make_move] computes for the
    simulated opponent. *)
Definition ai_recommendations (action_type : string) (gs : GameState)
  : list DraftRecommendation :=
  let draft_state :=
    {| team1_picks := ai_picks gs; team1_bans := ai_bans gs;
       team2_picks := player_picks gs; team2_bans := player_bans gs;
       ds_current_phase := action_type; turn := 2 |} in
  let available := available (assistant self) gs in
  if bool_decide (action_type = "ban")
  then recommend_ban (graph (assistant self)) draft_state 2 available
  else recommend_pick (graph (assistant self)) draft_state 2 available.

(** [_ai_make_move]. *)
Definition _ai_make_move (action_type : string) (rnd : nat) : M GameState AiMove :=
  gs ← get;
  let recommendations := ai_recommendations action_type gs in
  (* [chosen] stays unassigned when no branch is taken *)
  chosen ←
    (if bool_decide (difficulty gs = "easy") then
       Some <$> random_choice rnd (firstn 10 recommendations)
     else if bool_decide (difficulty gs = "medium") then
       Some <$> random_choice rnd (firstn 5 recommendations)
     else if bool_decide (difficulty gs ∈ ["hard"; "pro"]) then
       Some <$> index0 recommendations
     else mret None);
  match chosen with
  | None => raise UnboundLocalError
  | Some chosen =>
    (if bool_decide (action_type = "ban")
     then modify (λ gs, set_ai_bans (ai_bans gs ++ [rec_champion chosen]) gs)
     else modify (λ gs, set_ai_picks (ai_picks gs ++ [rec_champion chosen]) gs));;
    mret {| ai_champion := rec_champion chosen;
            ai_reasoning :=
              match rec_reasoning chosen with
              | s :: _ => s
              | [] => "Strategic choice"
              end |}
  end.

(** [_compare_to_real_match]. *)
Definition _compare_to_real_match : M GameState (option Comparison) :=
  gs ← get;
  match List.find (λ m, bool_decide (match_id (metadata m) = historical_match_id gs))
                  (matches self) with
  | None => mret None
  | Some real_match =>
    let real_team1_picks :=
      get_team_picks (draft real_match) (team1_id (metadata real_match)) in
    let common_picks : gset string :=
      list_to_set (player_picks gs) ∩ list_to_set real_team1_picks in
    first_team ← index0 (team_stats real_match);
    mret (Some {| real_team_picks := real_team1_picks;
                  similarity := (inject_Z (Z.of_nat (size common_picks)) / 5 * 100)%Q;
                  shared_champions := elements common_picks;
                  real_team_won := win first_team |})
  end.

(** [_get_celebration]. *)
Definition _get_celebration (final_score : FinalScore) (new_achievements : list string)
  : Celebration :=
  let score := total_score final_score in
  let '(effects, message) :=
    if 3000 <=? score then
      (["fireworks"; "gold_rain"; "epic_sound"],
       "LEGENDARY PERFORMANCE! You are a Draft Master!")
    else if 2000 <=? score then
      (["confetti"; "sparkles"; "victory_sound"], "OUTSTANDING! Master-level drafting!")
    else if 1500 <=? score then
      (["stars"; "shimmer"], "Excellent work! Diamond-tier performance!")
    else if 1000 <=? score then (["glow"], "Well played! Solid drafting!")
    else ([], "Good effort! Keep practicing!") in
  let '(effects, message) :=
    if bool_decide ("flawless" ∈ new_achievements)
    then (effects ++ ["rainbow_burst"], "FLAWLESS VICTORY! Perfect draft!")
    else (effects, message) in
  let '(effects, message) :=
    if bool_decide ("draft_god" ∈ new_achievements)
    then (effects ++ ["lightning"], "DRAFT GOD! 90%+ win probability achieved!")
    else (effects, message) in
  {| effects := effects; message := message;
     cel_rank := rank final_score; title := rating final_score |}.

(** [max(l)] over integers: [ValueError] on an empty list. *)
Definition max_of (l : list Z) : M GameState Z :=
  match l with
  | [] => raise ValueError
  | x :: rest => mret (fold_left Z.max rest x)
  end.

(** [_complete_game], the clock reading [now]. *)
Definition _complete_game (now : Z) : M GameState FinalResults :=
  gs ← get;
  let win_probs := predict_win_probability (graph (assistant self)) (final_draft gs) in
  modify (set_final_win_probability (wp_team1 win_probs));;
  new_achievements ← check_achievements;
  gs ← get;
  let final_score := calculate_final_score gs in
  modify (set_completed_at (Some now));;
  let celebration := _get_celebration final_score new_achievements in
  gs ← get;
  comparison ← _compare_to_real_match;
  best ← max_of (map (λ m, ex_streak (mv_extras m)) (moves_evaluated gs));
  mret {| final_score := final_score;
          win_probability := wp_team1 win_probs;
          player_draft := (player_picks gs, player_bans gs);
          ai_draft := (ai_picks gs, ai_bans gs);
          comparison := comparison;
          new_achievements := new_achievements;
          celebration := celebration;
          stats_breakdown :=
            {| sb_perfect_moves := perfect_moves gs;
               sb_combo_count := combo_count gs;
               streak_best := best;
               sb_avg_time :=
                 (Qsum (map mv_time_taken (moves_evaluated gs))
                  / inject_Z (Z.of_nat (length (moves_evaluated gs))))%Q |} |}.

(** [make_move], after the lookup of the session; [rnd] is the draw of the
    simulated opponent and [now] the clock reading. *)
Definition make_move (champion : string) (time_taken : Q) (rnd : nat) (now : Z)
  : M GameState MoveResult :=
  actions ← get_available_actions;
  if bool_decide (champion ∉ available_champions actions) then
    mret (MoveError "Invalid champion choice")
  else
    '(score', reasoning, extras) ←
      score_pick champion (recommendations actions) time_taken;
    gs ← get;
    let move_record :=
      {| mv_phase := current_phase gs; mv_action := action_type actions;
         mv_champion := champion; mv_score := score'; mv_reasoning := reasoning;
         mv_time_taken := time_taken; mv_extras := extras |} in
    modify (λ gs, set_moves_evaluated (moves_evaluated gs ++ [move_record]) gs);;
    modify (λ gs, set_score (score gs + score') gs);;
    (if bool_decide (action_type actions = "ban")
     then modify (λ gs, set_player_bans (player_bans gs ++ [champion]) gs)
     else modify (λ gs, set_player_picks (player_picks gs ++ [champion]) gs));;
    ai_move ← _ai_make_move (action_type actions) rnd;
    modify (λ gs, set_current_phase (current_phase gs + 1) gs);;
    gs ← get;
    let game_complete := 20 <=? current_phase gs in
    final_results ←
      (if game_complete then Some <$> _complete_game now else mret None);
    gs ← get;
    mret (MoveDone {| player_move := move_record; ai_move := ai_move;
                      current_score := score gs;
                      game_complete := game_complete;
                      mo_streak := streak_count gs; mo_combo := combo_count gs;
                      mo_perfect_moves := perfect_moves gs;
                      final_results := final_results |}).
End Session.

(** *** The session registry *)

(** The [GameState] that [start_new_game] creates. *)
Definition new_game_state (game_id player_name difficulty : string) (m : Match) (now : Z)
  : GameState :=
  {| game_id := game_id; player_name := player_name; difficulty := difficulty;
     historical_match_id := match_id (metadata m);
     tournament := md_tournament (metadata m);
     real_team1 := team1_name (metadata m); real_team2 := team2_name (metadata m);
     player_picks := []; player_bans := []; ai_picks := []; ai_bans := [];
     current_phase := 0; player_turn := true;
     score := 0; moves_evaluated := [];
     combo_count := 0; streak_count := 0; powerups_active := []; achievements := [];
     perfect_moves := 0;
     started_at := now; completed_at := None; final_win_probability := 0 |}.

Definition set_active_games (v : gmap string GameState) (self : DraftMasterGame)
  : DraftMasterGame :=
  {| matches := matches self; assistant := assistant self; active_games := v |}.

(** [start_new_game(player_name, difficulty)]; [rnd] is the draw that selects
    the historical match and [now] the clock reading, from which the
    identifier of the session is made. *)
Definition start_new_game (player_name difficulty : string) (rnd : nat) (now : Z)
  : M DraftMasterGame GameState :=
  self ← get;
  m ← random_choice rnd (matches self);
  let game_id := "game_" +:+ str_of_Z now in
  let game_state := new_game_state game_id player_name difficulty m now in
  modify (λ self, set_active_games (<[game_id := game_state]> (active_games self)) self);;
  mret game_state.

(** A method that starts with [game_state = self.active_games[game_id]] and
    then works on that object: [KeyError] for an unknown identifier;
    otherwise the session is left as the method leaves it, also when the
    method raises. *)
Definition on_game {A} (game_id : string) (body : DraftMasterGame → M GameState A)
  : M DraftMasterGame A := λ self,
  match active_games self !! game_id with
  | None => Raise KeyError self
  | Some gs =>
    match body self gs with
    | Return a gs' => Return a (set_active_games (<[game_id := gs']> (active_games self)) self)
    | Raise e gs' => Raise e (set_active_games (<[game_id := gs']> (active_games self)) self)
    end
  end.

(** [DraftMasterGame.get_available_actions(game_id)]. *)
Definition api_get_available_actions (game_id : string) : M DraftMasterGame Actions :=
  on_game game_id get_available_actions.

(** [DraftMasterGame.make_move(game_id, champion, time_taken)]. *)
Definition api_make_move (game_id champion : string) (time_taken : Q) (rnd : nat) (now : Z)
  : M DraftMasterGame MoveResult :=
  on_game game_id (λ self, make_move self champion time_taken rnd now).

(** The session after a series of [make_move] calls, every one of which
    returned without an error; [moves] lists the champion, the time taken,
    the draw of the opponent and the clock reading of the calls, earliest
    first.  [None] when some call is rejected or raises. *)
Fixpoint play (self : DraftMasterGame) (moves : list (string * Q * nat * Z)) (gs : GameState)
  : option GameState :=
  match moves with
  | [] => Some gs
  | (champion, time_taken, rnd, now) :: rest =>
    match make_move self champion time_taken rnd now gs with
    | Return (MoveDone _) gs' => play self rest gs'
    | _ => None
    end
  end.

(** ** Closed forms used in the statements

    The definitions of this part restate, as plain functions, values that
    the methods above compute on the way; each is related to the method by a
    lemma below. *)

(** The value that the synergy pass of [build_from_matches] writes for the
    pair [(c1, c2)] seen [count] times, the graph being [g] at that moment. *)
Definition synergy_written (t : Tallies) (g : ChampionGraph) (c1 c2 : string) (count : Z)
  : Q :=
  (Zdiv_float (dget (teammate_wins t) (c1, c2)) count
   - (win_rate g c1 + win_rate g c2) / 2)%Q.

(** Ordering of the recommendations: [a] may stand before [b]. *)
Definition impact_ge (a b : DraftRecommendation) : Prop :=
  (win_rate_impact b <= win_rate_impact a)%Q.

(** The hints that [get_available_actions] hands out. *)
Definition visible_hints (difficulty : string) (recs : list DraftRecommendation)
  : list DraftRecommendation :=
  if bool_decide (difficulty = "easy") then take 5 recs
  else if bool_decide (difficulty = "medium") then take 3 recs
  else if bool_decide (difficulty = "hard") then take 1 recs
  else [].

Definition is_rank0 (chosen_rank : option Z) : bool :=
  match chosen_rank with Some r => r =? 0 | None => false end.

(** The streak after a move of the given rank. *)
Definition streak_after (chosen_rank : option Z) (streak : Z) : Z :=
  match chosen_rank with
  | None => 0
  | Some r =>
    if r =? 0 then streak + 1
    else if r <=? 2 then Z.max 0 (streak - 1)
    else 0
  end.

(** The named bonuses of a move, given its rank, its time bonus and the
    counters of the session after the move. *)
Definition named_bonuses (chosen_rank : option Z) (time_bonus streak' perfect' combo' : Z)
  : list (string * Z) :=
  (if is_rank0 chosen_rank && (perfect' =? 1) then [("First Blood", 50)] else [])
  ++ (if is_rank0 chosen_rank && (3 <=? streak')
      then ("Combo x3", 150) :: (if combo' =? 1 then [("Combo Master", 150)] else [])
      else [])
  ++ (if 200 <? time_bonus then [("Speed Bonus", time_bonus)] else [])
  ++ (if 0 <? streak' then [("Streak", streak' * 25)] else []).

(** The session once the player's move is recorded, before the simulated
    opponent moves. *)
Definition record_player_move (c : string) (move_record : MoveRecord) (gs : GameState)
  : GameState :=
  let gs := set_moves_evaluated (moves_evaluated gs ++ [move_record]) gs in
  let gs := set_score (score gs + mv_score move_record) gs in
  if bool_decide (mv_action move_record = "ban")
  then set_player_bans (player_bans gs ++ [c]) gs
  else set_player_picks (player_picks gs ++ [c]) gs.

(** ** Sample corpora and sessions *)

(** A pick of [champion] by the team [team_id]. *)
Definition pick_of (team_id champion : string) : DraftAction :=
  {| act_champion := champion; act_team_id := team_id; act_sequence := 0; act_type := "pick" |}.

(** A match between the teams "T1" and "T2" with the given rosters, won by
    "T1" when [t1_wins] and by "T2" otherwise. *)
Definition sample_match (id : string) (roster1 roster2 : list string) (t1_wins : bool)
  : Match :=
  let actions := map (pick_of "T1") roster1 ++ map (pick_of "T2") roster2 in
  {| metadata := {| match_id := id; md_tournament := "LCK Spring 2024";
                    team1_id := "T1"; team1_name := "Team One"; team2_name := "Team Two" |};
     draft := {| bans := []; picks := actions; sequence := actions |};
     team_stats := [ {| ts_team_id := "T1"; win := t1_wins |};
                     {| ts_team_id := "T2"; win := negb t1_wins |} ] |}.

(** Three matches in which "A" and "B" play together and beat "C" and "D". *)
Definition corpus_ab : list Match :=
  [ sample_match "m1" ["A"; "B"] ["C"; "D"] true;
    sample_match "m2" ["A"; "B"] ["C"; "D"] true;
    sample_match "m3" ["A"; "B"] ["C"; "D"] true ].

Definition graph_ab : ChampionGraph := build_from_matches ChampionGraph_init corpus_ab.

(** The names "C00", "C01", ... *)
Definition champion_names (first count : nat) : list string :=
  map (λ i, "C" +:+ zero_pad 2 (Z.of_nat i)) (seq first count).

(** Six matches with sixty champions, five a side; "T1" wins the matches of
    even number. *)
Definition league : list Match :=
  map (λ i, sample_match ("m" +:+ str_of_Z (Z.of_nat i))
              (champion_names (10 * i) 5) (champion_names (10 * i + 5) 5) (Nat.even i))
      (seq 0 6).

Definition league_assistant : DraftingAssistant :=
  {| da_matches := league;
     graph := build_from_matches ChampionGraph_init league;
     all_champions := champion_names 0 60 |}.

Definition league_engine : DraftMasterGame := DraftMasterGame_init league league_assistant.

(** A session of [league_engine] as [start_new_game] creates it. *)
Definition league_session (difficulty : string) : GameState :=
  new_game_state "game_0" "player" difficulty
    (sample_match "m0" (champion_names 0 5) (champion_names 5 5) true) 0.

(** Twenty moves of a player who always takes the first champion still on
    offer, in thirty seconds each. *)
Definition twenty_moves : list (string * Q * nat * Z) :=
  map (λ c, (c, 30%Q, 0%nat, 0))
    ["C00"; "C02"; "C04"; "C05"; "C06"; "C07"; "C08"; "C09"; "C10"; "C11";
     "C12"; "C13"; "C14"; "C25"; "C26"; "C27"; "C28"; "C29"; "C30"; "C31"].

(** The session that [twenty_moves] lead to at difficulty "hard". *)
Definition session_after_twenty : GameState :=
  default (league_session "hard")
    (play league_engine twenty_moves (league_session "hard")).

(** A recommendation list with the single entry "X". *)
Definition only_x : list DraftRecommendation :=
  [ {| rec_champion := "X"; win_rate_impact := 0; rec_reasoning := ["Solid option"];
       rec_synergies := []; rec_counters := []; priority := "low"; confidence := 1 |} ].

(** One hundred and twenty-five matches of "A" against "B", of which "A"
    wins the first ninety-four. *)
Definition corpus_92 : list Match :=
  map (λ i, sample_match ("g" +:+ str_of_Z (Z.of_nat i)) ["A"] ["B"] (i <? 94)%nat)
      (seq 0 125).

Definition engine_92 : DraftMasterGame :=
  DraftMasterGame_init corpus_92
    {| da_matches := corpus_92;
       graph := build_from_matches ChampionGraph_init corpus_92;
       all_champions := ["A"; "B"] |}.

(** A session of [engine_92] at the point where [make_move] calls
    [_complete_game]: "A" against "B", one graded move of 100 points. *)
Definition session_92 : GameState :=
  let move_record :=
    {| mv_phase := 19; mv_action := "pick"; mv_champion := "A"; mv_score := 100;
       mv_reasoning := "Optimal pick! Solid option"; mv_time_taken := 30;
       mv_extras := {| bonuses := []; ex_streak := 0; ex_combo := 0;
                       ex_base := 100; ex_time_bonus := 0 |} |} in
  set_current_phase 20
    (set_score 100
       (set_moves_evaluated [move_record]
          (set_ai_picks ["B"]
             (set_player_picks ["A"]
                (new_game_state "game_0" "player" "hard"
                   (sample_match "g0" ["A"] ["B"] true) 0))))).

(** A draft in which side 1 has picked "A", and nothing else has happened. *)
Definition draft_a_picked : DraftState :=
  {| team1_picks := ["A"]; team1_bans := []; team2_picks := []; team2_bans := [];
     ds_current_phase := "pick1"; turn := 1 |}.

(** ** Ingestion ([GridDataParser] of [src/core/data_ingestion.py])

    The parser reads decoded JSON.  A JSON object is a record here, with one
    optional field for each key that the parser reads: [None] stands for an
    absent key, and a present value has the type that the parser expects of
    it (a string, an integer, a boolean, an object, a list of objects). *)

(** [action['draftable']] and [action['drafter']]. *)
Record RawDraftable := { draftable_name : option string }.
Record RawDrafter := { drafter_id : option string }.

(** One element of [game['draftActions']]. *)
Record RawDraftAction := {
  ra_draftable : option RawDraftable;
  ra_drafter : option RawDrafter;
  ra_type : option string;
  ra_sequenceNumber : option Z
}.

(** An identifier as JSON carries it: a string or a number. *)
Inductive RawId :=
  | IdStr (s : string)
  | IdNum (n : Z).

(** [str(i)]. *)
Definition str_of_id (i : RawId) : string :=
  match i with
  | IdStr s => s
  | IdNum n => str_of_Z n
  end.

(** [team_data['stats']]. *)
Record RawObjectives := {
  ro_baronKills : option Z;
  ro_dragonKills : option Z;
  ro_heraldKills : option Z;
  ro_towerKills : option Z;
  ro_inhibitorKills : option Z
}.

(** One element of [game['teams']]. *)
Record RawTeam := {
  rt_id : option RawId;
  rt_name : option string;
  rt_win : option bool;
  rt_stats : option RawObjectives;
  rt_baronKills : option Z;
  rt_dragonKills : option Z;
  rt_riftHeraldKills : option Z;
  rt_turretKills : option Z;
  rt_inhibitorKills : option Z
}.

(** [game['clock']]. *)
Record RawClock := { currentSeconds : option Z }.

(** A game of [seriesState['games']]. *)
Record RawGame := {
  rg_id : option string;
  rg_teams : option (list RawTeam);
  rg_draftActions : option (list RawDraftAction);
  rg_clock : option RawClock
}.

(** The entry that [_extract_draft] makes of one action. *)
Definition draft_entry (action : RawDraftAction) : DraftAction :=
  let champion_name :=
    default "" (draftable_name (default {| draftable_name := None |} (ra_draftable action))) in
  let team_id :=
    default "" (drafter_id (default {| drafter_id := None |} (ra_drafter action))) in
  let action_type := default "" (ra_type action) in
  let seq_num := default 0 (ra_sequenceNumber action) in
  {| act_champion := champion_name; act_team_id := team_id;
     act_sequence := seq_num; act_type := action_type |}.

(** [GridDataParser._extract_draft(game)]: the loop appends every entry to
    [sequence], and to [bans] or to [picks] by its type. *)
Definition _extract_draft (game : RawGame) : DraftData :=
  let draft_actions := default [] (rg_draftActions game) in
  fold_left
    (λ d action,
       let entry := draft_entry action in
       let sequence := sequence d ++ [entry] in
       if bool_decide (act_type entry = "ban")
       then {| bans := bans d ++ [entry]; picks := picks d; sequence := sequence |}
       else if bool_decide (act_type entry = "pick")
       then {| bans := bans d; picks := picks d ++ [entry]; sequence := sequence |}
       else {| bans := bans d; picks := picks d; sequence := sequence |})
    draft_actions
    {| bans := []; picks := []; sequence := [] |}.

(** The fields of [MatchMetadata] that [_extract_metadata] sets. *)
Record ParsedMetadata := {
  pm_match_id : string;
  pm_team1_id : string;
  pm_team1_name : string;
  pm_team2_id : string;
  pm_team2_name : string;
  winner_team_id : option string;
  duration_seconds : Z
}.

(** [GridDataParser._extract_metadata(match_data, game)]; nothing is read
    from [match_data]. *)
Definition _extract_metadata (game : RawGame) : ParsedMetadata :=
  let teams := default [] (rg_teams game) in
  let '(team1_id, team1_name, team2_id, team2_name, winner_id) :=
    match teams with
    | team1 :: team2 :: _ =>
      let team1_id := str_of_id (default (IdStr "") (rt_id team1)) in
      let team1_name := default "Team 1" (rt_name team1) in
      let team2_id := str_of_id (default (IdStr "") (rt_id team2)) in
      let team2_name := default "Team 2" (rt_name team2) in
      let winner_id :=
        match rt_win team1 with
        | Some _ =>
          if default false (rt_win team1) then Some team1_id
          else if default false (rt_win team2) then Some team2_id
          else None
        | None => None
        end in
      (team1_id, team1_name, team2_id, team2_name, winner_id)
    | _ => ("", "", "", "", None)
    end in
  let clock := default {| currentSeconds := None |} (rg_clock game) in
  let duration := default 0 (currentSeconds clock) in
  {| pm_match_id := default "unknown" (rg_id game);
     pm_team1_id := team1_id; pm_team1_name := team1_name;
     pm_team2_id := team2_id; pm_team2_name := team2_name;
     winner_team_id := winner_id;
     duration_seconds := duration |}.

(** The fields of [TeamStats] that [_extract_team_stats] sets. *)
Record ParsedTeamStats := {
  pt_team_id : string;
  pt_team_name : string;
  baron_kills : Z;
  dragon_kills : Z;
  herald_kills : Z;
  tower_kills : Z;
  inhibitor_kills : Z;
  pt_win : bool
}.

(** [GridDataParser._extract_team_stats(game, metadata)]. *)
Definition _extract_team_stats (game : RawGame) (metadata : ParsedMetadata)
  : list ParsedTeamStats :=
  let teams := default [] (rg_teams game) in
  map (λ team_data,
         let team_id := str_of_id (default (IdStr "") (rt_id team_data)) in
         let team_stats :=
           default {| ro_baronKills := None; ro_dragonKills := None; ro_heraldKills := None;
                      ro_towerKills := None; ro_inhibitorKills := None |}
                   (rt_stats team_data) in
         {| pt_team_id := team_id;
            pt_team_name := default "" (rt_name team_data);
            baron_kills :=
              default (default 0 (rt_baronKills team_data)) (ro_baronKills team_stats);
            dragon_kills :=
              default (default 0 (rt_dragonKills team_data)) (ro_dragonKills team_stats);
            herald_kills :=
              default (default 0 (rt_riftHeraldKills team_data)) (ro_heraldKills team_stats);
            tower_kills :=
              default (default 0 (rt_turretKills team_data)) (ro_towerKills team_stats);
            inhibitor_kills :=
              default (default 0 (rt_inhibitorKills team_data))
                      (ro_inhibitorKills team_stats);
            pt_win :=
              match winner_team_id metadata with
              | Some w => if bool_decide (w = "") then false else bool_decide (team_id = w)
              | None => false
              end |})
      teams.

(** The element of [parsed_matches] that the core reads of a parsed game:
    [parse_match] puts the three extracts side by side. *)
Definition core_match (game : RawGame) : Match :=
  let md := _extract_metadata game in
  {| metadata := {| match_id := pm_match_id md; md_tournament := "LCK Spring 2024";
                    team1_id := pm_team1_id md; team1_name := pm_team1_name md;
                    team2_name := pm_team2_name md |};
     draft := _extract_draft game;
     team_stats :=
       map (λ t, {| ts_team_id := pt_team_id t; win := pt_win t |})
           (_extract_team_stats game md) |}.

(** ** Draft analysis ([DraftingAssistant.analyze_draft]) *)

(** [sub in s] on strings. *)
Fixpoint str_contains (sub s : string) : bool :=
  String.prefix sub s
  || match s with
     | EmptyString => false
     | String _ rest => str_contains sub rest
     end.

(** The dictionary returned by [_analyze_team_comp] for a roster with
    picks. *)
Record TeamComp := {
  tc_champions : list string;
  synergy_score : Q;
  tc_counter_score : Q;
  strengths : list string;
  weaknesses : list string
}.

(** What [_analyze_team_comp] returns: [{'status': msg}] or the report
    above. *)
Inductive TeamAnalysis :=
  | TeamStatus (status : string)
  | TeamReport (report : TeamComp).

(** [_analyze_team_comp]. *)
Definition _analyze_team_comp (g : ChampionGraph) (team_picks opponent_picks : list string)
  : TeamAnalysis :=
  match team_picks with
  | [] => TeamStatus "No picks yet"
  | _ =>
    let synergy := get_team_synergy g team_picks in
    let counter_score := get_counter_score g team_picks opponent_picks in
    let '(strengths, weaknesses) :=
      if Qgtb synergy (5#100)
      then (["Strong team synergy (+" +:+ format_percent 1 synergy +:+ ")"], [])
      else if Qltb synergy (-(5#100))
      then ([], ["Poor team synergy (" +:+ format_percent 1 synergy +:+ ")"])
      else ([], []) in
    let '(strengths, weaknesses) :=
      if Qgtb counter_score (5#100)
      then (strengths ++ ["Favorable matchup (+" +:+ format_percent 1 counter_score +:+ ")"],
            weaknesses)
      else if Qltb counter_score (-(5#100))
      then (strengths,
            weaknesses ++ ["Unfavorable matchup (" +:+ format_percent 1 counter_score +:+ ")"])
      else (strengths, weaknesses) in
    TeamReport {| tc_champions := team_picks;
                  synergy_score := synergy;
                  tc_counter_score := counter_score;
                  strengths := strengths;
                  weaknesses := weaknesses |}
  end.

(** The dictionary returned by [analyze_draft]. *)
Record DraftAnalysis := {
  win_probabilities : WinProbability;
  an_recommendations : list DraftRecommendation;
  team1_analysis : TeamAnalysis;
  team2_analysis : TeamAnalysis;
  an_phase : string;
  an_turn : Z
}.

(** [DraftingAssistant.analyze_draft]. *)
Definition analyze_draft (self : DraftingAssistant) (draft_state : DraftState)
  : DraftAnalysis :=
  let win_probs := predict_win_probability (graph self) draft_state in
  let current_phase := ds_current_phase draft_state in
  let is_ban_phase := str_contains "ban" current_phase in
  let all_picked : gset string :=
    list_to_set (team1_picks draft_state ++ team2_picks draft_state) in
  let all_banned : gset string :=
    list_to_set (team1_bans draft_state ++ team2_bans draft_state) in
  let available :=
    filter (λ c, (c ∉ all_picked) ∧ (c ∉ all_banned)) (all_champions self) in
  let recommendations :=
    if is_ban_phase
    then recommend_ban (graph self) draft_state (turn draft_state) available
    else recommend_pick (graph self) draft_state (turn draft_state) available in
  let team1_analysis :=
    _analyze_team_comp (graph self) (team1_picks draft_state) (team2_picks draft_state) in
  let team2_analysis :=
    _analyze_team_comp (graph self) (team2_picks draft_state) (team1_picks draft_state) in
  {| win_probabilities := win_probs;
     an_recommendations := recommendations;
     team1_analysis := team1_analysis;
     team2_analysis := team2_analysis;
     an_phase := current_phase;
     an_turn := turn draft_state |}.

(** ** The facade ([src/execution/nexus_commander.py])

    The two methods of [NexusCommander] that build a [DraftState] for the
    predictor; [self.drafting_assistant] is the argument [assistant]. *)

(** [NexusCommander.predict_draft_winner]. *)
Definition predict_draft_winner (assistant : DraftingAssistant)
    (team1_picks team2_picks : list string) : WinProbability :=
  let draft_state :=
    {| team1_picks := team1_picks; team1_bans := [];
       team2_picks := team2_picks; team2_bans := [];
       ds_current_phase := "complete"; turn := 1 |} in
  predict_win_probability (graph assistant) draft_state.

(** [NexusCommander.get_pick_recommendations]. *)
Definition get_pick_recommendations (assistant : DraftingAssistant)
    (current_picks current_bans opponent_picks : list string) : list DraftRecommendation :=
  let draft_state :=
    {| team1_picks := current_picks; team1_bans := current_bans;
       team2_picks := opponent_picks; team2_bans := [];
       ds_current_phase := "pick"; turn := 1 |} in
  let available :=
    filter (λ c, c ∉ current_picks ++ opponent_picks ++ current_bans)
           (all_champions assistant) in
  recommend_pick (graph assistant) draft_state 1 available.

(** ** The leaderboard ([DraftMasterGame.get_leaderboard]) *)

(** [l.sort(key=key, reverse=True)] on integer keys: a stable sort, largest
    key first. *)
Fixpoint insert_by_key {A} (key : A → Z) (x : A) (l : list A) : list A :=
  match l with
  | [] => [x]
  | y :: ys => if key y <=? key x then x :: y :: ys else y :: insert_by_key key x ys
  end.

Definition sort_by_key {A} (key : A → Z) (l : list A) : list A :=
  fold_right (insert_by_key key) [] l.

(** The slice [l[:limit]]: the first [limit] elements, and for a negative
    [limit] all but the last [-limit]. *)
Definition slice_to {A} (limit : Z) (l : list A) : list A :=
  if 0 <=? limit then take (Z.to_nat limit) l
  else take (length l - Z.to_nat (- limit)) l.

(** One row of the leaderboard.  [lb_completed_at] is the clock reading
    that [completed_at.isoformat()] renders; the call needs a reading, which
    [None] does not have. *)
Record LeaderboardEntry := {
  lb_rank : Z;
  lb_player_name : string;
  lb_score : Z;
  lb_rating : string;
  lb_difficulty : string;
  lb_win_probability : Q;
  lb_completed_at : option Z
}.

(** The row appended for [game] when [leaderboard] holds [n] rows. *)
Definition leaderboard_row (n : Z) (game : GameState) : LeaderboardEntry :=
  let final_score := calculate_final_score game in
  {| lb_rank := n + 1;
     lb_player_name := player_name game;
     lb_score := total_score final_score;
     lb_rating := rating final_score;
     lb_difficulty := difficulty game;
     lb_win_probability := final_win_probability game;
     lb_completed_at := completed_at game |}.

(** The loop that fills [leaderboard], [n] rows being filled already. *)
Fixpoint leaderboard_rows (n : Z) (games : list GameState) : list LeaderboardEntry :=
  match games with
  | [] => []
  | game :: rest => leaderboard_row n game :: leaderboard_rows (n + 1) rest
  end.

(** [get_leaderboard(limit)]; [values] is [self.active_games.values()], the
    sessions in the order in which the dictionary yields them. *)
Definition get_leaderboard (values : list GameState) (limit : Z) : list LeaderboardEntry :=
  let completed_games := filter (λ g, completed_at g ≠ None) values in
  let completed_games :=
    sort_by_key (λ g, total_score (calculate_final_score g)) completed_games in
  leaderboard_rows 0 (slice_to limit completed_games).

(** ** Closed forms for the statements *)

(** The float that the literal [9.9] denotes, the binary64 number nearest
    to 9.9: [0x1.3cccccccccccdp+3]. *)
Definition float_9_9 : Q := 5573204538870989 # 562949953421312.

(** The largest time taken, about [-1.7977e307], at which the product of
    the time bonus is an infinity. *)
Definition overflow_time : Q := (30 - inject_Z 14411518807585587 * pow2 967)%Q.

(** The priorities in the order of their urgency. *)
Definition priority_level (priority : string) : Z :=
  if bool_decide (priority = "critical") then 3
  else if bool_decide (priority = "high") then 2
  else if bool_decide (priority = "medium") then 1
  else 0.

(** Ordering of two recommendations by urgency: [a] may stand before [b]. *)
Definition priority_ge (a b : DraftRecommendation) : Prop :=
  priority_level (priority b) ≤ priority_level (priority a).

(** The champions that a session has used up: the picks and bans of both
    sides. *)
Definition drafted (gs : GameState) : list string :=
  player_picks gs ++ player_bans gs ++ ai_picks gs ++ ai_bans gs.

(** The number of ban phases among the phases [0 .. phase - 1]. *)
Definition bans_before (phase : Z) : Z :=
  Z.of_nat (length (filter (λ i, action_type_of i = "ban") (range 0 phase))).

(** The keys that [check_achievements] can unlock. *)
Definition unlockable : list string := ["flawless"; "speedster"; "draft_god"].

(** ** A sample game of the feed *)

Definition raw_action (type team champion : string) (n : Z) : RawDraftAction :=
  {| ra_draftable := Some {| draftable_name := Some champion |};
     ra_drafter := Some {| drafter_id := Some team |};
     ra_type := Some type;
     ra_sequenceNumber := Some n |}.

Definition raw_team (id : string) (won : bool) : RawTeam :=
  {| rt_id := Some (IdStr id); rt_name := None; rt_win := Some won; rt_stats := None;
     rt_baronKills := None; rt_dragonKills := None; rt_riftHeraldKills := None;
     rt_turretKills := None; rt_inhibitorKills := None |}.

(** "T1" bans "X", picks "A" and beats "T2", which picks "B". *)
Definition sample_game : RawGame :=
  {| rg_id := Some "g1";
     rg_teams := Some [raw_team "T1" true; raw_team "T2" false];
     rg_draftActions :=
       Some [raw_action "ban" "T1" "X" 1; raw_action "pick" "T1" "A" 2;
             raw_action "pick" "T2" "B" 3];
     rg_clock := None |}.

Definition sample_assistant : DraftingAssistant :=
  {| da_matches := map core_match [sample_game];
     graph := build_from_matches ChampionGraph_init (map core_match [sample_game]);
     all_champions := ["X"; "A"; "B"] |}.

(** ** Invariants used in the proofs *)

(** A table of wins [w] against the table of games [g] it belongs to: no
    entry of [g] is below 1, and no key has more wins than games. *)
Definition counts_wins `{Countable K} (w g : gmap K Z) : Prop :=
  (∀ k n, g !! k = Some n → 1 ≤ n) ∧ (∀ k, 0 ≤ dget w k ≤ dget g k).

(** The three pairs of tables that the tally fills. *)
Definition tallies_counted (t : Tallies) : Prop :=
  counts_wins (champion_wins t) (champion_games t)
  ∧ counts_wins (teammate_wins t) (teammate_pairs t)
  ∧ counts_wins (matchup_wins t) (matchup_counts t).

(** The three conditions that [check_achievements] tests. *)
Definition unlock_conditions : list (string * (GameState → bool)) :=
  [ ("flawless", λ gs, 10 <=? perfect_moves gs);
    ("speedster",
     λ gs, Qltb (avg_time gs) 15 && (10 <=? Z.of_nat (length (moves_evaluated gs))));
    ("draft_god", λ gs, Qgeb (final_win_probability gs) (9#10)) ].

(** A condition that does not read the achievements of the session. *)
Definition reads_no_achievements (cond : GameState → bool) : Prop :=
  ∀ l gs, cond (set_achievements l gs) = cond gs.

(** [key] is unlocked in [gs] if its condition holds there. *)
Definition settled (key : string) (cond : GameState → bool) (gs : GameState) : Prop :=
  cond gs = true → key ∈ achievements gs.

(** Nothing is drafted twice, and only champions of the pool are drafted. *)
Definition draft_ok (self : DraftMasterGame) (gs : GameState) : Prop :=
  NoDup (drafted gs) ∧ drafted gs ⊆ all_champions (assistant self).

(** The sizes of the four lists of a session at phase index [current_phase]. *)
Definition sizes_ok (gs : GameState) : Prop :=
  0 ≤ current_phase gs
  ∧ Z.of_nat (length (player_bans gs)) = bans_before (current_phase gs)
  ∧ Z.of_nat (length (ai_bans gs)) = bans_before (current_phase gs)
  ∧ Z.of_nat (length (player_picks gs)) = current_phase gs - bans_before (current_phase gs)
  ∧ Z.of_nat (length (ai_picks gs)) = current_phase gs - bans_before (current_phase gs).

(** The counters of a session, against its records. *)
Definition counters_ok (gs : GameState) : Prop :=
  0 ≤ streak_count gs ≤ perfect_moves gs
  ∧ 0 ≤ combo_count gs ≤ perfect_moves gs
  ∧ perfect_moves gs
    = Z.of_nat (length (filter (λ mv, ex_base (mv_extras mv) = 100) (moves_evaluated gs)))
  ∧ (difficulty gs = "pro" → perfect_moves gs = 0).

(** The achievements of a session at phase index [current_phase]. *)
Definition achievements_ok (gs : GameState) : Prop :=
  NoDup (achievements gs) ∧ achievements gs ⊆ unlockable
  ∧ (current_phase gs < 20 → achievements gs = []).

(** * Properties *)

(** ** Lists, strings and rationals *)

Lemma elem_of_take_1 {A} (x : A) n l : x ∈ take n l → x ∈ l.
Proof. intros (i & Hi & _)%elem_of_take. by eapply list_elem_of_lookup_2. Qed.

Lemma lookup_take_not_elem {A} (l : list A) n x :
  NoDup l → l !! n = Some x → x ∉ take n l.
Proof.
  intros Hnd Hx (i & Hi & Hlt)%elem_of_take.
  pose proof (NoDup_lookup _ _ _ _ Hnd Hi Hx). lia.
Qed.

Lemma NoDup_snoc {A} (l : list A) x : NoDup l → x ∉ l → NoDup (l ++ [x]).
Proof.
  intros Hl Hx. apply NoDup_app. split_and!; [done| |apply NoDup_singleton].
  intros y Hy ->%list_elem_of_singleton. done.
Qed.

Lemma filter_Forall {A} (P : A → Prop) `{!∀ x, Decision (P x)} (l : list A) :
  Forall P l → filter P l = l.
Proof.
  induction 1 as [|x l Hx _ IH]; [done|].
  rewrite filter_cons, decide_True by done. by rewrite IH.
Qed.

Lemma StronglySorted_take {A} (R : relation A) n l :
  StronglySorted R l → StronglySorted R (take n l).
Proof.
  intros Hs. revert n. induction Hs as [|x l Hs IH Hx]; intros [|n]; simpl;
    try constructor; [apply IH|].
  eapply Forall_forall. intros y Hy.
  eapply Forall_forall in Hx; [exact Hx|].
  apply elem_of_take in Hy as (i & Hi & _). by eapply list_elem_of_lookup_2.
Qed.

Lemma ltb_asym s1 s2 : String.ltb s1 s2 = true → String.ltb s2 s1 = false.
Proof.
  unfold String.ltb. rewrite (String.compare_antisym s1 s2).
  by destruct (String.compare s2 s1).
Qed.

Lemma ltb_false_eq s1 s2 :
  String.ltb s1 s2 = false → String.ltb s2 s1 = false → s1 = s2.
Proof.
  unfold String.ltb. rewrite (String.compare_antisym s1 s2).
  destruct (String.compare s2 s1) eqn:E; try done.
  intros _ _. symmetry. by apply String.compare_eq_iff.
Qed.

Lemma Qgtb_true a b : Qgtb a b = true ↔ (b < a)%Q.
Proof.
  unfold Qgtb. rewrite negb_true_iff, <- not_true_iff_false, Qle_bool_iff.
  split; [apply Qnot_le_lt|apply Qlt_not_le].
Qed.

Lemma Qgeb_true a b : Qgeb a b = true ↔ (b <= a)%Q.
Proof. unfold Qgeb. apply Qle_bool_iff. Qed.

(** ** Binary floating point *)

Lemma pow2_pos e : (0 < pow2 e)%Q.
Proof. by apply Qpower_0_lt. Qed.

Lemma pow2_add a b : (pow2 (a + b) == pow2 a * pow2 b)%Q.
Proof. by apply Qpower_plus. Qed.

Lemma pow2_le a b : a ≤ b → (pow2 a <= pow2 b)%Q.
Proof. intros. by apply Qpower_le_compat_l. Qed.

Lemma pow2_lt a b : a < b → (pow2 a < pow2 b)%Q.
Proof. intros. by apply Qpower_lt_compat_l. Qed.

Lemma pow2_lt_inv a b : (pow2 a < pow2 b)%Q → a < b.
Proof. intros. by eapply Qpower_lt_compat_l_inv. Qed.

Lemma pow2_Z e : 0 ≤ e → (pow2 e == inject_Z (2 ^ e))%Q.
Proof. intros. unfold pow2. by rewrite Zpower_Qpower. Qed.

Lemma binade_bounds (x : Q) :
  ¬ (x == 0)%Q →
  let k := Z.log2 (Z.abs (Qnum x)) - Z.log2 (Z.pos (Qden x)) in
  (pow2 (k - 1) <= Qabs x)%Q ∧ (Qabs x < pow2 (k + 1))%Q.
Proof.
  destruct x as [n d]. intros Hx. cbn [Qnum Qden Qabs].
  assert (0 < Z.abs n) as HN.
  { destruct (Z.eq_dec n 0) as [->|]; [|lia]. exfalso. apply Hx. reflexivity. }
  set (N := Z.abs n) in *. set (a := Z.log2 N). set (c := Z.log2 (Z.pos d)).
  destruct (Z.log2_spec N HN) as [Ha1 Ha2]. fold a in Ha1, Ha2.
  destruct (Z.log2_spec (Z.pos d) ltac:(lia)) as [Hc1 Hc2]. fold c in Hc1, Hc2.
  assert (0 ≤ a) as Ha0 by apply Z.log2_nonneg.
  assert (0 ≤ c) as Hc0 by apply Z.log2_nonneg.
  rewrite (Qmake_Qdiv N d).
  assert (0 < inject_Z (Z.pos d))%Q as Hd by (rewrite <- (Zlt_Qlt 0); lia).
  rewrite (Zle_Qle (2 ^ a)), <- pow2_Z in Ha1 by done.
  rewrite (Zlt_Qlt N), <- pow2_Z in Ha2 by lia.
  rewrite (Zle_Qle (2 ^ c)), <- pow2_Z in Hc1 by done.
  rewrite (Zlt_Qlt (Z.pos d)), <- pow2_Z in Hc2 by lia.
  split.
  - apply Qle_shift_div_l; [done|].
    apply Qle_trans with (pow2 (a - c - 1) * pow2 (Z.succ c))%Q.
    + apply Qmult_le_l; [apply pow2_pos|]. by apply Qlt_le_weak.
    + rewrite <- pow2_add. by replace (a - c - 1 + Z.succ c) with a by lia.
  - apply Qlt_shift_div_r; [done|].
    apply Qlt_le_trans with (pow2 (a - c + 1) * pow2 c)%Q.
    + rewrite <- pow2_add. by replace (a - c + 1 + c) with (Z.succ a) by lia.
    + apply Qmult_le_l; [apply pow2_pos|done].
Qed.

Lemma binade_spec (x : Q) :
  ¬ (x == 0)%Q → (pow2 (binade x) <= Qabs x)%Q ∧ (Qabs x < pow2 (binade x + 1))%Q.
Proof.
  intros Hx. destruct (binade_bounds x Hx) as [Hlo Hhi]. unfold binade.
  set (k := Z.log2 _ - Z.log2 _) in *.
  destruct (Qle_bool (pow2 k) (Qabs x)) eqn:E.
  - apply Qle_bool_iff in E. by split.
  - split; [done|]. replace (k - 1 + 1) with k by lia.
    apply Qnot_le_lt. intros H%Qle_bool_iff. congruence.
Qed.

Lemma binade_unique (x : Q) (b : Z) :
  (pow2 b <= Qabs x)%Q → (Qabs x < pow2 (b + 1))%Q → binade x = b.
Proof.
  intros Hlo Hhi.
  assert (¬ (x == 0)%Q) as Hx.
  { intros H. assert (Qabs x == Qabs 0)%Q as H0 by (by rewrite H).
    change (Qabs 0) with 0%Q in H0. pose proof (pow2_pos b). lra. }
  destruct (binade_spec x Hx) as [Hlo' Hhi'].
  assert (b < binade x + 1) by (apply pow2_lt_inv; lra).
  assert (binade x < b + 1) by (apply pow2_lt_inv; lra).
  lia.
Qed.

(** *** Rounding to the nearest integer *)

Lemma round_half_even_cases (y : Q) :
  let f := Qfloor y in
  (inject_Z f <= y)%Q ∧ (y < inject_Z f + 1)%Q
  ∧ ((y - inject_Z f < 1 # 2)%Q ∧ round_half_even y = f
     ∨ (1 # 2 < y - inject_Z f)%Q ∧ round_half_even y = f + 1
     ∨ (y - inject_Z f == 1 # 2)%Q
       ∧ round_half_even y = if Z.even f then f else f + 1).
Proof.
  intros f. split; [apply Qfloor_le|]. split.
  { pose proof (Qlt_floor y) as H. by rewrite inject_Z_plus in H. }
  subst f. destruct y as [n d]. unfold round_half_even, Qfloor, Qlt, Qeq. cbn.
  pose proof (Z.div_mod n (Z.pos d) ltac:(lia)) as Hdm.
  pose proof (Z.mod_pos_bound n (Z.pos d) ltac:(lia)) as Hr.
  set (q := n / Z.pos d) in *. set (r := n mod Z.pos d) in *.
  rewrite Pos.mul_1_r.
  destruct (Z.ltb_spec (2 * r) (Z.pos d)); [left; split; [nia|done]|].
  destruct (Z.ltb_spec (Z.pos d) (2 * r)); [right; left; split; [nia|done]|].
  right. right. split; [nia|done].
Qed.

Lemma inject_Z_le_iff (a b : Z) : (inject_Z a <= inject_Z b)%Q ↔ a ≤ b.
Proof. by rewrite <- Zle_Qle. Qed.

Lemma inject_Z_lt_iff (a b : Z) : (inject_Z a < inject_Z b)%Q ↔ a < b.
Proof. by rewrite <- Zlt_Qlt. Qed.

Lemma inject_Z_nonneg (a : Z) : 0 ≤ a → (0 <= inject_Z a)%Q.
Proof. intros. by apply (inject_Z_le_iff 0). Qed.

Lemma inject_Z_pos (a : Z) : 0 < a → (0 < inject_Z a)%Q.
Proof. intros. by apply (inject_Z_lt_iff 0). Qed.

Ltac to_Q :=
  first [apply inject_Z_lt_iff | apply inject_Z_le_iff];
  unfold Z.sub, Z.succ; rewrite ?inject_Z_plus, ?inject_Z_opp in *;
  change (inject_Z 1) with 1%Q in *.

Ltac rhe_cases y :=
  let f := fresh "f" in
  let Hf1 := fresh "Hf1" in
  let Hf2 := fresh "Hf2" in
  let H := fresh "H" in
  destruct (round_half_even_cases y) as (Hf1 & Hf2 & H);
  set (f := Qfloor y) in *;
  destruct H as [[H ->]|[[H ->]|[H ->]]].

Lemma round_half_even_le (y : Q) (n : Z) : (y <= inject_Z n)%Q → round_half_even y ≤ n.
Proof.
  intros Hy. rhe_cases y.
  - to_Q. lra.
  - assert (f < n) by (to_Q; lra). lia.
  - assert (f < n) by (to_Q; lra). destruct (Z.even f); lia.
Qed.

Lemma round_half_even_ge (y : Q) (n : Z) : (inject_Z n <= y)%Q → n ≤ round_half_even y.
Proof.
  intros Hy.
  assert (n < Qfloor y + 1) by (pose proof (Qlt_floor y) as H; to_Q; lra).
  rhe_cases y; [lia|lia|destruct (Z.even f); lia].
Qed.

(** Below the midpoint under [n] the rounding stays under [n]; from the
    midpoint on it reaches [n], the midpoint itself when [n] is even. *)
Lemma round_half_even_lt_half (y : Q) (n : Z) :
  (y < inject_Z n - (1 # 2))%Q → round_half_even y ≤ n - 1.
Proof.
  intros Hy.
  assert (Qfloor y < n) as Hfn by (pose proof (Qfloor_le y); to_Q; lra).
  rhe_cases y.
  - lia.
  - assert (f + 1 < n); [|lia]. to_Q. lra.
  - assert (f + 1 < n) by (to_Q; lra). destruct (Z.even f); lia.
Qed.

Lemma round_half_even_ge_half (y : Q) (n : Z) :
  (inject_Z n - (1 # 2) <= y)%Q → Z.even n = true → n ≤ round_half_even y.
Proof.
  intros Hy Hn.
  assert (n - 1 < Qfloor y + 1) as Hfn.
  { pose proof (Qlt_floor y) as H. to_Q. lra. }
  rhe_cases y.
  - assert (n - 1 < f); [|lia]. to_Q. lra.
  - lia.
  - destruct (Z.even f) eqn:E; [|lia].
    assert (n - 1 < f ∨ n - 1 = f) as [|Heq] by lia; [lia|].
    subst f. rewrite <- Heq in E. rewrite Z.even_sub, Hn in E. discriminate.
Qed.

(** *** Rounding to binary64 *)

Lemma ulp_pos x : (0 < ulp x)%Q.
Proof. apply pow2_pos. Qed.

Lemma nearest_le_grid (x : Q) (M : Z) :
  (x <= inject_Z M * ulp x)%Q → (nearest x <= inject_Z M * ulp x)%Q.
Proof.
  intros Hx. unfold nearest. apply Qmult_le_compat_r; [|apply Qlt_le_weak, ulp_pos].
  rewrite <- Zle_Qle. apply round_half_even_le.
  apply Qle_shift_div_r; [apply ulp_pos|done].
Qed.

Lemma nearest_ge_grid (x : Q) (M : Z) :
  (inject_Z M * ulp x <= x)%Q → (inject_Z M * ulp x <= nearest x)%Q.
Proof.
  intros Hx. unfold nearest. apply Qmult_le_compat_r; [|apply Qlt_le_weak, ulp_pos].
  rewrite <- Zle_Qle. apply round_half_even_ge.
  apply Qle_shift_div_l; [apply ulp_pos|done].
Qed.

(** A multiple of [2^E] is a multiple of the unit in the last place of [x]
    when that unit is at most [2^E]. *)
Lemma ulp_divides (x : Q) (M E : Z) :
  -1074 ≤ E → binade x - 52 ≤ E →
  ∃ M', (inject_Z M * pow2 E == inject_Z M' * ulp x)%Q.
Proof.
  intros HE Hb. unfold ulp. set (e := Z.max (binade x - 52) (-1074)).
  exists (M * 2 ^ (E - e)).
  replace E with (E - e + e) at 1 by lia.
  rewrite pow2_add, pow2_Z, inject_Z_mult by lia. ring.
Qed.

Lemma binade_le (x : Q) (b : Z) :
  ¬ (x == 0)%Q → (Qabs x < pow2 (b + 1))%Q → binade x ≤ b.
Proof.
  intros Hx Hb. destruct (binade_spec x Hx) as [Hlo _].
  assert (binade x < b + 1) by (apply pow2_lt_inv; lra). lia.
Qed.

Lemma nearest_sign_nonneg (x : Q) : (0 <= x)%Q → (0 <= nearest x)%Q.
Proof.
  intros Hx. pose proof (nearest_ge_grid x 0) as H.
  assert (inject_Z 0 * ulp x == 0)%Q as E by ring. rewrite E in H. auto.
Qed.

Lemma nearest_sign_nonpos (x : Q) : (x <= 0)%Q → (nearest x <= 0)%Q.
Proof.
  intros Hx. pose proof (nearest_le_grid x 0) as H.
  assert (inject_Z 0 * ulp x == 0)%Q as E by ring. rewrite E in H. auto.
Qed.

(** Rounding does not cross a binary64 number [M * 2^E]. *)
Lemma nearest_le (x : Q) (M E : Z) :
  0 ≤ M < 2 ^ 53 → -1074 ≤ E →
  (x <= inject_Z M * pow2 E)%Q → (nearest x <= inject_Z M * pow2 E)%Q.
Proof.
  intros HM HE Hx.
  assert (0 <= inject_Z M * pow2 E)%Q as HG.
  { apply Qmult_le_0_compat; [apply inject_Z_nonneg; lia|apply Qlt_le_weak, pow2_pos]. }
  destruct (Qlt_le_dec 0 x) as [Hpos|Hneg].
  2:{ pose proof (nearest_sign_nonpos x Hneg). lra. }
  assert (binade x ≤ E + 52) as Hb.
  { apply binade_le; [lra|]. rewrite Qabs_pos by lra.
    apply Qle_lt_trans with (inject_Z M * pow2 E)%Q; [done|].
    replace (E + 52 + 1) with (53 + E) by lia. rewrite pow2_add, (pow2_Z 53) by lia.
    apply Qmult_lt_compat_r; [apply pow2_pos|]. rewrite <- Zlt_Qlt. lia. }
  destruct (ulp_divides x M E) as [M' HM']; [lia..|].
  rewrite HM' in *. by apply nearest_le_grid.
Qed.

Lemma nearest_ge (x : Q) (M E : Z) :
  0 < M < 2 ^ 53 → -1074 ≤ E →
  (inject_Z M * pow2 E <= x)%Q → (inject_Z M * pow2 E <= nearest x)%Q.
Proof.
  intros HM HE Hx.
  assert (0 < inject_Z M * pow2 E)%Q as HG.
  { apply Qmult_lt_0_compat; [apply inject_Z_pos; lia|apply pow2_pos]. }
  destruct (Z_le_gt_dec (binade x - 52) E) as [Hb|Hb].
  - destruct (ulp_divides x M E) as [M' HM']; [lia..|].
    rewrite HM' in *. by apply nearest_ge_grid.
  - assert (¬ (x == 0)%Q) as Hx0 by lra.
    destruct (binade_spec x Hx0) as [Hlo _]. rewrite Qabs_pos in Hlo by lra.
    apply Qle_trans with (pow2 (binade x)).
    + apply Qlt_le_weak.
      apply Qlt_le_trans with (pow2 (53 + E)); [|apply pow2_le; lia].
      rewrite pow2_add, (pow2_Z 53) by lia.
      apply Qmult_lt_compat_r; [apply pow2_pos|]. rewrite <- Zlt_Qlt. lia.
    + destruct (ulp_divides x 1 (binade x)) as [M' HM']; [lia..|].
      assert (pow2 (binade x) == inject_Z M' * ulp x)%Q as Heq by (rewrite <- HM'; ring).
      rewrite Heq in *. by apply nearest_ge_grid.
Qed.

(** Inside the binade [b] of the normal range the unit is [2^(b-52)]. *)
Lemma nearest_binade (x : Q) (b : Z) :
  -1022 ≤ b → (pow2 b <= x)%Q → (x < pow2 (b + 1))%Q →
  nearest x = (inject_Z (round_half_even (x / pow2 (b - 52))) * pow2 (b - 52))%Q.
Proof.
  intros Hb Hlo Hhi. pose proof (pow2_pos b).
  unfold nearest, ulp. rewrite (binade_unique x b) by (rewrite Qabs_pos; lra).
  by rewrite Z.max_l by lia.
Qed.

Lemma round64_Finite (x r : Q) :
  round64 x = Finite r → (r == nearest x)%Q ∧ (Qabs (nearest x) < pow2 1024)%Q.
Proof.
  unfold round64. destruct (Qeq_bool x 0) eqn:E0.
  - intros [= <-]. apply Qeq_bool_iff in E0.
    assert (nearest x == 0)%Q as Hn.
    { apply Qle_antisym; [apply nearest_sign_nonpos|apply nearest_sign_nonneg]; lra. }
    split; [by rewrite Hn|]. rewrite Hn. apply pow2_pos.
  - destruct (Qle_bool _ _) eqn:E; [discriminate|]. intros [= <-].
    split; [reflexivity|]. apply Qnot_le_lt. intros H%Qle_bool_iff. congruence.
Qed.

Lemma round64_Infinite (x : Q) (s : bool) :
  round64 x = Infinite s → (pow2 1024 <= Qabs (nearest x))%Q ∧ s = Qltb x 0.
Proof.
  unfold round64. destruct (Qeq_bool x 0); [discriminate|].
  destruct (Qle_bool _ _) eqn:E; [|discriminate]. intros [= <-].
  split; [by apply Qle_bool_iff|done].
Qed.

Lemma Qltb_true (a b : Q) : Qltb a b = true ↔ (a < b)%Q.
Proof.
  unfold Qltb. rewrite negb_true_iff. split.
  - intros H. apply Qnot_le_lt. intros H'%Qle_bool_iff. congruence.
  - intros H. destruct (Qle_bool b a) eqn:E; [|done]. apply Qle_bool_iff in E. lra.
Qed.

(** A number within the finite range rounds to a finite number. *)
Lemma round64_in_range (x : Q) :
  (Qabs (nearest x) < pow2 1024)%Q → ∃ r, round64 x = Finite r ∧ (r == nearest x)%Q.
Proof.
  intros H. destruct (round64 x) as [r|s] eqn:E.
  - exists r. split; [done|]. by apply round64_Finite in E as [? _].
  - apply round64_Infinite in E as [E _]. lra.
Qed.

(** On the sample floats [round64] yields the floats that the Standard
    Library's specification of IEEE 754 yields: the same finite numbers,
    the same infinities. *)
Lemma round64_agrees_with_IEEE :
  forallb (λ x, forallb (same_results x) float_samples) float_samples = true.
Proof. vm_compute. reflexivity. Qed.

(** Rounding around the midpoint under the binary64 number [M * 2^(b-52)]
    of the binade [b]: below the midpoint the result is at most the float
    before, from the midpoint on at least [M * 2^(b-52)] when [M] is even
    (a tie goes to the even significand). *)
Lemma nearest_below_midpoint (x : Q) (M b : Z) :
  -1022 ≤ b → 2 ^ 52 < M ≤ 2 ^ 53 →
  (x < (inject_Z M - (1 # 2)) * pow2 (b - 52))%Q →
  (nearest x <= inject_Z (M - 1) * pow2 (b - 52))%Q.
Proof.
  intros Hb HM Hx. pose proof (pow2_pos (b - 52)) as Hu.
  destruct (Qlt_le_dec (inject_Z (M - 1) * pow2 (b - 52)) x) as [Hlo|Hlo].
  2:{ apply nearest_le; [lia|lia|done]. }
  assert (pow2 b == inject_Z (2 ^ 52) * pow2 (b - 52))%Q as Eb.
  { replace b with (52 + (b - 52)) at 1 by lia. by rewrite pow2_add, (pow2_Z 52). }
  assert (pow2 (b + 1) == inject_Z (2 ^ 53) * pow2 (b - 52))%Q as Eb1.
  { replace (b + 1) with (53 + (b - 52)) at 1 by lia. by rewrite pow2_add, (pow2_Z 53). }
  assert (inject_Z (2 ^ 52) <= inject_Z (M - 1))%Q as H1 by (rewrite <- Zle_Qle; lia).
  assert (inject_Z M <= inject_Z (2 ^ 53))%Q as H2 by (rewrite <- Zle_Qle; lia).
  rewrite nearest_binade with (b := b); [|done|..].
  - apply Qmult_le_compat_r; [|lra]. rewrite <- Zle_Qle.
    apply round_half_even_lt_half. by apply Qlt_shift_div_r.
  - rewrite Eb. apply Qle_trans with (inject_Z (M - 1) * pow2 (b - 52))%Q; [|lra].
    apply Qmult_le_compat_r; [done|lra].
  - rewrite Eb1. apply Qlt_le_trans with ((inject_Z M - (1 # 2)) * pow2 (b - 52))%Q; [done|].
    apply Qmult_le_compat_r; lra.
Qed.

Lemma nearest_above_midpoint (x : Q) (M b : Z) :
  -1022 ≤ b → 2 ^ 52 < M < 2 ^ 53 → Z.even M = true →
  ((inject_Z M - (1 # 2)) * pow2 (b - 52) <= x)%Q →
  (inject_Z M * pow2 (b - 52) <= nearest x)%Q.
Proof.
  intros Hb HM Heven Hx. pose proof (pow2_pos (b - 52)) as Hu.
  destruct (Qlt_le_dec x (inject_Z M * pow2 (b - 52))) as [Hhi|Hhi].
  2:{ apply nearest_ge; [lia|lia|done]. }
  assert (pow2 b == inject_Z (2 ^ 52) * pow2 (b - 52))%Q as Eb.
  { replace b with (52 + (b - 52)) at 1 by lia. by rewrite pow2_add, (pow2_Z 52). }
  assert (pow2 (b + 1) == inject_Z (2 ^ 53) * pow2 (b - 52))%Q as Eb1.
  { replace (b + 1) with (53 + (b - 52)) at 1 by lia. by rewrite pow2_add, (pow2_Z 53). }
  assert (inject_Z (2 ^ 52) + 1 <= inject_Z M)%Q as H1.
  { change 1%Q with (inject_Z 1). rewrite <- inject_Z_plus, <- Zle_Qle. lia. }
  assert (inject_Z M <= inject_Z (2 ^ 53))%Q as H2 by (rewrite <- Zle_Qle; lia).
  rewrite nearest_binade with (b := b); [|done|..].
  - apply Qmult_le_compat_r; [|lra]. rewrite <- Zle_Qle.
    apply round_half_even_ge_half; [|done]. by apply Qle_shift_div_l.
  - rewrite Eb. apply Qle_trans with ((inject_Z M - (1 # 2)) * pow2 (b - 52))%Q; [|done].
    apply Qmult_le_compat_r; lra.
  - rewrite Eb1. apply Qlt_le_trans with (inject_Z M * pow2 (b - 52))%Q; [done|].
    apply Qmult_le_compat_r; lra.
Qed.

(** ** The graph that [build_from_matches] fills *)

(** The first component of a sorted pair is not above the second. *)
Lemma sorted_pair_ordered c1 c2 :
  String.ltb (snd (sorted_pair c1 c2)) (fst (sorted_pair c1 c2)) = false.
Proof.
  unfold sorted_pair. destruct (String.ltb c2 c1) eqn:E; simpl; [|done].
  by apply ltb_asym.
Qed.

Section Tables.
Context `{Countable K}.

(** Keys of a counting table after a run of increments. *)
Lemma incr_fold_keys (ks : list K) (m : gmap K Z) k :
is_Some (fold_left (λ m k, incr k m) ks m !! k) → is_Some (m !! k) ∨ k ∈ ks.
Proof.
revert m. induction ks as [|k' ks IH]; intros m; simpl; [auto|].
intros [Hk|Hk]%IH; [|right; by right].
unfold incr in Hk. destruct (decide (k' = k)) as [->|Hne].
- right. left.
- rewrite lookup_insert_ne in Hk by done. auto.
Qed.

End Tables.

(** A property of the keys of [teammate_pairs] is kept by the tally when
    every sorted pair has it. *)
Lemma tally_pairs_keys (P : string * string → Prop) parsed_matches k :
  (∀ c1 c2, P (sorted_pair c1 c2)) →
  is_Some (teammate_pairs (tally parsed_matches) !! k) → P k.
Proof.
  intros HP. unfold tally.
  assert (∀ ms t, (∀ k, is_Some (teammate_pairs t !! k) → P k) →
                  ∀ k, is_Some (teammate_pairs (fold_left tally_match ms t) !! k) → P k)
    as Hfold.
  { induction ms as [|m ms IH]; intros t Ht; simpl; [done|].
    apply IH. clear IH. unfold tally_match. revert t Ht.
    induction (team_stats m) as [|ts tss IH]; intros t Ht; simpl; [done|].
    apply IH. clear IH. intros k' Hk'. cbn [teammate_pairs tally_team] in Hk'.
    apply incr_fold_keys in Hk' as [Hk'|Hk']; [by apply Ht|].
    apply list_elem_of_fmap in Hk' as ([c1 c2] & -> & _). apply HP. }
  apply Hfold. intros k' Hk'. cbn in Hk'. rewrite lookup_empty in Hk'. by destruct Hk'.
Qed.

Lemma tally_pairs_ordered parsed_matches c1 c2 :
  is_Some (teammate_pairs (tally parsed_matches) !! (c1, c2)) → String.ltb c2 c1 = false.
Proof.
  apply (tally_pairs_keys (λ k, String.ltb (snd k) (fst k) = false)).
  apply sorted_pair_ordered.
Qed.

(** Reading [d[a][b]] after [d[x][y] = v]. *)
Lemma get2_set2 d x y v a b dflt :
  get2 (set2 d x y v) a b dflt
  = if bool_decide (x = a ∧ y = b) then v else get2 d a b dflt.
Proof.
  unfold get2, set2. destruct (decide (x = a)) as [->|Hne].
  - rewrite lookup_insert_eq. simpl. destruct (decide (y = b)) as [->|Hne].
    + rewrite lookup_insert_eq. by rewrite bool_decide_eq_true_2.
    + rewrite lookup_insert_ne by done. rewrite bool_decide_eq_false_2; [done|tauto].
  - rewrite lookup_insert_ne by done. rewrite bool_decide_eq_false_2; [done|tauto].
Qed.

(** The synergy pass, for the tallies [t]. *)
Section Synergy.
Variable t : Tallies.

Lemma synergy_step_win_rates g item : win_rates (synergy_step t g item) = win_rates g.
Proof. destruct item as [[c1 c2] count]. simpl. by destruct (3 <=? count). Qed.

Lemma synergy_fold_win_rates items g :
win_rates (fold_left (synergy_step t) items g) = win_rates g.
Proof.
revert g. induction items as [|item items IH]; intros g; simpl; [done|].
by rewrite IH, synergy_step_win_rates.
Qed.

Lemma synergy_step_other g c1 c2 count a b :
(c1, c2) ≠ (a, b) → (c2, c1) ≠ (a, b) →
synergy (synergy_step t g (c1, c2, count)) a b = synergy g a b.
Proof.
intros H1 H2. unfold synergy. simpl. destruct (3 <=? count); [|done].
cbn [synergies]. rewrite !get2_set2.
rewrite !bool_decide_eq_false_2; [done|..]; intros [-> ->]; done.
Qed.

Lemma synergy_fold_other items g a b :
(∀ count, ((a, b), count) ∉ items) → (∀ count, ((b, a), count) ∉ items) →
synergy (fold_left (synergy_step t) items g) a b = synergy g a b.
Proof.
revert g. induction items as [|[[c1 c2] count] items IH]; intros g H1 H2; simpl; [done|].
rewrite IH.
- apply synergy_step_other.
  + intros [= -> ->]. apply (H1 count). left.
  + intros [= -> ->]. apply (H2 count). left.
- intros n Hn. apply (H1 n). by right.
- intros n Hn. apply (H2 n). by right.
Qed.

Lemma synergy_step_written g c1 c2 count :
3 ≤ count →
synergy (synergy_step t g (c1, c2, count)) c1 c2 = synergy_written t g c1 c2 count
∧ synergy (synergy_step t g (c1, c2, count)) c2 c1 = synergy_written t g c1 c2 count.
Proof.
intros Hc. unfold synergy, synergy_written. simpl.
rewrite (proj2 (Z.leb_le _ _) Hc). cbn [synergies]. rewrite !get2_set2.
rewrite (bool_decide_eq_true_2 (c2 = c2 ∧ c1 = c1)) by done.
split; [|done]. case_bool_decide as E; [done|].
by rewrite bool_decide_eq_true_2.
Qed.

(** The synergy pass over the items of a table whose keys are sorted
  pairs: the entry of a pair seen at least three times is the value
  written for it, in both orders. *)
Lemma synergy_fold_written items g c1 c2 count :
NoDup items.*1 →
(∀ a b n, ((a, b), n) ∈ items → String.ltb b a = false) →
((c1, c2), count) ∈ items → 3 ≤ count →
synergy (fold_left (synergy_step t) items g) c1 c2 = synergy_written t g c1 c2 count
∧ synergy (fold_left (synergy_step t) items g) c2 c1 = synergy_written t g c1 c2 count.
Proof.
revert g. induction items as [|[[a b] n] items IH]; intros g Hnd Hord Hin Hc.
{ by apply elem_of_nil in Hin. }
simpl in Hnd. apply NoDup_cons in Hnd as [Hfresh Hnd].
apply elem_of_cons in Hin as [[= <- <- <-]|Hin]; cbn [fold_left].
- assert (∀ m, ((c1, c2), m) ∉ items) as H1.
  { intros m Hm. apply Hfresh. apply list_elem_of_fmap. by exists ((c1, c2), m). }
  assert (∀ m, ((c2, c1), m) ∉ items) as H2.
  { intros m Hm.
    assert (c1 = c2) as ->; [|by eapply H1].
    apply ltb_false_eq.
    - apply (Hord c2 c1 m). by right.
    - apply (Hord c1 c2 count). left. }
  rewrite !synergy_fold_other by done. by apply synergy_step_written.
- unfold synergy_written in *.
  destruct (IH (synergy_step t g (a, b, n))) as [E1 E2]; try done.
  { intros a' b' n' Hn. apply (Hord a' b' n'). by right. }
  rewrite E1, E2. unfold win_rate. by rewrite synergy_step_win_rates.
Qed.

End Synergy.

Lemma counter_fold_synergies t items g :
  synergies (fold_left (counter_step t) items g) = synergies g.
Proof.
  revert g. induction items as [|[[a b] n] items IH]; intros g; simpl; [done|].
  rewrite IH. simpl. by destruct (3 <=? n).
Qed.

Lemma win_rate_fold_synergies t items g :
  synergies (fold_left (win_rate_step t) items g) = synergies g.
Proof.
  revert g. induction items as [|[a n] items IH]; intros g; simpl; [done|].
  rewrite IH. simpl. by destruct (0 <? n).
Qed.

Lemma pick_rate_fold_synergies total items g :
  synergies (fold_left (pick_rate_step total) items g) = synergies g.
Proof.
  revert g. induction items as [|[a n] items IH]; intros g; simpl; [done|].
  by rewrite IH.
Qed.

(** What [build_from_matches] stores as the synergy of a pair observed at
    least three times: the joint win rate of the pair minus the mean of the
    two win rates that the graph held before the call, in both orders. *)
Lemma build_from_matches_synergy self parsed_matches c1 c2 count :
  let t := tally parsed_matches in
  let g := build_from_matches self parsed_matches in
  teammate_pairs t !! (c1, c2) = Some count → 3 ≤ count →
  synergy g c1 c2
  = (Zdiv_float (dget (teammate_wins t) (c1, c2)) count
     - (win_rate self c1 + win_rate self c2) / 2)%Q
  ∧ synergy g c2 c1 = synergy g c1 c2.
Proof.
  intros t g Hpair Hc. subst g. unfold build_from_matches, synergy. fold t.
  rewrite pick_rate_fold_synergies, win_rate_fold_synergies, counter_fold_synergies.
  destruct (synergy_fold_written t (map_to_list (teammate_pairs t)) self c1 c2 count)
    as [E1 E2]; try done.
  - apply NoDup_fst_map_to_list.
  - intros a b n Hn%elem_of_map_to_list. apply (tally_pairs_ordered parsed_matches).
    by eexists.
  - by apply elem_of_map_to_list.
  - unfold synergy in E1, E2. by rewrite E1, E2.
Qed.

(** On a fresh graph every win rate read by the synergy pass is the default
    0.5, whatever the corpus. *)
Lemma build_from_matches_synergy_fresh parsed_matches c1 c2 count :
  let t := tally parsed_matches in
  let g := build_from_matches ChampionGraph_init parsed_matches in
  teammate_pairs t !! (c1, c2) = Some count → 3 ≤ count →
  (synergy g c1 c2 == Zdiv_float (dget (teammate_wins t) (c1, c2)) count - (1#2))%Q
  ∧ (synergy g c2 c1 == Zdiv_float (dget (teammate_wins t) (c1, c2)) count - (1#2))%Q.
Proof.
  intros t g Hpair Hc.
  destruct (build_from_matches_synergy ChampionGraph_init parsed_matches c1 c2 count Hpair Hc)
    as [E1 E2].
  fold t g in E1, E2. rewrite E2, E1.
  unfold win_rate. cbn [win_rates ChampionGraph_init]. rewrite !lookup_empty.
  cbn [default]. split; field.
Qed.

(** C1. On the corpus [corpus_ab] the pair "A", "B" is observed three times
    and wins three times, and both champions have an overall win rate of 1;
    the claim gives the synergy 1 - (1 + 1) / 2 = 0.  [build_from_matches]
    stores 1/2, for both orders of the pair: it reads the win rates before
    it has computed them and finds the default 0.5. *)
Theorem C1_synergy_uses_default_win_rate :
  let t := tally corpus_ab in
  let g := build_from_matches ChampionGraph_init corpus_ab in
  dget (teammate_pairs t) ("A", "B") = 3
  ∧ dget (teammate_wins t) ("A", "B") = 3
  ∧ (win_rate g "A" == 1)%Q ∧ (win_rate g "B" == 1)%Q
  ∧ (synergy g "A" "B" == 1#2)%Q ∧ (synergy g "B" "A" == 1#2)%Q
  ∧ ¬ (synergy g "A" "B" == Zdiv_float 3 3 - (win_rate g "A" + win_rate g "B") / 2)%Q.
Proof. vm_compute. split_and!; try reflexivity. discriminate. Qed.

(** ** Win probability *)

Lemma predict_win_probability_cases g ds :
  let p := predict_win_probability g ds in
  let '(s1, s2) := team_scores g ds in
  if Qgtb (s1 + s2) 0
  then wp_team1 p = (s1 / (s1 + s2))%Q ∧ wp_team2 p = (s2 / (s1 + s2))%Q
  else wp_team1 p = (1#2)%Q ∧ wp_team2 p = (1#2)%Q.
Proof.
  unfold predict_win_probability. destruct (team_scores g ds) as [s1 s2]. cbv zeta.
  by destruct (Qgtb _ 0).
Qed.

Lemma predict_sum_one g ds :
  let p := predict_win_probability g ds in
  (wp_team1 p + wp_team2 p == 1)%Q.
Proof.
  pose proof (predict_win_probability_cases g ds) as H. cbv zeta in *.
  destruct (team_scores g ds) as [s1 s2].
  destruct (Qgtb (s1 + s2) 0) eqn:E; destruct H as [-> ->]; [|by vm_compute].
  apply Qgtb_true in E. field. intros H0. rewrite H0 in E. by apply Qlt_irrefl in E.
Qed.

Lemma predict_empty g ds :
  team1_picks ds = [] → team2_picks ds = [] →
  let p := predict_win_probability g ds in
  (wp_team1 p == 1#2)%Q ∧ (wp_team2 p == 1#2)%Q.
Proof.
  intros H1 H2. unfold predict_win_probability, team_scores. rewrite H1, H2. by vm_compute.
Qed.

Lemma predict_in_range g ds :
  let p := predict_win_probability g ds in
  (0 <= fst (team_scores g ds))%Q → (0 <= snd (team_scores g ds))%Q →
  (0 <= wp_team1 p <= 1)%Q ∧ (0 <= wp_team2 p <= 1)%Q.
Proof.
  pose proof (predict_win_probability_cases g ds) as H. cbv zeta in *.
  destruct (team_scores g ds) as [s1 s2]. simpl.
  intros H1 H2.
  destruct (Qgtb (s1 + s2) 0) eqn:E; destruct H as [-> ->]; [|by vm_compute].
  apply Qgtb_true in E.
  assert (∀ a b : Q, (0 <= a)%Q → (0 <= b)%Q → (0 < a + b)%Q → (0 <= a / (a + b) <= 1)%Q) as Hfrac.
  { intros a b Ha Hb Hab. split.
    - apply Qle_shift_div_l; [done|]. by rewrite Qmult_0_l.
    - apply Qle_shift_div_r; [done|]. rewrite Qmult_1_l.
      rewrite <- (Qplus_0_r a) at 1. by apply Qplus_le_r. }
  split; [by apply Hfrac|].
  assert (s1 + s2 == s2 + s1)%Q as Hc by ring.
  rewrite Hc. apply Hfrac; try done. by rewrite <- Hc.
Qed.

(** C2. On the graph built from [corpus_ab], with "C" picked by side 1
    and "A" by side 2, [predict_win_probability] returns -1/3 and 4/3: the
    two values sum to 1 but neither is in [0,1]. *)
Theorem C2_probabilities_outside_unit_interval :
  let ds := {| team1_picks := ["C"]; team1_bans := []; team2_picks := ["A"];
               team2_bans := []; ds_current_phase := "pick1"; turn := 1 |} in
  let p := predict_win_probability graph_ab ds in
  (wp_team1 p == -1#3)%Q ∧ (wp_team2 p == 4#3)%Q
  ∧ (wp_team1 p < 0)%Q ∧ (1 < wp_team2 p)%Q.
Proof. vm_compute. split_and!; reflexivity. Qed.

(** ** Recommendations *)

Lemma insert_by_impact_perm x l : insert_by_impact x l ≡ₚ x :: l.
Proof.
  induction l as [|y ys IH]; simpl; [done|].
  destruct (Qle_bool _ _); [done|].
  rewrite IH. apply Permutation_swap.
Qed.

Lemma sort_by_impact_perm l : sort_by_impact l ≡ₚ l.
Proof.
  induction l as [|x l IH]; simpl; [done|].
  rewrite insert_by_impact_perm. by rewrite IH.
Qed.

Lemma sort_by_impact_length l : length (sort_by_impact l) = length l.
Proof. apply Permutation_length, sort_by_impact_perm. Qed.

Lemma insert_by_impact_sorted x l :
  StronglySorted impact_ge l → StronglySorted impact_ge (insert_by_impact x l).
Proof.
  induction 1 as [|y ys Hs IH Hy]; simpl.
  - repeat constructor.
  - destruct (Qle_bool (win_rate_impact y) (win_rate_impact x)) eqn:E.
    + apply Qle_bool_iff in E.
      constructor; [by constructor|].
      constructor; [exact E|].
      eapply Forall_impl; [exact Hy|].
      intros z Hz. unfold impact_ge in *. eapply Qle_trans; eauto.
    + constructor; [exact IH|].
      rewrite insert_by_impact_perm. constructor; [|exact Hy].
      unfold impact_ge. apply Qlt_le_weak, Qnot_le_lt.
      intros Hle. apply Qle_bool_iff in Hle. congruence.
Qed.

Lemma sort_by_impact_sorted l : StronglySorted impact_ge (sort_by_impact l).
Proof.
  induction l as [|x l IH]; simpl; [constructor|].
  by apply insert_by_impact_sorted.
Qed.

Lemma recommend_pick_length g ds team pool :
  length (recommend_pick g ds team pool) = (10 `min` (30 `min` length pool))%nat.
Proof.
  unfold recommend_pick.
  by rewrite length_take, sort_by_impact_length, length_map, length_take.
Qed.

Lemma recommend_ban_length g ds team pool :
  length (recommend_ban g ds team pool) = (10 `min` (30 `min` length pool))%nat.
Proof.
  unfold recommend_ban.
  by rewrite length_take, sort_by_impact_length, length_map, length_take.
Qed.

Lemma recommend_pick_elem g ds team pool r :
  r ∈ recommend_pick g ds team pool →
  ∃ c, c ∈ take 30 pool
       ∧ r = evaluate_pick g
               (if team =? 1 then team1_picks ds else team2_picks ds)
               (if team =? 1 then team2_picks ds else team1_picks ds) c.
Proof.
  unfold recommend_pick. intros Hr%elem_of_take_1.
  rewrite sort_by_impact_perm in Hr.
  apply list_elem_of_fmap in Hr as (c & -> & Hc). eauto.
Qed.

(** C8, as stated, fails: [recommend_pick] does not look at the picks and
    bans of the draft state.  With "A" already picked by side 1 and "A" in
    the candidate pool, "A" is recommended. *)
Lemma C8_counterexample_picked_champion_recommended :
  "A" ∈ team1_picks draft_a_picked
  ∧ "A" ∈ map rec_champion (recommend_pick graph_ab draft_a_picked 1 ["A"; "B"]).
Proof. split; apply (bool_decide_unpack _); by vm_compute. Qed.

(** C8, amended.  For every draft state and candidate pool, [recommend_pick]
    returns at most 10 recommendations, sorted non-increasing by impact, the
    impact being the total score of the candidate minus 0.5, and every
    returned entity is one of the first 30 of the pool.  [recommend_pick]
    does not filter: a returned entity is in no side's picks or bans
    provided no entity of the pool is, which the docstring asks of the
    caller; the pool that the game computes for a session meets it. *)
Theorem C8_recommend_pick g ds team pool :
  let recs := recommend_pick g ds team pool in
  let my_picks := if team =? 1 then team1_picks ds else team2_picks ds in
  let opp_picks := if team =? 1 then team2_picks ds else team1_picks ds in
  let taken := team1_picks ds ++ team2_picks ds ++ team1_bans ds ++ team2_bans ds in
  (length recs ≤ 10)%nat
  ∧ StronglySorted impact_ge recs
  ∧ (∀ r, r ∈ recs →
       rec_champion r ∈ take 30 pool
       ∧ win_rate_impact r
         = (get_champion_power g (rec_champion r)
            + get_team_synergy g (my_picks ++ [rec_champion r]) * (3#10)
            + get_counter_score g (my_picks ++ [rec_champion r]) opp_picks * (4#10)
            - (1#2))%Q)
  ∧ ((∀ c, c ∈ pool → c ∉ taken) → ∀ r, r ∈ recs → rec_champion r ∉ taken)
  ∧ (∀ a gs c,
       c ∈ available a gs →
       c ∉ player_picks gs ++ ai_picks gs ++ player_bans gs ++ ai_bans gs).
Proof.
  intros recs my_picks opp_picks taken. split_and!.
  - subst recs. rewrite recommend_pick_length. lia.
  - apply StronglySorted_take, sort_by_impact_sorted.
  - intros r (c & Hc & ->)%recommend_pick_elem. cbn [rec_champion evaluate_pick].
    by split.
  - intros Hpool r (c & Hc & ->)%recommend_pick_elem. cbn [rec_champion evaluate_pick].
    apply Hpool. by eapply elem_of_take_1.
  - intros a gs c Hc. unfold available in Hc.
    rewrite list_elem_of_filter, !elem_of_list_to_set, !elem_of_app in Hc.
    rewrite !elem_of_app. tauto.
Qed.

(** C8: the proviso of the theorem holds of the pool "B", "C" when only "A"
    is picked, and then neither recommendation is for "A". *)
Lemma C8_witness :
  (∀ c, c ∈ ["B"; "C"] →
        c ∉ team1_picks draft_a_picked ++ team2_picks draft_a_picked
            ++ team1_bans draft_a_picked ++ team2_bans draft_a_picked)
  ∧ (length (recommend_pick graph_ab draft_a_picked 1 ["B"; "C"]) ≤ 10)%nat
  ∧ StronglySorted impact_ge (recommend_pick graph_ab draft_a_picked 1 ["B"; "C"])
  ∧ ∀ r, r ∈ recommend_pick graph_ab draft_a_picked 1 ["B"; "C"] →
         rec_champion r ∉ team1_picks draft_a_picked ++ team2_picks draft_a_picked
                          ++ team1_bans draft_a_picked ++ team2_bans draft_a_picked.
Proof.
  assert (∀ c, c ∈ ["B"; "C"] →
               c ∉ team1_picks draft_a_picked ++ team2_picks draft_a_picked
                   ++ team1_bans draft_a_picked ++ team2_bans draft_a_picked) as H.
  { intros c Hc. simpl. rewrite list_elem_of_singleton.
    rewrite !elem_of_cons, elem_of_nil in Hc. intros ->.
    destruct Hc as [?|[?|[]]]; discriminate. }
  split; [exact H|].
  destruct (C8_recommend_pick graph_ab draft_a_picked 1 ["B"; "C"]) as (H1 & H2 & _ & H4 & _).
  split; [exact H1|]. split; [exact H2|]. exact (H4 H).
Defined.

(** ** The monad *)

(** Unfolding of the monad. *)
Ltac run := unfold mbind, M_bind, fmap, M_fmap, mret, M_ret, get, modify, raise in *.

Section Monad.
Context {S A B : Type}.

Lemma bind_Return (m : M S A) (f : A → M S B) s b s' :
(m ≫= f) s = Return b s' ↔ ∃ a s1, m s = Return a s1 ∧ f a s1 = Return b s'.
Proof.
run. split.
- destruct (m s) as [a s1|e s1]; [eauto|discriminate].
- intros (a & s1 & -> & H). done.
Qed.

Lemma fmap_Return (m : M S A) (f : A → B) s b s' :
(f <$> m) s = Return b s' ↔ ∃ a, m s = Return a s' ∧ b = f a.
Proof.
run. split.
- destruct (m s) as [a s1|e s1]; [|discriminate]. intros [= <- <-]. eauto.
- intros (a & -> & ->). done.
Qed.

End Monad.

Lemma random_choice_Return {A} (rnd : nat) (l : list A) (gs : GameState) :
  l ≠ [] → ∃ x, x ∈ l ∧ random_choice rnd l gs = Return x gs.
Proof.
  intros Hl. unfold random_choice.
  assert (rnd mod length l < length l)%nat as Hlt.
  { apply Nat.mod_upper_bound. by destruct l. }
  destruct (lookup_lt_is_Some_2 l _ Hlt) as [x Hx]. rewrite Hx.
  exists x. split; [by eapply list_elem_of_lookup_2|done].
Qed.

Lemma random_choice_nil {A} (rnd : nat) (gs : GameState) :
  random_choice rnd (@nil A) gs = Raise IndexError gs.
Proof. done. Qed.

(** ** Scoring a move *)

Lemma bonus_of_first_blood : bonus_of "first_blood" = 50.
Proof. reflexivity. Qed.

Lemma bonus_of_combo_master : bonus_of "combo_master" = 150.
Proof. reflexivity. Qed.

Lemma bonus_of_draft_god : bonus_of "draft_god" = 300.
Proof. reflexivity. Qed.

Lemma combo_bonus_value :
  int_of_float (inject_Z scoring_rules.optimal_pick * scoring_rules.combo_multiplier) = 150.
Proof. reflexivity. Qed.

Ltac scoring_constants :=
  rewrite ?bonus_of_first_blood, ?bonus_of_combo_master, ?combo_bonus_value;
  unfold scoring_rules.optimal_pick, scoring_rules.good_pick, scoring_rules.acceptable_pick,
    scoring_rules.suboptimal_pick, scoring_rules.poor_pick, scoring_rules.streak_bonus in *.

(** Case analysis on the integer tests of the goal. *)
Ltac case_tests :=
  repeat match goal with
  | |- context [?a =? ?b] => destruct (Z.eqb_spec a b)
  | |- context [?a <=? ?b] => destruct (Z.leb_spec a b)
  | |- context [?a <? ?b] => destruct (Z.ltb_spec a b)
  end.

(** *** The time bonus *)

Lemma int_of_float_ge (k : Z) (x : Q) :
  (0 <= x)%Q → k ≤ int_of_float x ↔ (inject_Z k <= x)%Q.
Proof.
  destruct x as [a d]. unfold int_of_float, Qle. simpl. intros Ha.
  rewrite Z.mul_1_r in *. rewrite Z.quot_div_nonneg by lia. split.
  - intros Hk. transitivity (a / Z.pos d * Z.pos d); [nia|].
    rewrite Z.mul_comm. apply Z.mul_div_le. lia.
  - intros Hk. apply Z.div_le_lower_bound; lia.
Qed.

(** The three ways through [time_bonus_of]: the difference rounds to a
    float that is not positive and the bonus is 0; it rounds to a positive
    float [d] and the bonus is the integer part of the product, unless the
    product rounds to an infinity; or the difference itself rounds to the
    positive infinity. *)
Lemma time_bonus_of_cases (t : Q) :
  let x := (30 - t)%Q in
  (nearest x <= 0)%Q ∧ time_bonus_of t = Some 0
  ∨ (∃ d, (d == nearest x)%Q ∧ (0 < d)%Q ∧ (d < pow2 1024)%Q
          ∧ ((∃ p, (p == nearest (d * 10))%Q ∧ (p < pow2 1024)%Q
                   ∧ time_bonus_of t = Some (int_of_float p))
             ∨ (pow2 1024 <= nearest (d * 10))%Q ∧ time_bonus_of t = None))
  ∨ (pow2 1024 <= nearest x)%Q ∧ time_bonus_of t = None.
Proof.
  intros x. unfold time_bonus_of.
  change (inject_Z scoring_rules.time_bonus) with 10%Q. fold x.
  destruct (round64 x) as [d|s] eqn:Ex.
  - apply round64_Finite in Ex as [Hd Hfin].
    destruct (Qltb 0 d) eqn:E0.
    + apply Qltb_true in E0. right. left. exists d.
      rewrite Qabs_pos in Hfin by lra. split_and!; [done|done|lra|].
      assert (0 <= nearest (d * 10))%Q as Hp by (apply nearest_sign_nonneg; lra).
      destruct (round64 (d * 10)) as [p|s] eqn:Ep.
      * apply round64_Finite in Ep as [Hp1 Hp2]. rewrite Qabs_pos in Hp2 by done.
        left. exists p. split_and!; [done|lra|done].
      * apply round64_Infinite in Ep as [Hp1 _]. rewrite Qabs_pos in Hp1 by done.
        by right.
    + left. split; [|done]. destruct (Qlt_le_dec 0 d) as [H%Qltb_true|H]; [congruence|lra].
  - apply round64_Infinite in Ex as [Hinf ->].
    destruct (Qltb x 0) eqn:E0.
    + apply Qltb_true in E0. left. split; [|done]. apply nearest_sign_nonpos. lra.
    + right. right. split; [|done].
      assert (0 <= x)%Q as Hx.
      { destruct (Qlt_le_dec x 0) as [H%Qltb_true|H]; [congruence|done]. }
      by rewrite Qabs_pos in Hinf by (by apply nearest_sign_nonneg).
Qed.

(** A closed comparison of rationals, by computation. *)
Ltac closed_Q :=
  vm_compute;
  first [reflexivity | discriminate | (let H := fresh in intros H; discriminate H)].

Lemma time_bonus_of_nonneg (t : Q) (tb : Z) : time_bonus_of t = Some tb → 0 ≤ tb.
Proof.
  intros H.
  destruct (time_bonus_of_cases t) as [[_ E]|[(d & Hd & Hd0 & _ & [(p & Hp & _ & E)|[_ E]])|[_ E]]];
    rewrite E in H; try discriminate; injection H as <-; [done|].
  apply int_of_float_ge; [|change (inject_Z 0) with 0%Q];
    rewrite Hp; apply nearest_sign_nonneg; lra.
Qed.

(** *** The points of a move *)

Lemma score_pick_Return c recs t gs tb :
  time_bonus_of t = Some tb →
  let chosen_rank := find_rank 0 c recs in
  ∃ total reasoning extras gs',
    score_pick c recs t gs = Return (total, reasoning, extras) gs'
    ∧ total = base_score_of chosen_rank + tb + Zsum (map snd (bonuses extras))
    ∧ bonuses extras
      = named_bonuses chosen_rank tb (streak_count gs') (perfect_moves gs') (combo_count gs')
    ∧ ex_base extras = base_score_of chosen_rank
    ∧ ex_time_bonus extras = tb
    ∧ streak_count gs' = streak_after chosen_rank (streak_count gs)
    ∧ perfect_moves gs'
      = (if is_rank0 chosen_rank then perfect_moves gs + 1 else perfect_moves gs)
    ∧ combo_count gs'
      = (if is_rank0 chosen_rank && (3 <=? streak_count gs + 1)
         then combo_count gs + 1 else combo_count gs).
Proof.
  intros Htb chosen_rank.
  unfold score_pick, grade_rank, named_bonuses, streak_after, base_score_of.
  fold chosen_rank. rewrite Htb. clear Htb.
  destruct chosen_rank as [r|]; simpl; run; simpl;
    case_tests; simpl; case_tests; simpl; case_tests; simpl;
    eexists _, _, _, _; (split; [reflexivity|]); simpl;
    case_tests; simpl; scoring_constants; cbn in *; try lia; try done.
Qed.

(** When the time bonus overflows, [score_pick] raises after it has
    updated the counters of the session for the rank of the move. *)
Lemma score_pick_Raise c recs t gs :
  time_bonus_of t = None →
  let chosen_rank := find_rank 0 c recs in
  ∃ gs',
    score_pick c recs t gs = Raise OverflowError gs'
    ∧ gs' = set_combo_count (combo_count gs')
              (set_perfect_moves (perfect_moves gs') (set_streak_count (streak_count gs') gs))
    ∧ streak_count gs' = streak_after chosen_rank (streak_count gs)
    ∧ perfect_moves gs'
      = (if is_rank0 chosen_rank then perfect_moves gs + 1 else perfect_moves gs)
    ∧ combo_count gs'
      = (if is_rank0 chosen_rank && (3 <=? streak_count gs + 1)
         then combo_count gs + 1 else combo_count gs).
Proof.
  intros Htb chosen_rank.
  unfold score_pick, grade_rank, streak_after.
  fold chosen_rank. rewrite Htb. clear Htb.
  destruct chosen_rank as [r|]; simpl; run; simpl;
    case_tests; simpl; case_tests; simpl;
    eexists; (split; [reflexivity|]); destruct gs; cbn in *;
    split_and!; try done; try lia.
Qed.

Lemma score_pick_time_bonus c recs t gs x gs1 :
  score_pick c recs t gs = Return x gs1 → ∃ tb, time_bonus_of t = Some tb.
Proof.
  intros H. destruct (time_bonus_of t) as [tb|] eqn:E; [by exists tb|].
  destruct (score_pick_Raise c recs t gs E) as (gs' & H' & _). congruence.
Qed.


Lemma score_pick_frame c recs t gs x gs1 :
  score_pick c recs t gs = Return x gs1 →
  gs1 = set_combo_count (combo_count gs1)
          (set_perfect_moves (perfect_moves gs1) (set_streak_count (streak_count gs1) gs)).
Proof.
  unfold score_pick, grade_rank. run.
  destruct (time_bonus_of t) as [tb|].
  2:{ destruct (find_rank 0 c recs) as [r|]; simpl; [|discriminate].
      destruct (r =? 0); simpl; [destruct (3 <=? _); discriminate|].
      destruct (r <=? 2); simpl; [discriminate|]. destruct (r <=? 5); discriminate. }
  destruct (find_rank 0 c recs) as [r|]; simpl.
  2:{ intros [= <- <-]. by destruct gs. }
  destruct (r =? 0); simpl.
  - destruct (3 <=? _); simpl; intros [= <- <-]; by destruct gs.
  - destruct (r <=? 2); simpl; [|destruct (r <=? 5); simpl];
      intros [= <- <-]; by destruct gs.
Qed.

(** C6, as stated, fails: the optimal choice made in five seconds in a fresh
    session has base 100, time bonus (30 - 5) * 10 = 250, streak 1 and the
    first-perfect bonus 50, no combo; the claim gives 100 + 250 + 25 + 50 =
    425 points, [score_pick] awards 675: the time bonus is in the total
    once as such and once more as the named "Speed Bonus". *)
Lemma C6_counterexample_time_bonus_twice :
  ∃ total reasoning extras gs',
    score_pick "X" only_x 5 (league_session "easy") = Return (total, reasoning, extras) gs'
    ∧ ex_base extras = 100
    ∧ ex_time_bonus extras = 250
    ∧ streak_count gs' = 1
    ∧ bonuses extras = [("First Blood", 50); ("Speed Bonus", 250); ("Streak", 25)]
    ∧ total = 675
    ∧ total ≠ 100 + 250 + 1 * 25 + 50.
Proof.
  eexists _, _, _, _. split; [vm_compute; reflexivity|]. split_and!; done.
Qed.

(** C6, amended.  The points that [score_pick] awards to a move are the
    base of the rank (unranked 0, rank 0 gives 100, ranks 1-2 give 75,
    ranks 3-5 give 50, any other rank 25), plus the time bonus
    [int(max(0, 30 - time_taken) * 10)] as float arithmetic yields it, plus
    the sum of the named bonuses; the named bonuses are "First Blood" 50 on
    the first perfect move, "Combo x3" 150 on a rank-0 move that brings the
    streak to 3 or more, with "Combo Master" 150 on the first such combo,
    "Speed Bonus" equal to the time bonus when that exceeds 200 (which then
    counts twice), and "Streak" 25 times the streak when the streak after
    the move is positive.  No points are awarded when the time bonus
    overflows: [score_pick] then raises [OverflowError]. *)
Theorem C6_points_awarded c recs t gs :
  let chosen_rank := find_rank 0 c recs in
  match time_bonus_of t with
  | Some tb =>
    ∃ total reasoning extras gs',
      score_pick c recs t gs = Return (total, reasoning, extras) gs'
      ∧ total = base_score_of chosen_rank + tb + Zsum (map snd (bonuses extras))
      ∧ bonuses extras
        = named_bonuses chosen_rank tb (streak_count gs') (perfect_moves gs') (combo_count gs')
      ∧ total
        = base_score_of chosen_rank + tb
          + (if is_rank0 chosen_rank && (perfect_moves gs' =? 1) then 50 else 0)
          + (if is_rank0 chosen_rank && (3 <=? streak_count gs')
             then 150 + (if combo_count gs' =? 1 then 150 else 0) else 0)
          + (if 200 <? tb then tb else 0)
          + (if 0 <? streak_count gs' then streak_count gs' * 25 else 0)
      ∧ base_score_of chosen_rank
        = match chosen_rank with
          | None => 0
          | Some r => if r =? 0 then 100 else if r <=? 2 then 75 else if r <=? 5 then 50 else 25
          end
      ∧ ex_base extras = base_score_of chosen_rank
      ∧ ex_time_bonus extras = tb
      ∧ 0 ≤ tb
      ∧ streak_count gs' = streak_after chosen_rank (streak_count gs)
      ∧ perfect_moves gs'
        = (if is_rank0 chosen_rank then perfect_moves gs + 1 else perfect_moves gs)
      ∧ combo_count gs'
        = (if is_rank0 chosen_rank && (3 <=? streak_count gs + 1)
           then combo_count gs + 1 else combo_count gs)
  | None => ∃ gs', score_pick c recs t gs = Raise OverflowError gs'
  end.
Proof.
  intros chosen_rank. destruct (time_bonus_of t) as [tb|] eqn:Etb.
  2:{ destruct (score_pick_Raise c recs t gs Etb) as (gs' & H & _). by exists gs'. }
  destruct (score_pick_Return c recs t gs tb Etb)
    as (total & reasoning & extras & gs' & H & Ht & Hb & Hbase & Htime & Hs & Hp & Hc).
  fold chosen_rank in Ht, Hb, Hbase, Hs, Hp, Hc.
  exists total, reasoning, extras, gs'.
  split_and!; try done; [|by eapply time_bonus_of_nonneg].
  rewrite Ht, Hb. unfold named_bonuses.
  repeat (destruct (_ && _) || destruct (_ <? _) || destruct (_ =? _));
    cbn [app map snd Zsum fold_right]; lia.
Qed.

(** ** Achievements and the final score *)

Lemma unlock_eq key cond gs :
  unlock key cond gs
  = if cond gs && bool_decide (key ∉ achievements gs)
    then Return [key] (set_achievements (achievements gs ++ [key]) gs)
    else Return [] gs.
Proof. unfold unlock. run. by destruct (_ && _). Qed.

Lemma unlock_spec key cond gs :
  ∃ new gs1,
    unlock key cond gs = Return new gs1
    ∧ gs1 = set_achievements (achievements gs1) gs
    ∧ ((new = [key] ∧ achievements gs1 = achievements gs ++ [key]
        ∧ cond gs = true ∧ key ∉ achievements gs)
       ∨ (new = [] ∧ achievements gs1 = achievements gs
          ∧ (cond gs = false ∨ key ∈ achievements gs))).
Proof.
  rewrite unlock_eq. destruct (cond gs) eqn:Ec; simpl; [case_bool_decide as Ek; simpl|].
  - eexists _, _. split; [done|]. split; [by destruct gs|]. left. done.
  - eexists _, _. split; [done|]. split; [by destruct gs|]. right. split_and!; auto.
  - eexists _, _. split; [done|]. split; [by destruct gs|]. right. auto.
Qed.

Lemma check_achievements_spec gs :
  ∃ new gs1,
    check_achievements gs = Return new gs1
    ∧ gs1 = set_achievements (achievements gs1) gs
    ∧ (NoDup (achievements gs) → NoDup (achievements gs1))
    ∧ achievements gs ⊆ achievements gs1
    ∧ (Qgeb (final_win_probability gs) (9#10) = true → "draft_god" ∈ achievements gs1)
    ∧ ("draft_god" ∈ new ↔
       Qgeb (final_win_probability gs) (9#10) = true ∧ "draft_god" ∉ achievements gs).
Proof.
  unfold check_achievements.
  destruct (unlock_spec "flawless" (λ gs, 10 <=? perfect_moves gs) gs)
    as (n1 & g1 & H1 & F1 & C1).
  destruct (unlock_spec "speedster"
              (λ gs, Qltb (avg_time gs) 15 && (10 <=? Z.of_nat (length (moves_evaluated gs))))
              g1) as (n2 & g2 & H2 & F2 & C2).
  destruct (unlock_spec "draft_god" (λ gs, Qgeb (final_win_probability gs) (9#10)) g2)
    as (n3 & g3 & H3 & F3 & C3).
  assert (final_win_probability g2 = final_win_probability gs) as Hwp
    by (rewrite F2, F1; done).
  rewrite Hwp in C3.
  exists (n1 ++ n2 ++ n3), g3. split.
  { run. rewrite H1, H2, H3. done. }
  split. { rewrite F3, F2, F1. done. }
  split.
  { intros Hnd.
    assert (NoDup (achievements g1)) as Hnd1.
    { destruct C1 as [(_ & -> & _ & ?)|(_ & -> & _)]; [by apply NoDup_snoc|done]. }
    assert (NoDup (achievements g2)) as Hnd2.
    { destruct C2 as [(_ & -> & _ & ?)|(_ & -> & _)]; [by apply NoDup_snoc|done]. }
    destruct C3 as [(_ & -> & _ & ?)|(_ & -> & _)]; [by apply NoDup_snoc|done]. }
  assert (achievements gs ⊆ achievements g1) as S1
    by (destruct C1 as [(_ & -> & _)|(_ & -> & _)]; intros x ?; rewrite ?elem_of_app; auto).
  assert (achievements g1 ⊆ achievements g2) as S2
    by (destruct C2 as [(_ & -> & _)|(_ & -> & _)]; intros x ?; rewrite ?elem_of_app; auto).
  assert (∀ k, k ∈ achievements g2 → k ∈ achievements gs ∨ k = "flawless" ∨ k = "speedster")
    as Hback.
  { intros k.
    destruct C1 as [(_ & E1 & _)|(_ & E1 & _)], C2 as [(_ & E2 & _)|(_ & E2 & _)];
      rewrite E2, E1, ?elem_of_app, ?list_elem_of_singleton; tauto. }
  split.
  { intros x Hx%S1%S2.
    destruct C3 as [(_ & -> & _)|(_ & -> & _)]; rewrite ?elem_of_app; auto. }
  split.
  { intros Hge. destruct C3 as [(_ & -> & _)|(_ & -> & [?|?])]; [|congruence|done].
    apply elem_of_app. right. left. }
  assert ("draft_god" ∉ n1) as Hn1.
  { destruct C1 as [(-> & _)|(-> & _)];
      [by intros ?%list_elem_of_singleton|apply not_elem_of_nil]. }
  assert ("draft_god" ∉ n2) as Hn2.
  { destruct C2 as [(-> & _)|(-> & _)];
      [by intros ?%list_elem_of_singleton|apply not_elem_of_nil]. }
  rewrite !elem_of_app. split.
  - intros [?|[?|Hin]]; [done|done|].
    destruct C3 as [(-> & _ & ? & Hn)|(-> & _)]; [|by apply elem_of_nil in Hin].
    split; [done|]. intros Hgs. apply Hn. by apply S2, S1.
  - intros [Hge Hn]. right; right.
    destruct C3 as [(-> & _)|(_ & _ & [?|Hin])]; [left|congruence|].
    apply Hback in Hin as [?|[?|?]]; done.
Qed.

Lemma achievement_bonus_of_cons a l :
  achievement_bonus_of (a :: l)
  = (if bool_decide (is_Some (achievements_table !! a)) then bonus_of a else 0)
    + achievement_bonus_of l.
Proof.
  unfold achievement_bonus_of. rewrite filter_cons.
  destruct (decide (is_Some (achievements_table !! a))) as [H|H].
  - by rewrite bool_decide_eq_true_2.
  - by rewrite bool_decide_eq_false_2.
Qed.

Lemma achievement_bonus_of_draft_god l :
  NoDup l → "draft_god" ∈ l →
  achievement_bonus_of l = 300 + achievement_bonus_of (filter (λ a, a ≠ "draft_god") l).
Proof.
  induction 1 as [|a l Ha Hl IH]; intros Hin; [by apply elem_of_nil in Hin|].
  rewrite filter_cons, achievement_bonus_of_cons.
  destruct (decide (a ≠ "draft_god")) as [Hne|Heq%dec_stable].
  - rewrite achievement_bonus_of_cons, IH; [lia|].
    apply elem_of_cons in Hin as [?|?]; [congruence|done].
  - subst a. rewrite bool_decide_eq_true_2 by (by vm_compute; eexists).
    rewrite bonus_of_draft_god. f_equal. f_equal.
    symmetry. apply filter_Forall. apply Forall_forall. intros x Hx ->. done.
Qed.

Lemma wp_bonus_of_above_75 p : (75#100 < p)%Q → wp_bonus_of p = 800.
Proof. intros H. unfold wp_bonus_of. by rewrite (proj2 (Qgtb_true _ _) H). Qed.

Lemma complete_game_Return self now gs r gs' :
  _complete_game self now gs = Return r gs' →
  let wp := wp_team1 (predict_win_probability (graph (assistant self)) (final_draft gs)) in
  ∃ gs1,
    check_achievements (set_final_win_probability wp gs) = Return (new_achievements r) gs1
    ∧ gs' = set_completed_at (Some now) gs1
    ∧ final_score r = calculate_final_score gs1
    ∧ win_probability r = wp.
Proof.
  unfold _complete_game. intros H.
  apply bind_Return in H as (? & ? & [= <- <-] & H).
  apply bind_Return in H as ([] & ? & [= <-] & H).
  apply bind_Return in H as (new & gs1 & Hnew & H).
  apply bind_Return in H as (? & ? & [= <- <-] & H).
  apply bind_Return in H as ([] & ? & [= <-] & H).
  apply bind_Return in H as (? & ? & [= <- <-] & H).
  apply bind_Return in H as (cmp & s1 & Hcmp & H).
  apply bind_Return in H as (best & s2 & Hbest & H).
  injection H as <- <-. simpl.
  assert (s1 = set_completed_at (Some now) gs1) as ->.
  { revert Hcmp. unfold _compare_to_real_match, index0. run.
    destruct (List.find _ _); [|by intros [= <- <-]].
    destruct (team_stats _); [discriminate|]. by intros [= <- <-]. }
  assert (s2 = set_completed_at (Some now) gs1) as ->.
  { revert Hbest. unfold max_of. destruct (map _ _); [discriminate|]. by intros [= <- <-]. }
  exists gs1. done.
Qed.

(** C7. A session that [_complete_game] finalises with a win probability of
    0.92 has "draft_god" among its achievements, once; the achievement is
    newly unlocked by this finalisation exactly when it was absent before;
    and the total of [calculate_final_score] is the sum of the points of the
    graded moves, plus 800, plus the achievement bonus, of which 300 points
    are those of "draft_god". *)
Theorem C7_draft_god_at_092 self now gs r gs' :
  NoDup (achievements gs) →
  _complete_game self now gs = Return r gs' →
  (win_probability r == 92#100)%Q →
  (final_win_probability gs' == 92#100)%Q
  ∧ "draft_god" ∈ achievements gs'
  ∧ NoDup (achievements gs')
  ∧ ("draft_god" ∈ new_achievements r ↔ "draft_god" ∉ achievements gs)
  ∧ fs_achievements (final_score r) = achievements gs'
  ∧ fs_base_score (final_score r) = Zsum (map mv_score (moves_evaluated gs'))
  ∧ win_probability_bonus (final_score r) = 800
  ∧ achievement_bonus (final_score r)
    = 300 + achievement_bonus_of (filter (λ a, a ≠ "draft_god") (achievements gs'))
  ∧ total_score (final_score r)
    = Zsum (map mv_score (moves_evaluated gs')) + 800 + achievement_bonus (final_score r).
Proof.
  intros Hnd Hfin Hwp.
  apply complete_game_Return in Hfin as (gs1 & Hch & -> & Hfs & Hr).
  cbv zeta in Hr. set (wp := wp_team1 _) in *. rewrite Hr in Hwp.
  destruct (check_achievements_spec (set_final_win_probability wp gs))
    as (new & gs1' & Hch' & Hframe & Hnd' & _ & Hdg & Hnew).
  rewrite Hch in Hch'. injection Hch' as <- <-.
  cbn [achievements final_win_probability set_final_win_probability] in Hnd', Hdg, Hnew.
  assert (Qgeb wp (9#10) = true) as Hge.
  { apply Qgeb_true. rewrite Hwp. by vm_compute. }
  assert (wp_bonus_of wp = 800) as H800.
  { apply wp_bonus_of_above_75. rewrite Hwp. by vm_compute. }
  assert (final_win_probability gs1 = wp) as Hfw by (rewrite Hframe; done).
  cbn [final_win_probability achievements moves_evaluated set_completed_at].
  rewrite Hfs. unfold calculate_final_score. rewrite Hfw, H800.
  destruct (if 3000 <=? _ then _ else _) as [rating rank] eqn:E.
  cbn [fs_achievements fs_base_score win_probability_bonus achievement_bonus total_score].
  pose proof (Hnd' Hnd) as Hnd1. pose proof (Hdg Hge) as Hin.
  split_and!; try done.
  - rewrite Hnew. tauto.
  - by apply achievement_bonus_of_draft_god.
Qed.

(** C7: the hypotheses of the theorem hold of [session_92], which
    [_complete_game] finalises with a win probability of 0.92 and a total of
    100 + 800 + 300 points. *)
Lemma C7_witness :
  NoDup (achievements session_92)
  ∧ ∃ r gs',
      _complete_game engine_92 1 session_92 = Return r gs'
      ∧ (win_probability r == 92#100)%Q
      ∧ "draft_god" ∈ achievements gs'
      ∧ total_score (final_score r) = 100 + 800 + 300.
Proof.
  assert (NoDup (achievements session_92)) as Hnd by constructor.
  split; [exact Hnd|].
  eexists _, _.
  split; [vm_compute; reflexivity|].
  match goal with
  | |- _ ∧ _ ∈ achievements ?gs' ∧ total_score (final_score ?r) = _ =>
    assert (_complete_game engine_92 1 session_92 = Return r gs') as Hrun
      by (vm_compute; reflexivity);
    assert (win_probability r == 92#100)%Q as Hwp by (by vm_compute);
    destruct (C7_draft_god_at_092 engine_92 1 session_92 r gs' Hnd Hrun Hwp)
      as (_ & Hin & _ & _ & _ & _ & _ & _ & Htotal)
  end.
  split; [exact Hwp|]. split; [exact Hin|].
  rewrite Htotal. by vm_compute.
Defined.

(** ** The pool of a session and the simulated opponent *)

Lemma available_spec a gs c :
  c ∈ available a gs ↔
  c ∈ all_champions a
  ∧ (c ∉ player_picks gs) ∧ (c ∉ ai_picks gs) ∧ (c ∉ player_bans gs) ∧ (c ∉ ai_bans gs).
Proof.
  unfold available. rewrite list_elem_of_filter, !elem_of_list_to_set, !elem_of_app. tauto.
Qed.

Lemma available_NoDup a gs : NoDup (all_champions a) → NoDup (available a gs).
Proof. intros H. by apply NoDup_filter. Qed.

Lemma available_ext a gs gs' :
  player_picks gs' = player_picks gs → player_bans gs' = player_bans gs →
  ai_picks gs' = ai_picks gs → ai_bans gs' = ai_bans gs →
  available a gs' = available a gs.
Proof. unfold available. by intros -> -> -> ->. Qed.

Lemma available_after_move a c move_record gs x :
  x ∈ available a (record_player_move c move_record gs) → x ∈ available a gs ∧ x ≠ c.
Proof.
  rewrite !available_spec. unfold record_player_move.
  case_bool_decide; cbn; rewrite elem_of_app, list_elem_of_singleton; tauto.
Qed.

Lemma record_player_move_difficulty c move_record gs :
  difficulty (record_player_move c move_record gs) = difficulty gs.
Proof. unfold record_player_move. by case_bool_decide. Qed.

Lemma player_recommendations_nil self gs :
  player_recommendations self gs = [] ↔ available (assistant self) gs = [].
Proof.
  unfold player_recommendations.
  rewrite <- !length_zero_iff_nil.
  case_bool_decide; rewrite ?recommend_ban_length, ?recommend_pick_length; lia.
Qed.

Lemma ai_recommendations_nil self at_ gs :
  ai_recommendations self at_ gs = [] ↔ available (assistant self) gs = [].
Proof.
  unfold ai_recommendations.
  rewrite <- !length_zero_iff_nil.
  case_bool_decide; rewrite ?recommend_ban_length, ?recommend_pick_length; lia.
Qed.

(** The step of the opponent of one engine [self]. *)
Section Opponent.
Variable self : DraftMasterGame.

Lemma ai_make_move_Return at_ rnd gs mv gs3 :
_ai_make_move self at_ rnd gs = Return mv gs3 →
∃ chosen,
  chosen ∈ ai_recommendations self at_ gs
  ∧ ai_champion mv = rec_champion chosen
  ∧ difficulty gs ∈ ["easy"; "medium"; "hard"; "pro"]
  ∧ gs3 = if bool_decide (at_ = "ban")
          then set_ai_bans (ai_bans gs ++ [rec_champion chosen]) gs
          else set_ai_picks (ai_picks gs ++ [rec_champion chosen]) gs.
Proof.
unfold _ai_make_move. intros H.
apply bind_Return in H as (? & ? & [= <- <-] & H).
apply bind_Return in H as ([chosen|] & s1 & Hch & H); [|discriminate].
apply bind_Return in H as ([] & s2 & Hupd & H).
injection H as <- <-.
assert (s1 = gs ∧ chosen ∈ ai_recommendations self at_ gs
        ∧ difficulty gs ∈ ["easy"; "medium"; "hard"; "pro"]) as (-> & Hin & Hd).
{ clear Hupd. revert Hch. unfold random_choice, index0.
  repeat case_bool_decide.
  - intros (a & Ha & [= <-])%fmap_Return.
    destruct (_ !! _) as [y|] eqn:E; [|discriminate]. injection Ha as <- <-.
    split_and!; [done| |rewrite !elem_of_cons; auto].
    apply list_elem_of_lookup_2 in E. by eapply elem_of_take_1.
  - intros (a & Ha & [= <-])%fmap_Return.
    destruct (_ !! _) as [y|] eqn:E; [|discriminate]. injection Ha as <- <-.
    split_and!; [done| |rewrite !elem_of_cons; auto].
    apply list_elem_of_lookup_2 in E. by eapply elem_of_take_1.
  - intros (a & Ha & [= <-])%fmap_Return.
    destruct (ai_recommendations self at_ gs) as [|y l] eqn:E; [discriminate|].
    injection Ha as <- <-. split_and!; [done|left|].
    match goal with H : _ ∈ ["hard"; "pro"] |- _ => revert H end.
    rewrite !elem_of_cons. tauto.
  - discriminate. }
exists chosen. split_and!; try done.
case_bool_decide; run; by injection Hupd.
Qed.

Lemma ai_make_move_total at_ rnd gs :
ai_recommendations self at_ gs ≠ [] →
difficulty gs ∈ ["easy"; "medium"; "hard"; "pro"] →
∃ mv gs', _ai_make_move self at_ rnd gs = Return mv gs'.
Proof.
intros Hrecs Hd. unfold _ai_make_move. run. cbn.
destruct (ai_recommendations self at_ gs) as [|r recs] eqn:E; [done|].
repeat case_bool_decide;
  try (exfalso; revert Hd; rewrite !elem_of_cons, elem_of_nil in *; tauto);
  try (destruct (random_choice_Return rnd (take 10 (r :: recs)) gs)
         as (x & _ & ->); [done|]);
  try (destruct (random_choice_Return rnd (take 5 (r :: recs)) gs)
         as (x & _ & ->); [done|]);
  cbn; eauto.
Qed.

Lemma ai_make_move_IndexError at_ rnd gs :
ai_recommendations self at_ gs = [] →
difficulty gs ∈ ["easy"; "medium"; "hard"; "pro"] →
_ai_make_move self at_ rnd gs = Raise IndexError gs.
Proof.
intros Hrecs Hd. unfold _ai_make_move. run. cbn. rewrite Hrecs.
repeat case_bool_decide; try done.
exfalso. revert Hd. rewrite !elem_of_cons, elem_of_nil in *. tauto.
Qed.

Lemma ai_make_move_UnboundLocalError at_ rnd gs :
difficulty gs ∉ ["easy"; "medium"; "hard"; "pro"] →
_ai_make_move self at_ rnd gs = Raise UnboundLocalError gs.
Proof.
intros Hd. unfold _ai_make_move. run. cbn.
rewrite !elem_of_cons, elem_of_nil in Hd.
repeat case_bool_decide; try done; exfalso;
  rewrite ?elem_of_cons, ?elem_of_nil in *; tauto.
Qed.

End Opponent.

(** ** Submitting a move *)

(** [get_available_actions] and [make_move] of one engine [self]. *)
Section MakeMove.
Variable self : DraftMasterGame.

Lemma get_available_actions_eq gs :
get_available_actions self gs
= if bool_decide (difficulty gs = "hard")
     && bool_decide (player_recommendations self gs = [])
  then Raise IndexError gs
  else Return {| action_type := action_type_of (current_phase gs);
                 available_champions := take 50 (available (assistant self) gs);
                 recommendations :=
                   visible_hints (difficulty gs) (player_recommendations self gs);
                 time_limit := 30;
                 phase := current_phase gs;
                 phase_description := _get_phase_description (current_phase gs) |} gs.
Proof.
unfold get_available_actions, visible_hints. run. simpl.
repeat case_bool_decide; simpl; try congruence;
  destruct (player_recommendations self gs); simpl; rewrite ?take_0; congruence.
Qed.

Lemma make_move_rejected c t rnd now gs e gs' :
make_move self c t rnd now gs = Return (MoveError e) gs' →
e = "Invalid champion choice" ∧ gs' = gs
∧ c ∉ take 50 (available (assistant self) gs).
Proof.
unfold make_move. intros H.
apply bind_Return in H as (acts & s1 & Hacts & H).
rewrite get_available_actions_eq in Hacts.
destruct (_ && _); [discriminate|]. injection Hacts as <- <-. simpl in H.
case_bool_decide as Hc.
- by injection H as <- <-.
- apply bind_Return in H as ([[pts reasoning] extras] & s2 & _ & H).
  repeat (apply bind_Return in H as (? & ? & _ & H)).
  discriminate H.
Qed.

(** A rejected move: the explicit error, the session untouched. *)
Lemma make_move_reject c t rnd now gs :
c ∉ take 50 (available (assistant self) gs) →
¬ (difficulty gs = "hard" ∧ player_recommendations self gs = []) →
make_move self c t rnd now gs = Return (MoveError "Invalid champion choice") gs.
Proof.
intros Hc Hhard. unfold make_move.
unfold mbind at 1, M_bind at 1. rewrite get_available_actions_eq.
destruct (_ && _) eqn:E.
{ apply andb_prop in E as [?%bool_decide_eq_true ?%bool_decide_eq_true]. tauto. }
cbn [available_champions]. by rewrite bool_decide_eq_true_2.
Qed.

Lemma make_move_accepted c t rnd now gs o gs' :
make_move self c t rnd now gs = Return (MoveDone o) gs' →
∃ pts reasoning extras gs1 gs3,
  let hints := visible_hints (difficulty gs) (player_recommendations self gs) in
  let move_record :=
    {| mv_phase := current_phase gs1;
       mv_action := action_type_of (current_phase gs);
       mv_champion := c; mv_score := pts; mv_reasoning := reasoning;
       mv_time_taken := t; mv_extras := extras |} in
  let gs4 := set_current_phase (current_phase gs3 + 1) gs3 in
  c ∈ take 50 (available (assistant self) gs)
  ∧ score_pick c hints t gs = Return (pts, reasoning, extras) gs1
  ∧ _ai_make_move self (action_type_of (current_phase gs)) rnd
      (record_player_move c move_record gs1) = Return (ai_move o) gs3
  ∧ player_move o = move_record
  ∧ game_complete o = (20 <=? current_phase gs4)
  ∧ (if 20 <=? current_phase gs4
     then ∃ fr, _complete_game self now gs4 = Return fr gs' ∧ final_results o = Some fr
     else gs' = gs4 ∧ final_results o = None).
Proof.
unfold make_move. intros H.
apply bind_Return in H as (acts & s1 & Hacts & H).
rewrite get_available_actions_eq in Hacts.
destruct (_ && _); [discriminate|]. injection Hacts as <- <-. simpl in H.
case_bool_decide as Hc; [discriminate|].
apply bind_Return in H as ([[pts reasoning] extras] & gs1 & Hscore & H).
apply bind_Return in H as (? & ? & [= <- <-] & H).
apply bind_Return in H as ([] & ? & [= <-] & H).
apply bind_Return in H as ([] & ? & [= <-] & H).
apply bind_Return in H as ([] & gs2 & Hrec & H).
apply bind_Return in H as (ai & gs3 & Hai & H).
apply bind_Return in H as ([] & ? & [= <-] & H).
apply bind_Return in H as (? & ? & [= <- <-] & H).
apply bind_Return in H as (fr & gs5 & Hfin & H).
apply bind_Return in H as (? & ? & [= <- <-] & H).
injection H as <- <-. simpl.
exists pts, reasoning, extras, gs1, gs3.
assert (gs2 = record_player_move c
          {| mv_phase := current_phase gs1;
             mv_action := action_type_of (current_phase gs);
             mv_champion := c; mv_score := pts; mv_reasoning := reasoning;
             mv_time_taken := t; mv_extras := extras |} gs1) as ->.
{ unfold record_player_move. simpl. case_bool_decide; run; by injection Hrec. }
split_and!; try done.
simpl in Hfin. destruct (20 <=? current_phase gs3 + 1).
- apply fmap_Return in Hfin as (r & Hr & ->). eauto.
- by injection Hfin as <- <-.
Qed.

Lemma make_move_fields c t rnd now gs o gs' :
make_move self c t rnd now gs = Return (MoveDone o) gs' →
current_phase gs' = current_phase gs + 1
∧ game_complete o = (20 <=? current_phase gs')
∧ completed_at gs' = (if 20 <=? current_phase gs' then Some now else completed_at gs)
∧ (NoDup (achievements gs) → NoDup (achievements gs'))
∧ mv_phase (player_move o) = current_phase gs
∧ mv_action (player_move o) = action_type_of (current_phase gs)
∧ mv_champion (player_move o) = c
∧ c ∈ take 50 (available (assistant self) gs)
∧ moves_evaluated gs' = moves_evaluated gs ++ [player_move o]
∧ score gs' = score gs + mv_score (player_move o)
∧ difficulty gs' = difficulty gs.
Proof.
intros H. apply make_move_accepted in H
  as (pts & reasoning & extras & gs1 & gs3 & Hc & Hscore & Hai & Hpm & Hgc & Hfin).
apply score_pick_frame in Hscore.
apply ai_make_move_Return in Hai as (chosen & _ & _ & _ & Hgs3).
set (mr := {| mv_phase := current_phase gs1 |}) in *.
assert (current_phase gs3 = current_phase gs
        ∧ completed_at gs3 = completed_at gs
        ∧ achievements gs3 = achievements gs
        ∧ moves_evaluated gs3 = moves_evaluated gs ++ [mr]
        ∧ score gs3 = score gs + pts
        ∧ difficulty gs3 = difficulty gs
        ∧ current_phase gs1 = current_phase gs) as (P & C & A & Mv & Sc & D & P1).
{ rewrite Hgs3, Hscore. unfold record_player_move.
  repeat case_bool_decide; cbn; done. }
rewrite Hpm. subst mr. cbn [mv_phase mv_action mv_champion mv_score].
cbn [current_phase set_current_phase] in Hgc, Hfin.
destruct (20 <=? current_phase gs3 + 1) eqn:E20.
- destruct Hfin as (fr & Hfr & _).
  apply complete_game_Return in Hfr as (g1 & Hch & -> & _).
  destruct (check_achievements_spec
              (set_final_win_probability
                 (wp_team1 (predict_win_probability (graph (assistant self))
                              (final_draft
                                 (set_current_phase (current_phase gs3 + 1) gs3))))
                 (set_current_phase (current_phase gs3 + 1) gs3)))
    as (new & g1' & Hch' & Hframe & Hnd & _).
  rewrite Hch in Hch'. injection Hch' as <- <-.
  cbn [current_phase completed_at achievements set_completed_at moves_evaluated
       score difficulty].
  rewrite Hframe. cbn. rewrite P, E20 in *.
  split_and!; try done. rewrite <- A. exact Hnd.
- destruct Hfin as [-> _]. cbn. rewrite P, E20 in *. split_and!; try done.
  by rewrite A.
Qed.

(** An accepted champion is in the pool and was picked or banned by
  nobody. *)
Lemma make_move_accepted_unpicked c t rnd now gs o gs' :
make_move self c t rnd now gs = Return (MoveDone o) gs' →
c ∈ all_champions (assistant self)
∧ (c ∉ player_picks gs) ∧ (c ∉ ai_picks gs) ∧ (c ∉ player_bans gs) ∧ (c ∉ ai_bans gs).
Proof.
intros H. apply make_move_fields in H as (_ & _ & _ & _ & _ & _ & _ & Hc & _).
apply elem_of_take_1 in Hc. by apply available_spec.
Qed.

(** The rank of an accepted move is taken in the hints of the session's
  difficulty. *)
Lemma make_move_graded_among_hints c t rnd now gs o gs' :
make_move self c t rnd now gs = Return (MoveDone o) gs' →
ex_base (mv_extras (player_move o))
= base_score_of
    (find_rank 0 c (visible_hints (difficulty gs) (player_recommendations self gs))).
Proof.
intros H. apply make_move_accepted in H
  as (pts & reasoning & extras & gs1 & gs3 & _ & Hscore & _ & Hpm & _).
destruct (score_pick_time_bonus _ _ _ _ _ _ Hscore) as [tb Htb].
destruct (score_pick_Return c
            (visible_hints (difficulty gs) (player_recommendations self gs)) t gs tb Htb)
  as (total & reasoning' & extras' & gs1' & Hscore' & _ & _ & Hbase & _).
rewrite Hscore in Hscore'. injection Hscore' as <- <- <- <-.
by rewrite Hpm.
Qed.

(** At difficulty "pro" no move is ranked. *)
Lemma pro_moves_unranked c t rnd now gs o gs' :
difficulty gs = "pro" →
make_move self c t rnd now gs = Return (MoveDone o) gs' →
ex_base (mv_extras (player_move o)) = 0.
Proof.
intros Hpro H. apply make_move_graded_among_hints in H.
by rewrite H, Hpro.
Qed.

(** What [make_move] does with a champion that passes the validation, up
  to the move of the opponent: it raises [OverflowError] when the time
  bonus overflows, the session being left as [score_pick] leaves it, and
  otherwise records the move and hands over to the opponent, whose
  exception it lets through. *)
Lemma make_move_valid c t rnd now gs :
c ∈ take 50 (available (assistant self) gs) →
∃ move_record gs1,
  difficulty gs1 = difficulty gs
  ∧ player_picks gs1 = player_picks gs ∧ player_bans gs1 = player_bans gs
  ∧ ai_picks gs1 = ai_picks gs ∧ ai_bans gs1 = ai_bans gs
  ∧ (time_bonus_of t = None → make_move self c t rnd now gs = Raise OverflowError gs1)
  ∧ (is_Some (time_bonus_of t) →
     ∀ e s,
       _ai_make_move self (action_type_of (current_phase gs)) rnd
         (record_player_move c move_record gs1) = Raise e s →
       make_move self c t rnd now gs = Raise e s).
Proof.
intros Hc.
assert (¬ (difficulty gs = "hard" ∧ player_recommendations self gs = [])) as Hhard.
{ intros [_ Hnil%player_recommendations_nil]. rewrite Hnil in Hc.
  by apply elem_of_nil in Hc. }
assert (∀ r, (x ← get_available_actions self;
              if bool_decide (c ∉ available_champions x)
              then mret (MoveError "Invalid champion choice")
              else r x) gs
             = r {| action_type := action_type_of (current_phase gs);
                    available_champions := take 50 (available (assistant self) gs);
                    recommendations :=
                      visible_hints (difficulty gs) (player_recommendations self gs);
                    time_limit := 30;
                    phase := current_phase gs;
                    phase_description := _get_phase_description (current_phase gs) |} gs)
  as Hstart.
{ intros r. unfold mbind at 1, M_bind at 1. rewrite get_available_actions_eq.
  destruct (_ && _) eqn:E.
  { apply andb_prop in E as [?%bool_decide_eq_true ?%bool_decide_eq_true]. tauto. }
  cbn [available_champions]. by rewrite bool_decide_eq_false_2 by (intros ?; done). }
destruct (time_bonus_of t) as [tb|] eqn:Etb.
- destruct (score_pick_Return c
              (visible_hints (difficulty gs) (player_recommendations self gs)) t gs tb Etb)
    as (total & reasoning & extras & gs1 & Hscore & _).
  pose proof (score_pick_frame _ _ _ _ _ _ Hscore) as Hframe.
  exists {| mv_phase := current_phase gs1;
            mv_action := action_type_of (current_phase gs);
            mv_champion := c; mv_score := total; mv_reasoning := reasoning;
            mv_time_taken := t; mv_extras := extras |}, gs1.
  split_and!; try (rewrite Hframe; done); try discriminate.
  intros _ e s Hai. unfold make_move. rewrite Hstart.
  cbn [available_champions recommendations action_type].
  unfold mbind at 1, M_bind at 1. rewrite Hscore.
  unfold record_player_move in Hai. cbn [mv_action mv_score] in Hai.
  run.
  destruct (bool_decide (action_type_of (current_phase gs) = "ban"));
    cbn -[_ai_make_move] in *; by rewrite Hai.
- destruct (score_pick_Raise c
              (visible_hints (difficulty gs) (player_recommendations self gs)) t gs Etb)
    as (gs1 & Hscore & Hframe & _).
  exists {| mv_phase := 0; mv_action := ""; mv_champion := c; mv_score := 0;
            mv_reasoning := ""; mv_time_taken := t;
            mv_extras := {| bonuses := []; ex_streak := 0; ex_combo := 0;
                            ex_base := 0; ex_time_bonus := 0 |} |}, gs1.
  split_and!; try (rewrite Hframe; done); try (by intros [? ?]).
  intros _. unfold make_move. rewrite Hstart.
  cbn [available_champions recommendations action_type].
  unfold mbind at 1, M_bind at 1. by rewrite Hscore.
Qed.

(** A champion of the list that is handed out is accepted: when the time
  bonus does not overflow, the opponent has a champion left to choose and
  a known difficulty, and the draft does not end with this move,
  [make_move] returns the graded move. *)
Lemma make_move_accepts c t rnd now gs :
c ∈ take 50 (available (assistant self) gs) →
is_Some (time_bonus_of t) →
difficulty gs ∈ ["easy"; "medium"; "hard"; "pro"] →
(∃ c', c' ∈ available (assistant self) gs ∧ c' ≠ c) →
current_phase gs + 1 < 20 →
∃ o gs',
  make_move self c t rnd now gs = Return (MoveDone o) gs'
  ∧ mv_champion (player_move o) = c
  ∧ current_phase gs' = current_phase gs + 1.
Proof.
intros Hc [tb Htb] Hd (c' & Hc' & Hne) Hphase.
assert (¬ (difficulty gs = "hard" ∧ player_recommendations self gs = [])) as Hhard.
{ intros [_ Hnil%player_recommendations_nil]. rewrite Hnil in Hc.
  by apply elem_of_nil in Hc. }
destruct (score_pick_Return c
            (visible_hints (difficulty gs) (player_recommendations self gs)) t gs tb Htb)
  as (total & reasoning & extras & gs1 & Hscore & _).
pose proof (score_pick_frame _ _ _ _ _ _ Hscore) as Hframe.
set (mr := {| mv_phase := current_phase gs1;
              mv_action := action_type_of (current_phase gs);
              mv_champion := c; mv_score := total; mv_reasoning := reasoning;
              mv_time_taken := t; mv_extras := extras |}).
assert (difficulty gs1 = difficulty gs ∧ current_phase gs1 = current_phase gs
        ∧ player_picks gs1 = player_picks gs ∧ player_bans gs1 = player_bans gs
        ∧ ai_picks gs1 = ai_picks gs ∧ ai_bans gs1 = ai_bans gs)
  as (D1 & P1 & Hpp & Hpb & Hap & Hab) by (rewrite Hframe; done).
destruct (ai_make_move_total self (action_type_of (current_phase gs)) rnd
            (record_player_move c mr gs1)) as (mv & gs3 & Hai).
{ rewrite ai_recommendations_nil. intros Hnil.
  assert (c' ∈ available (assistant self) (record_player_move c mr gs1)) as Hin.
  { apply available_spec. apply available_spec in Hc' as (? & ? & ? & ? & ?).
    unfold record_player_move. case_bool_decide; cbn;
      rewrite ?Hpp, ?Hpb, ?Hap, ?Hab, ?elem_of_app, ?list_elem_of_singleton; tauto. }
  rewrite Hnil in Hin. by apply elem_of_nil in Hin. }
{ by rewrite record_player_move_difficulty, D1. }
pose proof Hai as Hai'.
apply ai_make_move_Return in Hai' as (chosen & _ & _ & _ & Hgs3).
assert (current_phase gs3 = current_phase gs) as P3.
{ rewrite Hgs3. unfold record_player_move. repeat case_bool_decide; cbn; done. }
eexists _, _. split; [|split].
- unfold make_move.
  unfold mbind at 1, M_bind at 1. rewrite get_available_actions_eq.
  destruct (_ && _) eqn:E.
  { apply andb_prop in E as [?%bool_decide_eq_true ?%bool_decide_eq_true]. tauto. }
  cbn [available_champions recommendations action_type].
  rewrite bool_decide_eq_false_2 by (intros ?; done).
  unfold mbind at 1, M_bind at 1. rewrite Hscore.
  subst mr. unfold record_player_move in Hai. cbn [mv_action mv_score] in Hai.
  run.
  destruct (bool_decide (action_type_of (current_phase gs) = "ban"));
    cbn -[_ai_make_move] in *; rewrite Hai; cbn; rewrite P3;
    (destruct (Z.leb_spec 20 (current_phase gs + 1)); [lia|]); reflexivity.
- reflexivity.
- cbn. lia.
Qed.

End MakeMove.

(** C3. In a fresh session of [league_engine] the first entry of the full
    recommendation list is "C00".  Submitted at difficulty "pro" it is graded
    as unranked (base 0, "Unconventional choice"); submitted at difficulty
    "easy" it is graded as rank 0 (base 100). *)
Theorem C3_rank_taken_among_hints :
  find_rank 0 "C00" (player_recommendations league_engine (league_session "pro")) = Some 0
  ∧ player_recommendations league_engine (league_session "easy")
    = player_recommendations league_engine (league_session "pro")
  ∧ (∃ o gs', make_move league_engine "C00" 30 0 0 (league_session "pro")
              = Return (MoveDone o) gs'
              ∧ ex_base (mv_extras (player_move o)) = 0
              ∧ mv_score (player_move o) = 0
              ∧ mv_reasoning (player_move o) = "Unconventional choice")
  ∧ (∃ o gs', make_move league_engine "C00" 30 0 0 (league_session "easy")
              = Return (MoveDone o) gs'
              ∧ ex_base (mv_extras (player_move o)) = 100).
Proof.
  split_and!.
  - by vm_compute.
  - by vm_compute.
  - eexists _, _. split; [vm_compute; reflexivity|]. done.
  - eexists _, _. split; [vm_compute; reflexivity|]. done.
Qed.

(** C4. In a fresh session of [league_engine] sixty champions are on offer;
    "C50" is one of them, picked and banned by nobody, and its submission is
    rejected as an invalid choice. *)
Theorem C4_unpicked_unbanned_rejected :
  let gs := league_session "medium" in
  "C50" ∈ available (assistant league_engine) gs
  ∧ ("C50" ∉ player_picks gs ++ ai_picks gs ++ player_bans gs ++ ai_bans gs)
  ∧ make_move league_engine "C50" 30 0 0 gs
    = Return (MoveError "Invalid champion choice") gs.
Proof.
  cbv zeta. split_and!.
  - apply (bool_decide_unpack _). by vm_compute.
  - apply (bool_decide_unpack _). by vm_compute.
  - by vm_compute.
Qed.

(** C9. [get_available_actions] hands out the first 50 entries of the pool
    of unpicked and unbanned champions (it returns unless the difficulty is
    "hard" and the pool is empty), and [make_move] validates against that
    list: a champion outside the list is rejected as an invalid choice with
    the session untouched, whatever the time taken; a champion on the list
    is never rejected, and is accepted and recorded when nothing later in
    [make_move] raises.  So whenever more than 50 champions are unpicked and
    unbanned, one of them is rejected as an invalid choice. *)
Theorem C9_valid_choices_truncated_to_50 self gs :
  NoDup (all_champions (assistant self)) →
  ((∃ actions, get_available_actions self gs = Return actions gs)
   ↔ ¬ (difficulty gs = "hard" ∧ available (assistant self) gs = []))
  ∧ (∀ actions gs',
       get_available_actions self gs = Return actions gs' →
       gs' = gs
       ∧ available_champions actions = take 50 (available (assistant self) gs)
       ∧ (length (available_champions actions) ≤ 50)%nat)
  ∧ (∀ c time_taken rnd now,
       c ∉ take 50 (available (assistant self) gs) →
       ¬ (difficulty gs = "hard" ∧ available (assistant self) gs = []) →
       make_move self c time_taken rnd now gs
       = Return (MoveError "Invalid champion choice") gs)
  ∧ (∀ c time_taken rnd now e gs',
       c ∈ take 50 (available (assistant self) gs) →
       make_move self c time_taken rnd now gs ≠ Return (MoveError e) gs')
  ∧ (∀ c time_taken rnd now,
       c ∈ take 50 (available (assistant self) gs) →
       is_Some (time_bonus_of time_taken) →
       difficulty gs ∈ ["easy"; "medium"; "hard"; "pro"] →
       (∃ c', c' ∈ available (assistant self) gs ∧ c' ≠ c) →
       current_phase gs + 1 < 20 →
       ∃ o gs',
         make_move self c time_taken rnd now gs = Return (MoveDone o) gs'
         ∧ mv_champion (player_move o) = c)
  ∧ ((50 < length (available (assistant self) gs))%nat →
     ∃ c,
       c ∈ all_champions (assistant self)
       ∧ (c ∉ player_picks gs) ∧ (c ∉ ai_picks gs)
       ∧ (c ∉ player_bans gs) ∧ (c ∉ ai_bans gs)
       ∧ ∀ time_taken rnd now,
           make_move self c time_taken rnd now gs
           = Return (MoveError "Invalid champion choice") gs).
Proof.
  intros Hnd.
  assert (∀ c t rnd now,
            c ∉ take 50 (available (assistant self) gs) →
            ¬ (difficulty gs = "hard" ∧ available (assistant self) gs = []) →
            make_move self c t rnd now gs
            = Return (MoveError "Invalid champion choice") gs) as Hreject.
  { intros c t rnd now Hc Hhard. apply make_move_reject; [done|].
    by rewrite player_recommendations_nil. }
  split_and!.
  - rewrite get_available_actions_eq, <- player_recommendations_nil. split.
    + intros [actions H] [Hd Hr]. by rewrite !bool_decide_eq_true_2 in H.
    + intros Hhard. destruct (_ && _) eqn:E; [|by eexists].
      apply andb_prop in E as [?%bool_decide_eq_true ?%bool_decide_eq_true]. tauto.
  - intros actions gs'. rewrite get_available_actions_eq.
    destruct (_ && _); [discriminate|]. intros [= <- <-]. cbn [available_champions].
    split_and!; [done|done|]. rewrite length_take. lia.
  - exact Hreject.
  - intros c t rnd now e gs' Hc H. apply make_move_rejected in H as (_ & _ & H). done.
  - intros c t rnd now Hc Ht Hd Hc' Hp.
    destruct (make_move_accepts self c t rnd now gs Hc Ht Hd Hc' Hp) as (o & gs' & H & Hm & _).
    by exists o, gs'.
  - intros Hlen.
    destruct (lookup_lt_is_Some_2 (available (assistant self) gs) 50 Hlen) as [c Hc].
    exists c.
    pose proof (list_elem_of_lookup_2 _ _ _ Hc) as Hin.
    apply available_spec in Hin as (? & ? & ? & ? & ?).
    split_and!; try done.
    intros t rnd now. apply Hreject.
    + apply lookup_take_not_elem; [|done]. by apply available_NoDup.
    + intros [_ Hnil]. rewrite Hnil in Hlen. simpl in Hlen. lia.
Qed.

(** C9: the hypothesis of the theorem holds of a fresh session of
    [league_engine], where sixty champions are unpicked and unbanned: one of
    them is rejected, and "C00", the first of the list, is accepted. *)
Lemma C9_witness :
  NoDup (all_champions (assistant league_engine))
  ∧ (50 < length (available (assistant league_engine) (league_session "medium")))%nat
  ∧ (∃ c,
       c ∈ all_champions (assistant league_engine)
       ∧ ∀ time_taken rnd now,
           make_move league_engine c time_taken rnd now (league_session "medium")
           = Return (MoveError "Invalid champion choice") (league_session "medium"))
  ∧ ∃ o gs',
      make_move league_engine "C00" 30 0 0 (league_session "medium")
      = Return (MoveDone o) gs'
      ∧ mv_champion (player_move o) = "C00".
Proof.
  assert (NoDup (all_champions (assistant league_engine))) as Hnd
    by (apply (bool_decide_unpack _); by vm_compute).
  assert (50 < length (available (assistant league_engine) (league_session "medium")))%nat
    as Hlen by (vm_compute; lia).
  split; [exact Hnd|]. split; [exact Hlen|].
  destruct (C9_valid_choices_truncated_to_50 league_engine (league_session "medium") Hnd)
    as (_ & _ & _ & _ & Hacc & Hrej).
  split.
  - destruct (Hrej Hlen) as (c & Hc & _ & _ & _ & _ & Hr).
    exists c. split; [exact Hc|exact Hr].
  - apply (Hacc "C00" 30%Q 0%nat 0).
    + apply (bool_decide_unpack _). by vm_compute.
    + vm_compute. by eexists.
    + apply (bool_decide_unpack _). by vm_compute.
    + exists "C01". split; [apply (bool_decide_unpack _); by vm_compute|discriminate].
    + vm_compute. reflexivity.
Defined.

(** C10. The step of the simulated opponent returns exactly when its
    recommendation list is non-empty and the difficulty of the session is
    one of "easy", "medium", "hard", "pro".  With "hard" or "pro" and an
    empty list it raises [IndexError] (the first recommendation is indexed
    without a guard); with any other difficulty no choice is assigned and it
    raises [UnboundLocalError].  In both cases [make_move], called with a
    champion that passes the validation, raises the same exception instead
    of returning an error value; only when the time bonus of the move
    overflows does it raise earlier, with [OverflowError]. *)
Theorem C10_opponent_step_partial self action_type rnd gs :
  ((∃ mv gs', _ai_make_move self action_type rnd gs = Return mv gs')
   ↔ ai_recommendations self action_type gs ≠ []
     ∧ difficulty gs ∈ ["easy"; "medium"; "hard"; "pro"])
  ∧ (difficulty gs ∈ ["hard"; "pro"] →
     ai_recommendations self action_type gs = [] →
     _ai_make_move self action_type rnd gs = Raise IndexError gs)
  ∧ (difficulty gs ∉ ["easy"; "medium"; "hard"; "pro"] →
     _ai_make_move self action_type rnd gs = Raise UnboundLocalError gs)
  ∧ (∀ c time_taken now,
       c ∈ take 50 (available (assistant self) gs) →
       let raised e :=
         match time_bonus_of time_taken with Some _ => e | None => OverflowError end in
       (difficulty gs ∉ ["easy"; "medium"; "hard"; "pro"] →
        ∃ gs', make_move self c time_taken rnd now gs = Raise (raised UnboundLocalError) gs')
       ∧ (difficulty gs ∈ ["hard"; "pro"] →
          available (assistant self) gs = [c] →
          ∃ gs', make_move self c time_taken rnd now gs = Raise (raised IndexError) gs')).
Proof.
  split_and!.
  - split.
    + intros (mv & gs' & H). apply ai_make_move_Return in H as (ch & Hin & _ & Hd & _).
      split; [|done]. intros Hnil. rewrite Hnil in Hin. by apply elem_of_nil in Hin.
    + intros [Hrecs Hd]. by apply ai_make_move_total.
  - intros Hd Hrecs. apply ai_make_move_IndexError; [done|].
    revert Hd. rewrite !elem_of_cons. tauto.
  - apply ai_make_move_UnboundLocalError.
  - intros c t now Hc raised.
    destruct (make_move_valid self c t rnd now gs Hc)
      as (mr & gs1 & Hd1 & Hpp & Hpb & Hap & Hab & Hover & Hraise).
    subst raised. cbv beta.
    destruct (time_bonus_of t) as [tb|]; [|split; intros; exists gs1; by apply Hover].
    specialize (Hraise ltac:(by eexists)).
    split.
    + intros Hd. eexists. apply Hraise. apply ai_make_move_UnboundLocalError.
      by rewrite record_player_move_difficulty, Hd1.
    + intros Hd Havail. eexists. apply Hraise. apply ai_make_move_IndexError.
      * apply ai_recommendations_nil.
        destruct (available _ (record_player_move _ _ _)) as [|x l] eqn:E; [done|].
        assert (x ∈ available (assistant self) (record_player_move c mr gs1)) as Hx
          by (rewrite E; left).
        apply available_after_move in Hx as [Hx Hne].
        rewrite (available_ext _ gs gs1), Havail in Hx by done.
        by apply list_elem_of_singleton in Hx.
      * rewrite record_player_move_difficulty, Hd1.
        revert Hd. rewrite !elem_of_cons. tauto.
Qed.

(** A session of unknown difficulty: the ban of the player is recorded, the
    opponent step raises, and the phase index stays where it was. *)
Example opponent_unknown_difficulty :
  ∃ gs', make_move league_engine "C00" 30 0 0 (league_session "legendary")
         = Raise UnboundLocalError gs'
         ∧ player_bans gs' = ["C00"] ∧ current_phase gs' = 0.
Proof. eexists. split; [vm_compute; reflexivity|]. done. Qed.

(** ** The phases of a session *)

(** The action of the phases 0..19, by cases. *)
Lemma action_type_of_table i :
  0 ≤ i < 20 →
  action_type_of i = if bool_decide (i ∈ [0; 1; 2; 5; 6; 11; 12]) then "ban" else "pick".
Proof.
  intros Hi.
  assert (i = 0 ∨ i = 1 ∨ i = 2 ∨ i = 3 ∨ i = 4 ∨ i = 5 ∨ i = 6 ∨ i = 7 ∨ i = 8 ∨ i = 9
          ∨ i = 10 ∨ i = 11 ∨ i = 12 ∨ i = 13 ∨ i = 14 ∨ i = 15 ∨ i = 16 ∨ i = 17
          ∨ i = 18 ∨ i = 19) as Hcases by lia.
  repeat destruct Hcases as [->|Hcases]; try subst i; reflexivity.
Qed.

Lemma action_type_of_ban i : action_type_of i = "ban" ↔ i ∈ [0; 1; 2; 5; 6; 11; 12].
Proof.
  unfold action_type_of. change ban_phases with [0; 1; 2; 5; 6; 11; 12].
  case_bool_decide; split; try done.
Qed.

Lemma play_invariant self moves : ∀ gs gs',
  play self moves gs = Some gs' →
  current_phase gs' = current_phase gs + Z.of_nat (length moves)
  ∧ difficulty gs' = difficulty gs
  ∧ (NoDup (achievements gs) → NoDup (achievements gs'))
  ∧ ((is_Some (completed_at gs) ↔ 20 ≤ current_phase gs) →
     (is_Some (completed_at gs') ↔ 20 ≤ current_phase gs')).
Proof.
  induction moves as [|[[[c t] rnd] now] moves IH]; intros gs gs' H; simpl in H.
  - injection H as <-. simpl. split_and!; [lia|done..].
  - destruct (make_move self c t rnd now gs) as [[e|o] gs1|e gs1] eqn:E; try discriminate.
    apply make_move_fields in E as (P & _ & C & Nd & _ & _ & _ & _ & _ & _ & D).
    apply IH in H as (P' & D' & Nd' & C').
    split_and!.
    + rewrite P', P. simpl length. lia.
    + congruence.
    + auto.
    + intros Hinv. apply C'. rewrite C.
      destruct (Z.leb_spec 20 (current_phase gs1)); [split; [done|by eexists]|].
      rewrite Hinv. lia.
Qed.

(** What holds of the phase index.  A session starts at phase index 0;
    after a series of accepted moves the index is the number of moves, and
    [completed_at] is set exactly when the index is 20 or more; an accepted
    move is recorded for the current index and raises it by exactly 1;
    within 0..19 the action is "ban" exactly at 0, 1, 2, 5, 6, 11, 12 and
    "pick" elsewhere. *)
Lemma phase_index_advances_by_one
    self game_id player_name difficulty m started moves gs :
  play self moves (new_game_state game_id player_name difficulty m started) = Some gs →
  current_phase (new_game_state game_id player_name difficulty m started) = 0
  ∧ current_phase gs = Z.of_nat (length moves)
  ∧ (is_Some (completed_at gs) ↔ 20 ≤ current_phase gs)
  ∧ (∀ c t rnd now o gs',
       make_move self c t rnd now gs = Return (MoveDone o) gs' →
       mv_phase (player_move o) = current_phase gs
       ∧ mv_action (player_move o) = action_type_of (current_phase gs)
       ∧ current_phase gs' = current_phase gs + 1
       ∧ (game_complete o = true ↔ 20 ≤ current_phase gs')
       ∧ (is_Some (completed_at gs') ↔ 20 ≤ current_phase gs'))
  ∧ (∀ i, 0 ≤ i < 20 →
       action_type_of i
       = if bool_decide (i ∈ [0; 1; 2; 5; 6; 11; 12]) then "ban" else "pick").
Proof.
  intros Hplay.
  apply play_invariant in Hplay as (P & _ & _ & C). simpl in P, C.
  assert (is_Some (completed_at gs) ↔ 20 ≤ current_phase gs) as Hc.
  { apply C. split; [by intros [? ?]|lia]. }
  split_and!; [done|lia|done| |apply action_type_of_table].
  intros c t rnd now o gs' Hmove.
  apply make_move_fields in Hmove as (P' & G & C' & _ & Mp & Ma & _).
  split_and!; [done|done|done| |].
  - rewrite G. apply Z.leb_le.
  - rewrite C'. destruct (Z.leb_spec 20 (current_phase gs')); [split; [done|by eexists]|].
    rewrite Hc. lia.
Qed.

(** C5.  The session of [league_engine] reached by [twenty_moves] is at
    phase index 20 and completed (at clock reading 0, with 800 points and 13
    picks of the player).  A twenty-first move is accepted all the same: it
    is graded as a pick of phase 20, brings the index to 21, adds its 625
    points and a fourteenth pick, and the session is completed a second
    time, at clock reading 1. *)
Theorem C5_move_accepted_after_completion :
  play league_engine twenty_moves (league_session "hard") = Some session_after_twenty
  ∧ current_phase session_after_twenty = 20
  ∧ completed_at session_after_twenty = Some 0
  ∧ score session_after_twenty = 800
  ∧ length (player_picks session_after_twenty) = 13%nat
  ∧ ∃ o gs',
      make_move league_engine "C43" 5 0 1 session_after_twenty = Return (MoveDone o) gs'
      ∧ mv_phase (player_move o) = 20
      ∧ mv_action (player_move o) = "pick"
      ∧ mv_score (player_move o) = 625
      ∧ game_complete o = true
      ∧ current_phase gs' = 21
      ∧ score gs' = 1425
      ∧ length (player_picks gs') = 14%nat
      ∧ completed_at gs' = Some 1.
Proof.
  split; [vm_compute; reflexivity|].
  split; [vm_compute; reflexivity|].
  split; [vm_compute; reflexivity|].
  split; [vm_compute; reflexivity|].
  split; [vm_compute; reflexivity|].
  eexists _, _. split; [vm_compute; reflexivity|].
  split_and!; vm_compute; reflexivity.
Qed.

(** ** The registry of sessions *)

Lemma set_active_games_id self :
  set_active_games (active_games self) self = self.
Proof. by destruct self. Qed.

Lemma api_make_move_unknown game_id c t rnd now self :
  active_games self !! game_id = None →
  api_make_move game_id c t rnd now self = Raise KeyError self.
Proof. intros H. unfold api_make_move, on_game. by rewrite H. Qed.

(** A rejected move leaves the whole registry as it was. *)
Lemma api_make_move_rejected game_id c t rnd now self e self' :
  api_make_move game_id c t rnd now self = Return (MoveError e) self' →
  e = "Invalid champion choice" ∧ self' = self.
Proof.
  unfold api_make_move, on_game.
  destruct (active_games self !! game_id) as [gs|] eqn:Hgs; [|discriminate].
  destruct (make_move self c t rnd now gs) as [r gs'|x gs'] eqn:Hm; [|discriminate].
  intros [= -> <-].
  apply make_move_rejected in Hm as (-> & -> & _).
  split; [done|]. rewrite insert_id by done. apply set_active_games_id.
Qed.

(** [start_new_game] registers a session at phase index 0, provided the
    engine has a match to draw. *)
Lemma start_new_game_Return player_name difficulty rnd now self :
  matches self ≠ [] →
  ∃ m gs self',
    m ∈ matches self
    ∧ gs = new_game_state ("game_" +:+ str_of_Z now) player_name difficulty m now
    ∧ start_new_game player_name difficulty rnd now self = Return gs self'
    ∧ active_games self' !! game_id gs = Some gs
    ∧ current_phase gs = 0.
Proof.
  intros Hm. unfold start_new_game, random_choice.
  assert (rnd mod length (matches self) < length (matches self))%nat as Hlt.
  { apply Nat.mod_upper_bound. by destruct (matches self). }
  destruct (lookup_lt_is_Some_2 _ _ Hlt) as [m Hlk].
  exists m. eexists _, _. split; [by eapply list_elem_of_lookup_2|].
  split; [reflexivity|]. run. cbn. rewrite Hlk. cbn. split; [reflexivity|].
  split; [|done]. cbn. apply lookup_insert_eq.
Qed.

Lemma league_assistant_ok : assistant_of league league_assistant.
Proof.
  split; [done|]. split; [done|]. split.
  - apply (bool_decide_unpack _). by vm_compute.
  - assert (sequence_champions league = all_champions league_assistant) as ->
      by (vm_compute; reflexivity).
    done.
Qed.

Lemma league_session_started :
  ∃ self', start_new_game "player" "hard" 0 0 league_engine
           = Return (league_session "hard") self'.
Proof. eexists. vm_compute. reflexivity. Qed.

(** * Further properties *)

(** ** Folds and fractions *)

Lemma fold_left_invariant {A B} (P : A → Prop) (f : A → B → A) (l : list B) (a : A) :
  P a → (∀ a b, b ∈ l → P a → P (f a b)) → P (fold_left f l a).
Proof.
  revert a. induction l as [|b l IH]; intros a Ha Hstep; simpl; [done|].
  apply IH.
  - apply Hstep; [left|done].
  - intros a' b' Hb'. apply Hstep. by right.
Qed.

(** A fraction of two counts, the numerator between 0 and the denominator. *)
Lemma Zdiv_float_unit (w n : Z) :
  0 ≤ w ≤ n → 0 < n → (0 <= Zdiv_float w n <= 1)%Q.
Proof.
  intros [H0 Hn] Hpos. unfold Zdiv_float.
  assert (0 < inject_Z n)%Q as Hq by (unfold Qlt; simpl; lia).
  split.
  - apply Qle_shift_div_l; [done|]. rewrite Qmult_0_l. unfold Qle; simpl; lia.
  - apply Qle_shift_div_r; [done|]. rewrite Qmult_1_l. unfold Qle; simpl; lia.
Qed.

(** ** The counting tables of [build_from_matches] *)

Section Counting.
Context `{Countable K}.

Lemma counts_wins_empty : counts_wins (∅ : gmap K Z) ∅.
Proof. split; [intros k n; by rewrite lookup_empty|]. intros k. unfold dget. by rewrite !lookup_empty. Qed.

Lemma dget_incr (k k' : K) (m : gmap K Z) :
  dget (incr k m) k' = if decide (k = k') then dget m k' + 1 else dget m k'.
Proof.
  unfold incr, dget at 1. destruct (decide (k = k')) as [->|Hne].
  - by rewrite lookup_insert_eq.
  - by rewrite lookup_insert_ne.
Qed.

Lemma counts_wins_step (won : bool) (k : K) (w g : gmap K Z) :
  counts_wins w g → counts_wins (if won then incr k w else w) (incr k g).
Proof.
  intros [Hpos Hle]. split.
  - intros k' n. unfold incr. destruct (decide (k = k')) as [->|Hne].
    + rewrite lookup_insert_eq. intros [= <-]. specialize (Hle k'). lia.
    + rewrite lookup_insert_ne by done. apply Hpos.
  - intros k'. specialize (Hle k'). rewrite dget_incr.
    destruct won; [rewrite dget_incr|]; destruct (decide (k = k')); lia.
Qed.

Lemma counts_wins_fold (won : bool) (ks : list K) (w g : gmap K Z) :
  counts_wins w g →
  counts_wins (fold_left (λ m k, if won then incr k m else m) ks w)
              (fold_left (λ m k, incr k m) ks g).
Proof.
  revert w g. induction ks as [|k ks IH]; intros w g Hc; simpl; [done|].
  apply IH. by apply counts_wins_step.
Qed.

(** A key that enters a table of games is one of the keys counted. *)
Lemma incr_fold_None (ks : list K) (m : gmap K Z) (k : K) :
  m !! k = None → k ∉ ks → fold_left (λ m k, incr k m) ks m !! k = None.
Proof.
  intros Hm Hk. destruct (fold_left _ ks m !! k) eqn:E; [|done].
  destruct (incr_fold_keys ks m k) as [Hs|Hin]; [by eexists| |done].
  rewrite Hm in Hs. by destruct Hs.
Qed.

End Counting.

Lemma tally_team_counted d t ts : tallies_counted t → tallies_counted (tally_team d t ts).
Proof.
  intros (H1 & H2 & H3). unfold tallies_counted, tally_team. cbn.
  split_and!; by apply counts_wins_fold.
Qed.

Lemma tally_counted parsed_matches : tallies_counted (tally parsed_matches).
Proof.
  unfold tally. apply fold_left_invariant.
  - split_and!; apply counts_wins_empty.
  - intros t m _ Ht. unfold tally_match. apply fold_left_invariant; [done|].
    intros t' ts _ Ht'. by apply tally_team_counted.
Qed.

(** ** Win rates and pick rates of a built graph *)

Lemma counter_fold_win_rates t items g :
  win_rates (fold_left (counter_step t) items g) = win_rates g.
Proof.
  apply (fold_left_invariant (λ g', win_rates g' = win_rates g)); [done|].
  intros g' [[a b] n] _ <-. simpl. by destruct (3 <=? n).
Qed.

Lemma pick_rate_fold_win_rates total items g :
  win_rates (fold_left (pick_rate_step total) items g) = win_rates g.
Proof.
  apply (fold_left_invariant (λ g', win_rates g' = win_rates g)); [done|].
  by intros g' [a n] _ <-.
Qed.

Lemma synergy_fold_pick_rates t items g :
  pick_rates (fold_left (synergy_step t) items g) = pick_rates g.
Proof.
  apply (fold_left_invariant (λ g', pick_rates g' = pick_rates g)); [done|].
  intros g' [[a b] n] _ <-. simpl. by destruct (3 <=? n).
Qed.

Lemma counter_fold_pick_rates t items g :
  pick_rates (fold_left (counter_step t) items g) = pick_rates g.
Proof.
  apply (fold_left_invariant (λ g', pick_rates g' = pick_rates g)); [done|].
  intros g' [[a b] n] _ <-. simpl. by destruct (3 <=? n).
Qed.

Lemma win_rate_fold_pick_rates t items g :
  pick_rates (fold_left (win_rate_step t) items g) = pick_rates g.
Proof.
  apply (fold_left_invariant (λ g', pick_rates g' = pick_rates g)); [done|].
  intros g' [a n] _ <-. simpl. by destruct (0 <? n).
Qed.

(** The pass "Calculate win rates" over items of the table of games. *)
Lemma win_rate_fold_lookup t items g c :
  (∀ a n, (a, n) ∈ items → champion_games t !! a = Some n ∧ 1 ≤ n) →
  win_rates (fold_left (win_rate_step t) items g) !! c
  = if bool_decide (c ∈ items.*1)
    then Some (Zdiv_float (dget (champion_wins t) c) (dget (champion_games t) c))
    else win_rates g !! c.
Proof.
  induction items as [|[a n] items IH] using rev_ind; intros Hitems.
  { cbn [fold_left]. case_bool_decide as E; [by apply elem_of_nil in E|done]. }
  rewrite fold_left_app. cbn [fold_left win_rate_step].
  destruct (Hitems a n) as [Ha Hn]; [apply elem_of_app; right; left|].
  rewrite (proj2 (Z.ltb_lt 0 n)) by lia. cbn [win_rates].
  rewrite fmap_app. cbn [fmap list_fmap fst].
  destruct (decide (a = c)) as [->|Hne].
  - rewrite lookup_insert_eq. rewrite bool_decide_eq_true_2.
    + replace (dget (champion_games t) c) with n; [done|]. unfold dget. by rewrite Ha.
    + apply elem_of_app. right. left.
  - rewrite lookup_insert_ne by done. rewrite IH.
    + rewrite (bool_decide_ext (c ∈ items.*1 ++ [a]) (c ∈ items.*1)); [done|].
      rewrite elem_of_app, list_elem_of_singleton.
      split; [intros [?|?]; [done|congruence]|auto].
    + intros a' n' Hin. apply Hitems. apply elem_of_app. by left.
Qed.

(** The pass "Calculate pick rates". *)
Lemma pick_rate_fold_lookup total (games : gmap string Z) items g c :
  (∀ a n, (a, n) ∈ items → games !! a = Some n) →
  pick_rates (fold_left (pick_rate_step total) items g) !! c
  = if bool_decide (c ∈ items.*1)
    then Some (Zdiv_float (dget games c) total)
    else pick_rates g !! c.
Proof.
  induction items as [|[a n] items IH] using rev_ind; intros Hitems.
  { cbn [fold_left]. case_bool_decide as E; [by apply elem_of_nil in E|done]. }
  rewrite fold_left_app. cbn [fold_left pick_rate_step pick_rates].
  pose proof (Hitems a n) as Ha. rewrite fmap_app. cbn [fmap list_fmap fst].
  destruct (decide (a = c)) as [->|Hne].
  - rewrite lookup_insert_eq. rewrite bool_decide_eq_true_2.
    + replace (dget games c) with n; [done|]. unfold dget. rewrite Ha; [done|].
      apply elem_of_app; right; left.
    + apply elem_of_app. right. left.
  - rewrite lookup_insert_ne by done. rewrite IH.
    + rewrite (bool_decide_ext (c ∈ items.*1 ++ [a]) (c ∈ items.*1)); [done|].
      rewrite elem_of_app, list_elem_of_singleton.
      split; [intros [?|?]; [done|congruence]|auto].
    + intros a' n' Hin. apply Hitems. apply elem_of_app. by left.
Qed.

(** The keys of the table of games are champions picked by a team that the
    match lists in its [team_stats]. *)
Lemma champion_games_picked parsed_matches c :
  is_Some (champion_games (tally parsed_matches) !! c) →
  ∃ m ts, m ∈ parsed_matches ∧ ts ∈ team_stats m
          ∧ c ∈ get_team_picks (draft m) (ts_team_id ts).
Proof.
  unfold tally.
  set (P := λ (ms : list Match) (t : Tallies), ∀ c, is_Some (champion_games t !! c) →
              ∃ m ts, m ∈ ms ∧ ts ∈ team_stats m
                      ∧ c ∈ get_team_picks (draft m) (ts_team_id ts)).
  enough (∀ ms t, P ms t → P (ms ++ parsed_matches) (fold_left tally_match parsed_matches t)) as Hgen.
  { apply (Hgen [] Tallies_init). intros c' Hc'. cbn in Hc'. rewrite lookup_empty in Hc'.
    by destruct Hc'. }
  induction parsed_matches as [|m ms' IH]; intros ms t Ht.
  { by rewrite app_nil_r. }
  replace (ms ++ m :: ms') with ((ms ++ [m]) ++ ms') by (by rewrite <- app_assoc).
  simpl. apply IH. unfold tally_match.
  enough (∀ tss t, (∀ ts, ts ∈ tss → ts ∈ team_stats m) → P (ms ++ [m]) t →
                   P (ms ++ [m]) (fold_left (tally_team (draft m)) tss t)) as Hteams.
  { apply Hteams; [done|]. intros c' Hc'. destruct (Ht c' Hc') as (m' & ts & Hm' & Hts).
    exists m', ts. split; [|done]. apply elem_of_app. by left. }
  clear. induction tss as [|ts tss IH]; intros t Hsub Ht; simpl; [done|].
  apply IH; [intros ts' Hts'; apply Hsub; by right|].
  intros c' Hc'. cbn [champion_games tally_team] in Hc'.
  apply incr_fold_keys in Hc' as [Hc'|Hc']; [by apply Ht|].
  exists m, ts. split_and!; [apply elem_of_app; right; left|apply Hsub; left|done].
Qed.

Lemma build_from_matches_win_rates parsed_matches :
  let t := tally parsed_matches in
  win_rates (build_from_matches ChampionGraph_init parsed_matches)
  = win_rates (fold_left (win_rate_step t) (map_to_list (champion_games t)) ChampionGraph_init).
Proof.
  cbv zeta. unfold build_from_matches. rewrite pick_rate_fold_win_rates.
  set (t := tally parsed_matches).
  set (items := map_to_list (champion_games t)).
  assert (∀ g g', win_rates g = win_rates g' →
            win_rates (fold_left (win_rate_step t) items g)
            = win_rates (fold_left (win_rate_step t) items g')) as Hext.
  { induction items as [|[a n] items IH]; intros g g' Hg; simpl; [done|].
    apply IH. simpl. destruct (0 <? n); cbn [win_rates]; by rewrite Hg. }
  apply Hext. by rewrite counter_fold_win_rates, synergy_fold_win_rates.
Qed.

Lemma build_from_matches_pick_rates parsed_matches :
  let t := tally parsed_matches in
  pick_rates (build_from_matches ChampionGraph_init parsed_matches)
  = pick_rates (fold_left (pick_rate_step (Z.of_nat (length parsed_matches)))
                  (map_to_list (champion_games t)) ChampionGraph_init).
Proof.
  cbv zeta. unfold build_from_matches.
  set (t := tally parsed_matches).
  set (items := map_to_list (champion_games t)).
  set (total := Z.of_nat (length parsed_matches)).
  assert (∀ g g', pick_rates g = pick_rates g' →
            pick_rates (fold_left (pick_rate_step total) items g)
            = pick_rates (fold_left (pick_rate_step total) items g')) as Hext.
  { induction items as [|[a n] items IH]; intros g g' Hg; simpl; [done|].
    apply IH. cbn [pick_rates]. by rewrite Hg. }
  apply Hext.
  by rewrite win_rate_fold_pick_rates, counter_fold_pick_rates, synergy_fold_pick_rates.
Qed.

Lemma elem_of_map_to_list_keys (m : gmap string Z) (c : string) :
  c ∈ (map_to_list m).*1 ↔ is_Some (m !! c).
Proof.
  rewrite list_elem_of_fmap. split.
  - intros ([a n] & -> & Hin%elem_of_map_to_list). by eexists.
  - intros [n Hn]. exists (c, n). split; [done|]. by apply elem_of_map_to_list.
Qed.

Lemma built_win_rate parsed_matches c :
  let t := tally parsed_matches in
  let g := build_from_matches ChampionGraph_init parsed_matches in
  (0 <= win_rate g c <= 1)%Q
  ∧ (∀ games, champion_games t !! c = Some games →
       1 ≤ games ∧ 0 ≤ dget (champion_wins t) c ≤ games
       ∧ win_rate g c = Zdiv_float (dget (champion_wins t) c) games)
  ∧ ((∀ m ts, m ∈ parsed_matches → ts ∈ team_stats m →
        c ∉ get_team_picks (draft m) (ts_team_id ts)) →
     win_rate g c = (1#2)%Q).
Proof.
  intros t g.
  destruct (tally_counted parsed_matches) as ([Hpos Hle] & _). fold t in Hpos, Hle.
  assert (win_rates g !! c
          = if bool_decide (is_Some (champion_games t !! c))
            then Some (Zdiv_float (dget (champion_wins t) c) (dget (champion_games t) c))
            else None) as Hlk.
  { subst g. rewrite build_from_matches_win_rates. fold t.
    rewrite win_rate_fold_lookup.
    - rewrite (bool_decide_ext _ _ (elem_of_map_to_list_keys _ c)).
      by destruct (bool_decide _).
    - intros a n Hin%elem_of_map_to_list. split; [done|]. by eapply Hpos. }
  assert (∀ games, champion_games t !! c = Some games →
            1 ≤ games ∧ 0 ≤ dget (champion_wins t) c ≤ games
            ∧ win_rate g c = Zdiv_float (dget (champion_wins t) c) games) as Hsome.
  { intros games Hg. pose proof (Hpos _ _ Hg). pose proof (Hle c) as Hc.
    unfold win_rate. rewrite Hlk. rewrite bool_decide_eq_true_2 by (by eexists).
    assert (dget (champion_games t) c = games) as Hd by (unfold dget; by rewrite Hg).
    rewrite Hd in *. done. }
  assert (champion_games t !! c = None → win_rate g c = (1#2)%Q) as Hnone.
  { intros Hg. unfold win_rate. rewrite Hlk, Hg.
    rewrite bool_decide_eq_false_2; [done|]. by intros [? ?]. }
  split; [|split].
  - destruct (champion_games t !! c) as [games|] eqn:Hg.
    + destruct (Hsome games eq_refl) as (H1 & H2 & ->). apply Zdiv_float_unit; lia.
    + rewrite Hnone by done. by vm_compute.
  - exact Hsome.
  - intros Hnot. apply Hnone.
    destruct (champion_games t !! c) eqn:Hg; [|done].
    destruct (champion_games_picked parsed_matches c) as (m & ts & Hm & Hts & Hc);
      [by eexists|].
    by destruct (Hnot m ts).
Qed.

(** X1. In the graph that [build_from_matches] fills from a fresh
    [ChampionGraph], the win rate of every champion lies in [0,1].  For a
    champion counted in [champion_games] it is the number of its wins over
    the number of its games, which is at least 1 (no division by zero); for
    a champion that no listed team picked it is the default 0.5. *)
Theorem build_from_matches_win_rate parsed_matches c :
  let t := tally parsed_matches in
  let g := build_from_matches ChampionGraph_init parsed_matches in
  (0 <= win_rate g c <= 1)%Q
  ∧ (∀ games, champion_games t !! c = Some games →
       1 ≤ games ∧ 0 ≤ dget (champion_wins t) c ≤ games
       ∧ win_rate g c = Zdiv_float (dget (champion_wins t) c) games)
  ∧ ((∀ m ts, m ∈ parsed_matches → ts ∈ team_stats m →
        c ∉ get_team_picks (draft m) (ts_team_id ts)) →
     win_rate g c = (1#2)%Q).
Proof. apply built_win_rate. Qed.

Lemma Zdiv_float_nonneg (a b : Z) : 0 ≤ a → 0 ≤ b → (0 <= Zdiv_float a b)%Q.
Proof.
  intros Ha Hb. unfold Zdiv_float, Qdiv. apply Qmult_le_0_compat.
  - unfold Qle; simpl; lia.
  - apply Qinv_le_0_compat. unfold Qle; simpl; lia.
Qed.

Lemma built_pick_rate parsed_matches c :
  let t := tally parsed_matches in
  let g := build_from_matches ChampionGraph_init parsed_matches in
  pick_rate g c
  = match champion_games t !! c with
    | Some games => Zdiv_float games (Z.of_nat (length parsed_matches))
    | None => 0%Q
    end.
Proof.
  intros t g. unfold pick_rate. subst g. rewrite build_from_matches_pick_rates. fold t.
  rewrite (pick_rate_fold_lookup _ (champion_games t)).
  - rewrite (bool_decide_ext _ _ (elem_of_map_to_list_keys _ c)).
    unfold dget. destruct (champion_games t !! c) as [games|] eqn:Hg.
    + by rewrite bool_decide_eq_true_2 by (by eexists).
    + rewrite bool_decide_eq_false_2; [done|]. by intros [? ?].
  - by intros a n Hin%elem_of_map_to_list.
Qed.

Lemma built_pick_rate_nonneg parsed_matches c :
  (0 <= pick_rate (build_from_matches ChampionGraph_init parsed_matches) c)%Q.
Proof.
  rewrite built_pick_rate.
  destruct (tally_counted parsed_matches) as ([Hpos _] & _).
  destruct (champion_games _ !! c) as [games|] eqn:Hg; [|done].
  apply Zdiv_float_nonneg; [|lia]. specialize (Hpos _ _ Hg). lia.
Qed.

(** The popularity bonus of [get_champion_power] is between 0 and 0.1 when
    the pick rate is not negative. *)
Lemma get_champion_power_bonus g c :
  (0 <= pick_rate g c)%Q →
  (win_rate g c <= get_champion_power g c <= win_rate g c + (1#10))%Q.
Proof.
  intros Hp. unfold get_champion_power, Qmin'.
  assert (0 <= pick_rate g c * (2#10))%Q as Hb.
  { apply Qmult_le_0_compat; [done|]. by vm_compute. }
  destruct (Qlt_le_dec _ _) as [Hlt|Hge]; split.
  - rewrite <- (Qplus_0_r (win_rate g c)) at 1. apply Qplus_le_r. by vm_compute.
  - apply Qle_refl.
  - rewrite <- (Qplus_0_r (win_rate g c)) at 1. by apply Qplus_le_r.
  - by apply Qplus_le_r.
Qed.

(** X2. In a graph built from a fresh [ChampionGraph] the pick rate of a
    champion is its number of games over the number of matches (0 for a
    champion that is not counted), the corpus being non-empty whenever a
    champion is counted; it is never negative.  [get_champion_power] adds to
    the win rate a popularity bonus between 0 and 0.1, so the power of every
    champion lies between 0 and 1.1. *)
Theorem build_from_matches_champion_power parsed_matches c :
  let t := tally parsed_matches in
  let g := build_from_matches ChampionGraph_init parsed_matches in
  pick_rate g c
  = match champion_games t !! c with
    | Some games => Zdiv_float games (Z.of_nat (length parsed_matches))
    | None => 0%Q
    end
  ∧ (is_Some (champion_games t !! c) → parsed_matches ≠ [])
  ∧ (0 <= pick_rate g c)%Q
  ∧ (win_rate g c <= get_champion_power g c <= win_rate g c + (1#10))%Q
  ∧ (0 <= get_champion_power g c <= 11#10)%Q.
Proof.
  intros t g.
  pose proof (built_pick_rate_nonneg parsed_matches c) as Hp. fold g in Hp.
  pose proof (get_champion_power_bonus g c Hp) as [Hlo Hhi].
  destruct (built_win_rate parsed_matches c) as ([H0 H1] & _). fold g in H0, H1.
  split; [apply built_pick_rate|]. split.
  { intros Hs. destruct (champion_games_picked parsed_matches c Hs) as (m & _ & Hm & _).
    intros ->. by apply elem_of_nil in Hm. }
  split; [done|]. split; [done|]. split.
  - by eapply Qle_trans.
  - eapply Qle_trans; [exact Hhi|].
    eapply Qle_trans; [apply Qplus_le_l; exact H1|]. by vm_compute.
Qed.

(** ** Synergies and counters of a built graph *)

Lemma synergy_fold_counters t items g :
  counters (fold_left (synergy_step t) items g) = counters g.
Proof.
  apply (fold_left_invariant (λ g', counters g' = counters g)); [done|].
  intros g' [[a b] n] _ <-. simpl. by destruct (3 <=? n).
Qed.

Lemma win_rate_fold_counters t items g :
  counters (fold_left (win_rate_step t) items g) = counters g.
Proof.
  apply (fold_left_invariant (λ g', counters g' = counters g)); [done|].
  intros g' [a n] _ <-. simpl. by destruct (0 <? n).
Qed.

Lemma pick_rate_fold_counters total items g :
  counters (fold_left (pick_rate_step total) items g) = counters g.
Proof.
  apply (fold_left_invariant (λ g', counters g' = counters g)); [done|].
  by intros g' [a n] _ <-.
Qed.

(** The items of a table of games, against the table of wins. *)
Lemma counts_wins_item `{Countable K} (w g : gmap K Z) k n :
  counts_wins w g → (k, n) ∈ map_to_list g → 1 ≤ n ∧ 0 ≤ dget w k ≤ n.
Proof.
  intros [Hpos Hle] Hin%elem_of_map_to_list. split; [by eapply Hpos|].
  specialize (Hle k). replace (dget g k) with n in Hle; [done|].
  unfold dget. by rewrite Hin.
Qed.

(** Every synergy of a built graph is stored for both orders of the pair
    and lies between -0.5 and 0.5. *)
Lemma built_synergy parsed_matches a b :
  let g := build_from_matches ChampionGraph_init parsed_matches in
  synergy g a b = synergy g b a ∧ (-(1#2) <= synergy g a b <= 1#2)%Q.
Proof.
  cbv zeta. unfold build_from_matches, synergy.
  rewrite pick_rate_fold_synergies, win_rate_fold_synergies, counter_fold_synergies.
  set (t := tally parsed_matches).
  destruct (tally_counted parsed_matches) as (_ & Hc & _). fold t in Hc.
  revert a b.
  apply (fold_left_invariant
           (λ g, win_rates g = ∅
                 ∧ ∀ a b, get2 (synergies g) a b 0%Q = get2 (synergies g) b a 0%Q
                          ∧ (-(1#2) <= get2 (synergies g) a b 0 <= 1#2)%Q)).
  - split; [done|]. intros a b. split; [done|]. by vm_compute.
  - intros g [[c1 c2] count] Hin [Hwr IH]. simpl.
    destruct (3 <=? count) eqn:E; [|done]. cbn [win_rates synergies].
    split; [done|]. intros a b. rewrite !get2_set2.
    destruct (counts_wins_item _ _ _ _ Hc Hin) as [Hn Hw].
    apply Z.leb_le in E.
    pose proof (Zdiv_float_unit _ _ Hw ltac:(lia)) as Hfrac.
    unfold win_rate. rewrite Hwr, !lookup_empty. cbn [default].
    set (wr := Zdiv_float _ count) in *.
    assert (-(1#2) <= wr - ((1#2) + (1#2)) / 2 <= 1#2)%Q as Hsyn.
    { assert (wr - ((1#2) + (1#2)) / 2 == wr - (1#2))%Q as -> by field. lra. }
    destruct (IH a b) as [Hsym Hb].
    repeat case_bool_decide;
      first [by split | exfalso; intuition congruence].
Qed.

(** Every counter value of a built graph lies between 0 and 1. *)
Lemma built_counter parsed_matches a b :
  let g := build_from_matches ChampionGraph_init parsed_matches in
  (0 <= counter g a b <= 1)%Q.
Proof.
  cbv zeta. unfold build_from_matches, counter.
  rewrite pick_rate_fold_counters, win_rate_fold_counters.
  set (t := tally parsed_matches).
  destruct (tally_counted parsed_matches) as (_ & _ & Hc). fold t in Hc.
  revert a b.
  apply (fold_left_invariant
           (λ g, ∀ a b, (0 <= get2 (counters g) a b (1#2) <= 1)%Q)).
  - intros a b. rewrite synergy_fold_counters. by vm_compute.
  - intros g [[c1 c2] count] Hin IH. simpl.
    destruct (3 <=? count) eqn:E; [|done]. cbn [counters].
    intros a b. rewrite get2_set2.
    destruct (counts_wins_item _ _ _ _ Hc Hin) as [Hn Hw].
    case_bool_decide; [|apply IH]. apply Zdiv_float_unit; lia.
Qed.

(** *** Sums and means *)

Lemma fold_left_Qsum {A} (f : A → Q) (l : list A) (a : Q) :
  (fold_left (λ acc p, acc + f p) l a == a + Qsum (map f l))%Q.
Proof.
  revert a. induction l as [|x l IH]; intros a; simpl.
  - by rewrite Qplus_0_r.
  - rewrite IH. ring.
Qed.

Lemma inject_Z_length_cons {A} (x : A) (l : list A) :
  (inject_Z (Z.of_nat (length (x :: l))) == inject_Z (Z.of_nat (length l)) + 1)%Q.
Proof.
  cbn [length]. rewrite Nat2Z.inj_succ, <- Z.add_1_r, inject_Z_plus. reflexivity.
Qed.

Lemma Qsum_bounds (lo hi : Q) (l : list Q) :
  (∀ x, x ∈ l → (lo <= x <= hi)%Q) →
  (lo * inject_Z (Z.of_nat (length l)) <= Qsum l
   ∧ Qsum l <= hi * inject_Z (Z.of_nat (length l)))%Q.
Proof.
  induction l as [|x l IH]; intros Hl.
  - cbn [length Qsum fold_right]. change (inject_Z (Z.of_nat 0)) with 0%Q.
    rewrite !Qmult_0_r. split; apply Qle_refl.
  - destruct IH as [IH1 IH2]; [intros y Hy; apply Hl; by right|].
    destruct (Hl x) as [Hx1 Hx2]; [left|].
    rewrite inject_Z_length_cons. cbn [Qsum fold_right]. fold (Qsum l). split; lra.
Qed.

(** A mean of values between [lo] and [hi] lies between [lo] and [hi]. *)
Lemma Qmean_bounds (lo hi : Q) (l : list Q) :
  l ≠ [] → (∀ x, x ∈ l → (lo <= x <= hi)%Q) →
  (lo <= Qsum l / inject_Z (Z.of_nat (length l)) <= hi)%Q.
Proof.
  intros Hne Hl. destruct (Qsum_bounds lo hi l Hl) as [H1 H2].
  assert (0 < inject_Z (Z.of_nat (length l)))%Q as Hpos.
  { destruct l; [done|]. unfold Qlt. simpl. lia. }
  split.
  - by apply Qle_shift_div_l.
  - by apply Qle_shift_div_r.
Qed.

(** *** Rosters *)

(** [get_team_synergy] as a mean over the pairs of the roster. *)
Lemma get_team_synergy_mean g champions :
  (2 ≤ length champions)%nat →
  (get_team_synergy g champions
   == Qsum (map (λ p, synergy g p.1 p.2) (later_pairs champions))
      / inject_Z (Z.of_nat (length (later_pairs champions))))%Q
  ∧ later_pairs champions ≠ [].
Proof.
  intros Hlen. unfold get_team_synergy.
  destruct champions as [|c1 [|c2 rest]]; [simpl in Hlen; lia..|].
  assert (later_pairs (c1 :: c2 :: rest) ≠ []) as Hne by done.
  split; [|done].
  replace (length (c1 :: c2 :: rest) <=? 1)%nat with false by done.
  set (prs := later_pairs _) in *.
  replace (0 <? Z.of_nat (length prs)) with true.
  - rewrite (fold_left_Qsum (λ p, synergy g p.1 p.2)). by rewrite Qplus_0_l.
  - symmetry. apply Z.ltb_lt. destruct prs; [done|]. simpl. lia.
Qed.

Lemma built_team_synergy_bounds parsed_matches champions :
  let g := build_from_matches ChampionGraph_init parsed_matches in
  (-(1#2) <= get_team_synergy g champions <= 1#2)%Q.
Proof.
  intros g. destruct (decide (2 ≤ length champions)%nat) as [Hlen|Hlen].
  - destruct (get_team_synergy_mean g champions Hlen) as [-> Hne].
    rewrite <- (length_map (λ p, synergy g p.1 p.2)).
    apply Qmean_bounds.
    + by destruct (later_pairs champions).
    + intros x ([a b] & -> & _)%list_elem_of_fmap. apply built_synergy.
  - unfold get_team_synergy.
    replace (length champions <=? 1)%nat with true; [by vm_compute|].
    symmetry. apply Nat.leb_le. lia.
Qed.

(** X3. In a graph built from a fresh [ChampionGraph] every synergy is
    stored for both orders of the pair and lies between -0.5 and 0.5, and so
    does the team synergy of every roster. *)
Theorem build_from_matches_synergy_symmetric parsed_matches a b champions :
  let g := build_from_matches ChampionGraph_init parsed_matches in
  synergy g a b = synergy g b a
  ∧ (-(1#2) <= synergy g a b <= 1#2)%Q
  ∧ (-(1#2) <= get_team_synergy g champions <= 1#2)%Q.
Proof.
  intros g. destruct (built_synergy parsed_matches a b) as [Hsym Hb].
  split; [done|]. split; [done|]. apply built_team_synergy_bounds.
Qed.

(** X5. In a graph built from a fresh [ChampionGraph] every counter value
    lies between 0 and 1 (0.5 where nothing is stored), and the counter score
    of any two rosters lies between -0.5 and 0.5. *)
Theorem build_from_matches_counter_bounded parsed_matches a b mine theirs :
  let g := build_from_matches ChampionGraph_init parsed_matches in
  (0 <= counter g a b <= 1)%Q
  ∧ (-(1#2) <= get_counter_score g mine theirs <= 1#2)%Q.
Proof.
  intros g. split; [apply built_counter|].
  unfold get_counter_score.
  destruct mine as [|m1 mine]; [by vm_compute|].
  destruct theirs as [|t1 theirs]; [by vm_compute|].
  set (mus := cross_pairs _ _).
  assert (mus ≠ []) as Hne by done.
  replace (0 <? Z.of_nat (length mus)) with true
    by (symmetry; apply Z.ltb_lt; destruct mus; [done|simpl; lia]).
  rewrite (fold_left_Qsum (λ p, counter g p.1 p.2 - (1#2))%Q), Qplus_0_l.
  rewrite <- (length_map (λ p, counter g p.1 p.2 - (1#2))%Q).
  apply Qmean_bounds.
  - by destruct mus.
  - intros x ([x1 x2] & -> & _)%list_elem_of_fmap.
    destruct (built_counter parsed_matches x1 x2) as [Hc1 Hc2]. fold g in Hc1, Hc2.
    cbn [fst snd]. split; lra.
Qed.

(** ** Predictions *)

(** X6. Whatever the graph and the draft, the two values that
    [predict_win_probability] returns sum to 1; they are 0.5 each when both
    rosters are empty, and whenever the two scores do not sum to a positive
    number.  The same holds of [predict_draft_winner], which calls it on a
    draft without bans. *)
Theorem predict_win_probability_normalised g ds a roster1 roster2 :
  let p := predict_win_probability g ds in
  let q := predict_draft_winner a roster1 roster2 in
  (wp_team1 p + wp_team2 p == 1)%Q
  ∧ (team1_picks ds = [] ∧ team2_picks ds = [] →
     (wp_team1 p == 1#2)%Q ∧ (wp_team2 p == 1#2)%Q)
  ∧ ((fst (team_scores g ds) + snd (team_scores g ds) <= 0)%Q →
     wp_team1 p = (1#2)%Q ∧ wp_team2 p = (1#2)%Q)
  ∧ (wp_team1 q + wp_team2 q == 1)%Q
  ∧ (roster1 = [] ∧ roster2 = [] → (wp_team1 q == 1#2)%Q ∧ (wp_team2 q == 1#2)%Q).
Proof.
  intros p q. split; [apply predict_sum_one|].
  split; [intros [H1 H2]; by apply predict_empty|].
  split.
  { pose proof (predict_win_probability_cases g ds) as H. cbv zeta in H. fold p in H.
    destruct (team_scores g ds) as [s1 s2]. cbn [fst snd]. intros Hle.
    destruct (Qgtb (s1 + s2) 0) eqn:E; [|done].
    apply Qgtb_true in E. by apply Qlt_not_le in E. }
  split; [apply predict_sum_one|].
  intros [-> ->]. by apply predict_empty.
Qed.

(** ** Recommendations for picks and bans *)

Lemma Qgtb_false a b : Qgtb a b = false ↔ (a <= b)%Q.
Proof. unfold Qgtb. rewrite negb_false_iff. apply Qle_bool_iff. Qed.

Lemma Qmin'_le_r a b : (Qmin' a b <= b)%Q.
Proof. unfold Qmin'. destruct (Qlt_le_dec b a); [apply Qle_refl|done]. Qed.

Lemma StronglySorted_impl_elem {A} (R R' : relation A) (l : list A) :
  StronglySorted R l → (∀ a b, a ∈ l → b ∈ l → R a b → R' a b) → StronglySorted R' l.
Proof.
  induction 1 as [|x l Hs IH Hx]; intros Himpl; constructor.
  - apply IH. intros a b Ha Hb. apply Himpl; by right.
  - apply Forall_forall. intros y Hy. apply Himpl; [left|by right|].
    by eapply Forall_forall in Hx.
Qed.

Lemma recommend_ban_elem g ds team pool r :
  r ∈ recommend_ban g ds team pool →
  ∃ c, c ∈ take 30 pool
       ∧ r = evaluate_ban g (if team =? 1 then team1_picks ds else team2_picks ds) c.
Proof.
  unfold recommend_ban. intros Hr%elem_of_take_1.
  rewrite sort_by_impact_perm in Hr.
  apply list_elem_of_fmap in Hr as (c & -> & Hc). eauto.
Qed.

(** The text that [_ai_make_move] falls back on is none of the reasons that
    a recommendation gives. *)
Ltac not_fallback :=
  repeat (rewrite not_elem_of_cons; split; [cbn; discriminate|]); apply not_elem_of_nil.

Lemma evaluate_pick_reasoning g mine theirs c :
  let r := evaluate_pick g mine theirs c in
  rec_reasoning r ≠ [] ∧ (length (rec_reasoning r) ≤ 3)%nat
  ∧ ("Strategic choice" ∉ rec_reasoning r) ∧ (confidence r <= 1)%Q.
Proof.
  unfold evaluate_pick. cbn [rec_reasoning confidence].
  split_and!; [..|apply Qmin'_le_r];
    destruct (flat_map _ mine); destruct (flat_map _ theirs);
    destruct (Qgtb (get_champion_power g c) _); cbn [app length];
    first [done | lia | not_fallback].
Qed.

Lemma evaluate_ban_reasoning g mine c :
  let r := evaluate_ban g mine c in
  rec_reasoning r ≠ [] ∧ (length (rec_reasoning r) ≤ 3)%nat
  ∧ ("Strategic choice" ∉ rec_reasoning r) ∧ (confidence r <= 1)%Q
  ∧ rec_synergies r = [] ∧ rec_counters r = []
  ∧ priority r ∈ ["critical"; "high"; "medium"].
Proof.
  unfold evaluate_ban. cbn [rec_reasoning confidence rec_synergies rec_counters priority].
  split_and!; [..|apply Qmin'_le_r|done|done|];
    try (destruct (Qgtb (get_champion_power g c) _); destruct (Qgtb (pick_rate g c) _);
         destruct (Qgtb _ (5#100)); cbn [app length];
         first [done | lia | not_fallback]).
  repeat (destruct (Qgtb _ _)); rewrite !elem_of_cons; auto.
Qed.

(** X7. [recommend_ban] returns at most 10 recommendations, one for each of
    as many of the first 30 candidates of the pool, sorted non-increasing by
    threat; a ban recommendation lists no synergies and no counters, and its
    priority is "critical", "high" or "medium", never "low". *)
Theorem recommend_ban_sorted g ds team pool :
  let recs := recommend_ban g ds team pool in
  length recs = (10 `min` (30 `min` length pool))%nat
  ∧ StronglySorted impact_ge recs
  ∧ ∀ r, r ∈ recs →
      rec_champion r ∈ take 30 pool
      ∧ rec_synergies r = [] ∧ rec_counters r = []
      ∧ priority r ∈ ["critical"; "high"; "medium"].
Proof.
  intros recs. split; [apply recommend_ban_length|].
  split; [apply StronglySorted_take, sort_by_impact_sorted|].
  intros r (c & Hc & ->)%recommend_ban_elem.
  destruct (evaluate_ban_reasoning g (if team =? 1 then team1_picks ds else team2_picks ds) c)
    as (_ & _ & _ & _ & H1 & H2 & H3).
  done.
Qed.

(** X8. Every recommendation that [recommend_pick] or [recommend_ban]
    returns carries between one and three reasons and a confidence of at
    most 1, and none of its reasons is the text "Strategic choice". *)
Theorem recommendations_carry_reasons g ds team pool :
  Forall (λ r, (1 ≤ length (rec_reasoning r) ≤ 3)%nat
               ∧ ("Strategic choice" ∉ rec_reasoning r)
               ∧ (confidence r <= 1)%Q)
         (recommend_pick g ds team pool ++ recommend_ban g ds team pool).
Proof.
  apply Forall_forall. intros r [Hr|Hr]%elem_of_app.
  - apply recommend_pick_elem in Hr as (c & _ & ->).
    destruct (evaluate_pick_reasoning g
                (if team =? 1 then team1_picks ds else team2_picks ds)
                (if team =? 1 then team2_picks ds else team1_picks ds) c)
      as (H1 & H2 & H3 & H4).
    split_and!; try done. destruct (rec_reasoning _); [done|simpl; lia].
  - apply recommend_ban_elem in Hr as (c & _ & ->).
    destruct (evaluate_ban_reasoning g (if team =? 1 then team1_picks ds else team2_picks ds) c)
      as (H1 & H2 & H3 & H4 & _).
    split_and!; try done. destruct (rec_reasoning _); [done|simpl; lia].
Qed.

Lemma evaluate_pick_priority g mine theirs mine' theirs' c c' :
  impact_ge (evaluate_pick g mine theirs c) (evaluate_pick g mine' theirs' c') →
  priority_ge (evaluate_pick g mine theirs c) (evaluate_pick g mine' theirs' c').
Proof.
  unfold impact_ge, priority_ge, evaluate_pick. cbn [win_rate_impact priority].
  set (t1 := (get_champion_power g c + _ + _)%Q).
  set (t2 := (get_champion_power g c' + _ + _)%Q).
  intros Hle.
  destruct (Qgtb t1 (65#100)) eqn:A1; destruct (Qgtb t1 (55#100)) eqn:A2;
    destruct (Qgtb t1 (50#100)) eqn:A3;
    destruct (Qgtb t2 (65#100)) eqn:B1; destruct (Qgtb t2 (55#100)) eqn:B2;
    destruct (Qgtb t2 (50#100)) eqn:B3;
    try (by vm_compute);
    rewrite ?Qgtb_true, ?Qgtb_false in *; exfalso; lra.
Qed.

Lemma evaluate_ban_priority g mine mine' c c' :
  impact_ge (evaluate_ban g mine c) (evaluate_ban g mine' c') →
  priority_ge (evaluate_ban g mine c) (evaluate_ban g mine' c').
Proof.
  unfold impact_ge, priority_ge, evaluate_ban. cbn [win_rate_impact priority].
  set (t1 := (get_champion_power g c * _ + _ + _)%Q).
  set (t2 := (get_champion_power g c' * _ + _ + _)%Q).
  intros Hle.
  destruct (Qgtb t1 (6#10)) eqn:A1; destruct (Qgtb t1 (55#100)) eqn:A2;
    destruct (Qgtb t2 (6#10)) eqn:B1; destruct (Qgtb t2 (55#100)) eqn:B2;
    try (by vm_compute);
    rewrite ?Qgtb_true, ?Qgtb_false in *; exfalso; lra.
Qed.

(** X9. In the lists that [recommend_pick] and [recommend_ban] return the
    priorities follow the order of the list: no recommendation stands after
    one of a lower priority ("critical" before "high" before "medium" before
    "low"). *)
Theorem recommendations_sorted_by_priority g ds team pool :
  StronglySorted priority_ge (recommend_pick g ds team pool)
  ∧ StronglySorted priority_ge (recommend_ban g ds team pool).
Proof.
  split.
  - eapply StronglySorted_impl_elem.
    + apply StronglySorted_take, sort_by_impact_sorted.
    + intros a b (ca & _ & ->)%recommend_pick_elem (cb & _ & ->)%recommend_pick_elem.
      apply evaluate_pick_priority.
  - eapply StronglySorted_impl_elem.
    + apply StronglySorted_take, sort_by_impact_sorted.
    + intros a b (ca & _ & ->)%recommend_ban_elem (cb & _ & ->)%recommend_ban_elem.
      apply evaluate_ban_priority.
Qed.

(** ** Draft analysis *)

Lemma prefix_app (sub s : string) :
  String.prefix sub s = true ↔ ∃ post, s = sub +:+ post.
Proof.
  revert s. induction sub as [|a sub IH]; intros s.
  - split; [intros _; exists s; reflexivity|]. by destruct s.
  - destruct s as [|b s]; [split; [done|intros [post [=]]]|].
    cbn [String.prefix]. destruct (Ascii.ascii_dec a b) as [->|Hne].
    + rewrite IH. split; intros [post Hp]; exists post; [cbn; by rewrite Hp|].
      cbn in Hp. by injection Hp.
    + split; [done|]. intros [post Hp]. cbn in Hp. injection Hp as ? _. congruence.
Qed.

(** [str_contains sub s] holds exactly when [sub] occurs in [s]. *)
Lemma str_contains_spec (sub s : string) :
  str_contains sub s = true ↔ ∃ pre post, s = pre +:+ sub +:+ post.
Proof.
  induction s as [|b s IH]; cbn [str_contains].
  - rewrite orb_false_r, prefix_app. split.
    + intros [post Hp]. by exists "", post.
    + intros (pre & post & Hp). destruct pre; [by exists post|done].
  - rewrite orb_true_iff, prefix_app, IH. split.
    + intros [[post Hp]|(pre & post & Hp)].
      * by exists "", post.
      * exists (String b pre), post. simpl. by rewrite Hp.
    + intros (pre & post & Hp). destruct pre as [|a pre].
      * left. by exists post.
      * right. exists pre, post. by injection Hp.
Qed.

Lemma not_elem_of_apps {A} (x : A) (l1 l2 l3 l4 : list A) :
  x ∉ l1 ++ l2 → x ∉ l3 ++ l4 → x ∉ l1 ++ l2 ++ l3 ++ l4.
Proof. rewrite !elem_of_app. tauto. Qed.

(** The champions that [analyze_draft] offers to the predictor. *)
Lemma analyze_draft_available (pool : list string) (ds : DraftState) c :
  c ∈ filter (λ c, (c ∉ (list_to_set (team1_picks ds ++ team2_picks ds) : gset string))
                   ∧ (c ∉ (list_to_set (team1_bans ds ++ team2_bans ds) : gset string))) pool →
  c ∈ pool
  ∧ (c ∉ team1_picks ds ++ team2_picks ds ++ team1_bans ds ++ team2_bans ds).
Proof.
  rewrite list_elem_of_filter, !elem_of_list_to_set. intros [[H1 H2] H3].
  split; [done|]. by apply not_elem_of_apps.
Qed.

(** X10. [analyze_draft] recommends for the side whose turn it is, over the
    champions that neither side has picked or banned: at most 10
    recommendations, sorted non-increasing by impact, never a champion that
    is already picked or banned.  When the phase name contains "ban" they
    are ban recommendations (no synergies, no counters, never of priority
    "low").  The two win probabilities of the analysis sum to 1. *)
Theorem analyze_draft_recommends_available self ds :
  let an := analyze_draft self ds in
  (length (an_recommendations an) ≤ 10)%nat
  ∧ StronglySorted impact_ge (an_recommendations an)
  ∧ (∀ r, r ∈ an_recommendations an →
       rec_champion r ∈ all_champions self
       ∧ (rec_champion r ∉ team1_picks ds ++ team2_picks ds ++ team1_bans ds ++ team2_bans ds))
  ∧ ((∃ pre post, ds_current_phase ds = pre +:+ "ban" +:+ post) →
     ∀ r, r ∈ an_recommendations an →
       rec_synergies r = [] ∧ rec_counters r = [] ∧ priority r ≠ "low")
  ∧ (wp_team1 (win_probabilities an) + wp_team2 (win_probabilities an) == 1)%Q
  ∧ an_phase an = ds_current_phase ds ∧ an_turn an = turn ds.
Proof.
  intros an. subst an. unfold analyze_draft.
  cbn [an_recommendations win_probabilities an_phase an_turn].
  set (pool := filter _ (all_champions self)).
  split_and!; try done.
  - destruct (str_contains _ _);
      [rewrite recommend_ban_length|rewrite recommend_pick_length]; lia.
  - destruct (str_contains _ _); apply StronglySorted_take, sort_by_impact_sorted.
  - intros r Hr.
    assert (rec_champion r ∈ take 30 pool) as Hc.
    { destruct (str_contains _ _).
      - apply recommend_ban_elem in Hr as (c & Hc & ->). done.
      - apply recommend_pick_elem in Hr as (c & Hc & ->). done. }
    apply elem_of_take_1 in Hc. by apply analyze_draft_available in Hc.
  - intros Hban%str_contains_spec. rewrite Hban.
    intros r (c & _ & ->)%recommend_ban_elem.
    destruct (evaluate_ban_reasoning (graph self)
                (if turn ds =? 1 then team1_picks ds else team2_picks ds) c)
      as (_ & _ & _ & _ & H1 & H2 & H3).
    split_and!; try done. intros Hlow. rewrite Hlow in H3.
    rewrite !elem_of_cons, elem_of_nil in H3. by destruct H3 as [?|[?|[?|[]]]].
  - apply predict_sum_one.
Qed.

(** X11. [get_pick_recommendations] of the facade offers to [recommend_pick]
    the champions that are in none of the three lists it is given: at most
    10 recommendations, sorted non-increasing by impact, never one of the
    caller's picks, of the caller's bans or of the opponent's picks. *)
Theorem get_pick_recommendations_available a current_picks current_bans opponent_picks :
  let recs := get_pick_recommendations a current_picks current_bans opponent_picks in
  (length recs ≤ 10)%nat
  ∧ StronglySorted impact_ge recs
  ∧ ∀ r, r ∈ recs →
      rec_champion r ∈ all_champions a
      ∧ (rec_champion r ∉ current_picks) ∧ (rec_champion r ∉ current_bans)
      ∧ (rec_champion r ∉ opponent_picks).
Proof.
  intros recs. subst recs. unfold get_pick_recommendations. split_and!.
  - rewrite recommend_pick_length. lia.
  - apply StronglySorted_take, sort_by_impact_sorted.
  - intros r (c & Hc%elem_of_take_1 & ->)%recommend_pick_elem.
    apply list_elem_of_filter in Hc as [Hnot Hc]. cbn [rec_champion evaluate_pick].
    rewrite !elem_of_app in Hnot. tauto.
Qed.

(** X12. [_analyze_team_comp] answers with a status only for a roster
    without picks.  For any other roster it reports the team synergy and the
    counter score of the roster, a strength for each of the two that is
    above 0.05 and a weakness for each that is below -0.05: so at most two
    remarks in all, and none when both values are within 0.05 of zero. *)
Theorem analyze_team_comp_remarks g team_picks opponent_picks :
  match _analyze_team_comp g team_picks opponent_picks with
  | TeamStatus status => team_picks = [] ∧ status = "No picks yet"
  | TeamReport r =>
    let syn := get_team_synergy g team_picks in
    let cs := get_counter_score g team_picks opponent_picks in
    team_picks ≠ [] ∧ tc_champions r = team_picks
    ∧ synergy_score r = syn ∧ tc_counter_score r = cs
    ∧ length (strengths r)
      = ((if Qgtb syn (5#100) then 1 else 0) + (if Qgtb cs (5#100) then 1 else 0))%nat
    ∧ length (weaknesses r)
      = ((if Qltb syn (-(5#100)) then 1 else 0) + (if Qltb cs (-(5#100)) then 1 else 0))%nat
    ∧ (length (strengths r) + length (weaknesses r) ≤ 2)%nat
    ∧ ((-(5#100) <= syn <= 5#100)%Q ∧ (-(5#100) <= cs <= 5#100)%Q →
       strengths r = [] ∧ weaknesses r = [])
  end.
Proof.
  unfold _analyze_team_comp. destruct team_picks as [|c1 rest]; [done|].
  set (team := c1 :: rest).
  set (syn := get_team_synergy g team). set (cs := get_counter_score g team opponent_picks).
  cbv zeta. clearbody syn cs.
  assert (Qgtb syn (5#100) = true → Qltb syn (-(5#100)) = false) as Hs.
  { rewrite Qgtb_true. unfold Qltb. rewrite negb_false_iff, Qle_bool_iff. lra. }
  assert (Qgtb cs (5#100) = true → Qltb cs (-(5#100)) = false) as Hc.
  { rewrite Qgtb_true. unfold Qltb. rewrite negb_false_iff, Qle_bool_iff. lra. }
  assert (∀ x, (-(5#100) <= x <= 5#100)%Q → Qgtb x (5#100) = false ∧ Qltb x (-(5#100)) = false)
    as Hmid.
  { intros x [H1 H2]. split; [by apply Qgtb_false|].
    unfold Qltb. by rewrite negb_false_iff, Qle_bool_iff. }
  destruct (Qgtb syn (5#100)) eqn:E1; [rewrite (Hs eq_refl)|];
    (destruct (Qgtb cs (5#100)) eqn:E2; [rewrite (Hc eq_refl)|]);
    try destruct (Qltb syn _) eqn:E3; try destruct (Qltb cs _) eqn:E4;
    cbn; split_and!; try done; try lia;
    intros [[? ?]%Hmid [? ?]%Hmid]; congruence.
Qed.

(** ** The leaderboard *)

Lemma insert_by_key_perm {A} (key : A → Z) x l : insert_by_key key x l ≡ₚ x :: l.
Proof.
  induction l as [|y ys IH]; simpl; [done|].
  destruct (key y <=? key x); [done|].
  rewrite IH. apply Permutation_swap.
Qed.

Lemma sort_by_key_perm {A} (key : A → Z) l : sort_by_key key l ≡ₚ l.
Proof.
  induction l as [|x l IH]; simpl; [done|].
  rewrite insert_by_key_perm. by rewrite IH.
Qed.

Lemma insert_by_key_sorted {A} (key : A → Z) x l :
  StronglySorted (λ a b, key b ≤ key a) l →
  StronglySorted (λ a b, key b ≤ key a) (insert_by_key key x l).
Proof.
  induction 1 as [|y ys Hs IH Hy]; simpl.
  - repeat constructor.
  - destruct (key y <=? key x) eqn:E.
    + apply Z.leb_le in E. constructor; [by constructor|].
      constructor; [exact E|]. eapply Forall_impl; [exact Hy|]. simpl. lia.
    + apply Z.leb_gt in E. constructor; [exact IH|].
      rewrite insert_by_key_perm. constructor; [lia|exact Hy].
Qed.

Lemma sort_by_key_sorted {A} (key : A → Z) l :
  StronglySorted (λ a b, key b ≤ key a) (sort_by_key key l).
Proof.
  induction l as [|x l IH]; simpl; [constructor|].
  by apply insert_by_key_sorted.
Qed.

(** A slice [l[:limit]] is a prefix of [l]. *)
Lemma slice_to_take {A} (limit : Z) (l : list A) :
  ∃ n, slice_to limit l = take n l
       ∧ (0 ≤ limit → n = Z.to_nat limit)
       ∧ (limit < 0 → n = (length l - Z.to_nat (- limit))%nat).
Proof.
  unfold slice_to. destruct (0 <=? limit) eqn:E.
  - apply Z.leb_le in E. eexists. split; [done|]. split; [done|lia].
  - apply Z.leb_gt in E. eexists. split; [done|]. split; [lia|done].
Qed.

Lemma leaderboard_rows_lookup n games i :
  leaderboard_rows n games !! i
  = leaderboard_row (n + Z.of_nat i) <$> games !! i.
Proof.
  revert n i. induction games as [|g games IH]; intros n [|i]; simpl; try done.
  - by rewrite Z.add_0_r.
  - rewrite IH. do 2 f_equal. lia.
Qed.

Lemma leaderboard_rows_length n games :
  length (leaderboard_rows n games) = length games.
Proof. revert n. induction games as [|g games IH]; intros n; simpl; [done|]. by rewrite IH. Qed.

Lemma StronglySorted_lookup_lt {A} (R : relation A) (l : list A) i j x y :
  StronglySorted R l → l !! i = Some x → l !! j = Some y → (i < j)%nat → R x y.
Proof.
  intros Hs. revert i j. induction Hs as [|z l Hs IH Hz]; intros i j Hi Hj Hlt; [done|].
  destruct j as [|j]; [lia|]. destruct i as [|i]; simpl in *.
  - injection Hi as <-. eapply Forall_forall in Hz; [exact Hz|].
    by eapply list_elem_of_lookup_2.
  - eapply IH; [done..|lia].
Qed.

Lemma leaderboard_rows_sorted n games :
  StronglySorted (λ a b, total_score (calculate_final_score b)
                         ≤ total_score (calculate_final_score a)) games →
  StronglySorted (λ a b, lb_score b ≤ lb_score a) (leaderboard_rows n games).
Proof.
  intros Hs. revert n. induction Hs as [|g games Hs IH Hg]; intros n; simpl; constructor.
  - apply IH.
  - apply Forall_forall. intros e (i & Hi)%list_elem_of_lookup_1.
    rewrite leaderboard_rows_lookup in Hi.
    destruct (games !! i) as [g'|] eqn:Hg'; [|done]. injection Hi as <-.
    eapply Forall_forall in Hg; [exact Hg|]. by eapply list_elem_of_lookup_2.
Qed.

(** X13. [get_leaderboard] lists completed sessions only, by their final
    total score, highest first, ranked 1, 2, 3, ...  A limit that is not
    negative bounds the number of rows; a negative limit drops that many
    sessions from the lower end instead.  A completed session with a higher
    total than some listed row is itself listed. *)
Theorem get_leaderboard_ranking values limit :
  let board := get_leaderboard values limit in
  let completed := filter (λ g, completed_at g ≠ None) values in
  let points := λ g, total_score (calculate_final_score g) in
  (length board ≤ length completed)%nat
  ∧ (0 ≤ limit → length board = (Z.to_nat limit `min` length completed)%nat)
  ∧ (limit < 0 → length board = (length completed - Z.to_nat (- limit))%nat)
  ∧ (∀ i e, board !! i = Some e →
       lb_rank e = Z.of_nat i + 1
       ∧ is_Some (lb_completed_at e)
       ∧ ∃ g, g ∈ values ∧ completed_at g ≠ None ∧ e = leaderboard_row (Z.of_nat i) g)
  ∧ StronglySorted (λ a b, lb_score b ≤ lb_score a) board
  ∧ (∀ e g, e ∈ board → g ∈ values → completed_at g ≠ None →
       lb_score e < points g → ∃ k, leaderboard_row k g ∈ board).
Proof.
  intros board completed points. subst board. unfold get_leaderboard.
  fold completed. fold points.
  set (ranked := sort_by_key points completed).
  assert (ranked ≡ₚ completed) as Hperm by apply sort_by_key_perm.
  assert (StronglySorted (λ a b, points b ≤ points a) ranked) as Hsorted
    by apply sort_by_key_sorted.
  destruct (slice_to_take limit ranked) as (n & -> & Hn1 & Hn2).
  pose proof (Permutation_length Hperm) as Hlen.
  rewrite leaderboard_rows_length, length_take.
  assert (∀ i e, leaderboard_rows 0 (take n ranked) !! i = Some e →
            ∃ g, ranked !! i = Some g ∧ (i < n)%nat ∧ e = leaderboard_row (Z.of_nat i) g)
    as Hrows.
  { intros i e He. rewrite leaderboard_rows_lookup in He.
    destruct (take n ranked !! i) as [g|] eqn:Hg; [|done]. injection He as <-.
    apply lookup_take_Some in Hg as [Hg Hi]. exists g. by rewrite Z.add_0_l. }
  split_and!.
  - lia.
  - intros H0. rewrite (Hn1 H0). lia.
  - intros H0. rewrite (Hn2 H0). lia.
  - intros i e (g & Hg & _ & ->)%Hrows.
    assert (g ∈ completed) as Hc by (rewrite <- Hperm; by eapply list_elem_of_lookup_2).
    apply list_elem_of_filter in Hc as [Hdone Hin].
    split; [done|]. split; [|by exists g].
    cbn. by destruct (completed_at g).
  - apply leaderboard_rows_sorted, StronglySorted_take, Hsorted.
  - intros e g (i & Hi)%list_elem_of_lookup_1 Hin Hdone Hlt.
    apply Hrows in Hi as (gi & Hgi & Hi & ->). cbn [lb_score leaderboard_row] in Hlt.
    fold (points gi) in Hlt.
    assert (g ∈ ranked) as (j & Hj)%list_elem_of_lookup_1.
    { rewrite Hperm. by apply list_elem_of_filter. }
    destruct (decide (j < n)%nat) as [Hjn|Hjn].
    + exists (Z.of_nat j). apply list_elem_of_lookup. exists j.
      rewrite leaderboard_rows_lookup, lookup_take_lt, Hj by done.
      by rewrite Z.add_0_l.
    + pose proof (StronglySorted_lookup_lt _ _ i j gi g Hsorted Hgi Hj ltac:(lia)) as Hle.
      cbv beta in Hle. lia.
Qed.

(** ** Achievements *)

Lemma unlock_conditions_frame key cond :
  (key, cond) ∈ unlock_conditions → reads_no_achievements cond.
Proof.
  unfold unlock_conditions. rewrite !elem_of_cons, elem_of_nil.
  intros [[= -> ->]|[[= -> ->]|[[= -> ->]|[]]]]; by intros l gs.
Qed.

Lemma unlock_settles key cond gs new gs1 :
  reads_no_achievements cond →
  unlock key cond gs = Return new gs1 →
  settled key cond gs1
  ∧ achievements gs1 = achievements gs ++ new
  ∧ gs1 = set_achievements (achievements gs1) gs
  ∧ (new = [] ∨ new = [key] ∧ cond gs = true ∧ key ∉ achievements gs).
Proof.
  intros Hframe. rewrite unlock_eq. unfold settled.
  destruct (cond gs) eqn:Ec; simpl; [case_bool_decide as Ek; simpl|]; intros [= <- <-].
  - split_and!.
    + intros _. cbn. apply elem_of_app. right. left.
    + done.
    + by destruct gs.
    + auto.
  - rewrite app_nil_r. split_and!; [|done|by destruct gs|auto].
    intros _. exact Ek.
  - rewrite app_nil_r. split_and!; [congruence|done|by destruct gs|auto].
Qed.

Lemma settled_unlock key cond gs :
  settled key cond gs → unlock key cond gs = Return [] gs.
Proof.
  intros Hs. rewrite unlock_eq. destruct (cond gs) eqn:Ec; [|done].
  by rewrite bool_decide_eq_false_2 by (intros Hn; by apply Hn, Hs).
Qed.

Lemma settled_mono key cond gs gs' :
  reads_no_achievements cond →
  gs' = set_achievements (achievements gs') gs → achievements gs ⊆ achievements gs' →
  settled key cond gs → settled key cond gs'.
Proof.
  intros Hf Heq Hsub Hs Hc. rewrite Heq, Hf in Hc. by apply Hsub, Hs.
Qed.

(** What a run of [check_achievements] does to the session. *)
Lemma check_achievements_run gs new gs1 :
  check_achievements gs = Return new gs1 →
  gs1 = set_achievements (achievements gs ++ new) gs
  ∧ new ⊆ ["flawless"; "speedster"; "draft_god"]
  ∧ (∀ k, k ∈ new → k ∉ achievements gs)
  ∧ NoDup new
  ∧ check_achievements gs1 = Return [] gs1.
Proof.
  unfold check_achievements. intros H.
  apply bind_Return in H as (n1 & g1 & H1 & H).
  apply bind_Return in H as (n2 & g2 & H2 & H).
  apply bind_Return in H as (n3 & g3 & H3 & H).
  injection H as <- <-.
  assert (∀ key cond, (key, cond) ∈ unlock_conditions → reads_no_achievements cond) as Hf
    by apply unlock_conditions_frame.
  apply unlock_settles in H1 as (S1 & A1 & F1 & C1);
    [|apply (Hf "flawless"); unfold unlock_conditions; rewrite !elem_of_cons; auto].
  apply unlock_settles in H2 as (S2 & A2 & F2 & C2);
    [|apply (Hf "speedster"); unfold unlock_conditions; rewrite !elem_of_cons; auto].
  apply unlock_settles in H3 as (S3 & A3 & F3 & C3);
    [|apply (Hf "draft_god"); unfold unlock_conditions; rewrite !elem_of_cons; auto].
  assert (achievements g3 = achievements gs ++ n1 ++ n2 ++ n3) as A.
  { rewrite A3, A2, A1. by rewrite <- !app_assoc. }
  split_and!.
  - rewrite F3, F2, F1, <- A. by destruct gs.
  - intros k. rewrite !elem_of_app, !elem_of_cons.
    destruct C1 as [->|(-> & _)], C2 as [->|(-> & _)], C3 as [->|(-> & _)];
      rewrite ?list_elem_of_singleton, ?elem_of_nil; tauto.
  - intros k. rewrite !elem_of_app.
    destruct C1 as [->|(-> & _ & N1)], C2 as [->|(-> & _ & N2)], C3 as [->|(-> & _ & N3)];
      rewrite ?list_elem_of_singleton, ?elem_of_nil;
      rewrite ?A2, ?A1, ?elem_of_app in *;
      intros [?|[?|?]]; subst; tauto.
  - destruct C1 as [->|(-> & _)], C2 as [->|(-> & _)], C3 as [->|(-> & _)];
      apply (bool_decide_unpack _); by vm_compute.
  - assert (settled "flawless" (λ gs, 10 <=? perfect_moves gs) g3) as T1.
    { apply (settled_mono _ _ g2 g3); [by intros ??|done| |].
      { rewrite A3. intros x Hx. rewrite elem_of_app. auto. }
      apply (settled_mono _ _ g1 g2); [by intros ??|done| |done].
      rewrite A2. intros x Hx. rewrite elem_of_app. auto. }
    assert (settled "speedster"
              (λ gs, Qltb (avg_time gs) 15 && (10 <=? Z.of_nat (length (moves_evaluated gs))))
              g3) as T2.
    { apply (settled_mono _ _ g2 g3); [by intros ??|done| |done].
      rewrite A3. intros x Hx. rewrite elem_of_app. auto. }
    run. rewrite (settled_unlock _ _ _ T1), (settled_unlock _ _ _ T2),
      (settled_unlock _ _ _ S3). done.
Qed.


(** ** One accepted move *)

Section Step.
Variable self : DraftMasterGame.

(** The champion that the opponent takes is on offer after the move of the
    player. *)
Lemma ai_recommendations_available at_ gs chosen :
  chosen ∈ ai_recommendations self at_ gs →
  rec_champion chosen ∈ available (assistant self) gs.
Proof.
  unfold ai_recommendations. case_bool_decide.
  - intros (c & Hc%elem_of_take_1 & ->)%recommend_ban_elem. done.
  - intros (c & Hc%elem_of_take_1 & ->)%recommend_pick_elem. done.
Qed.

(** The session after an accepted move, field by field. *)
Lemma make_move_step c t rnd now gs o gs' :
  make_move self c t rnd now gs = Return (MoveDone o) gs' →
  let ban := bool_decide (action_type_of (current_phase gs) = "ban") in
  let rank := find_rank 0 c (visible_hints (difficulty gs) (player_recommendations self gs)) in
  let d := ai_champion (ai_move o) in
  c ∈ available (assistant self) gs
  ∧ d ∈ available (assistant self) gs ∧ d ≠ c
  ∧ player_picks gs' = (if ban then player_picks gs else player_picks gs ++ [c])
  ∧ player_bans gs' = (if ban then player_bans gs ++ [c] else player_bans gs)
  ∧ ai_picks gs' = (if ban then ai_picks gs else ai_picks gs ++ [d])
  ∧ ai_bans gs' = (if ban then ai_bans gs ++ [d] else ai_bans gs)
  ∧ current_phase gs' = current_phase gs + 1
  ∧ moves_evaluated gs' = moves_evaluated gs ++ [player_move o]
  ∧ score gs' = score gs + mv_score (player_move o)
  ∧ (∃ tb,
       time_bonus_of t = Some tb
       ∧ mv_score (player_move o)
         = base_score_of rank + tb
           + Zsum (map snd (named_bonuses rank tb
                              (streak_count gs') (perfect_moves gs') (combo_count gs'))))
  ∧ ex_base (mv_extras (player_move o)) = base_score_of rank
  ∧ ex_streak (mv_extras (player_move o)) = streak_count gs'
  ∧ streak_count gs' = streak_after rank (streak_count gs)
  ∧ perfect_moves gs' = (if is_rank0 rank then perfect_moves gs + 1 else perfect_moves gs)
  ∧ combo_count gs'
    = (if is_rank0 rank && (3 <=? streak_count gs + 1)
       then combo_count gs + 1 else combo_count gs)
  ∧ (∃ new, achievements gs' = achievements gs ++ new
            ∧ new ⊆ ["flawless"; "speedster"; "draft_god"]
            ∧ NoDup new ∧ (∀ k, k ∈ new → k ∉ achievements gs)
            ∧ (current_phase gs + 1 < 20 → new = []))
  ∧ game_id gs' = game_id gs ∧ player_name gs' = player_name gs
  ∧ difficulty gs' = difficulty gs
  ∧ historical_match_id gs' = historical_match_id gs.
Proof.
  intros H ban rank d.
  apply make_move_accepted in H
    as (pts & reasoning & extras & gs1 & gs3 & Hc & Hscore & Hai & Hpm & Hgc & Hfin).
  cbv zeta in *. fold rank in Hscore.
  destruct (score_pick_time_bonus _ _ _ _ _ _ Hscore) as [tb Htb].
  destruct (score_pick_Return c
              (visible_hints (difficulty gs) (player_recommendations self gs)) t gs tb Htb)
    as (total & reasoning' & extras' & gs1' & Hret & Htot & Hbon & Hbase & _ & Hs & Hp & Hcb).
  cbv zeta in *. fold rank in Hret, Htot, Hbon, Hbase, Hs, Hp, Hcb.
  rewrite Hscore in Hret. injection Hret as <- <- <- <-.
  pose proof (score_pick_frame _ _ _ _ _ _ Hscore) as Hframe.
  assert (ex_streak extras = streak_count gs1) as Hexs.
  { revert Hscore. unfold score_pick. rewrite Htb. intros Hsc.
    apply bind_Return in Hsc as ([r b] & s1 & _ & Hsc).
    apply bind_Return in Hsc as (? & ? & [= <- <-] & Hsc).
    apply bind_Return in Hsc as (? & ? & [= <- <-] & Hsc).
    by injection Hsc as <- <- <- <-. }
  set (mr := {| mv_phase := current_phase gs1 |}) in *.
  apply ai_make_move_Return in Hai as (chosen & Hin & Hd & _ & Hgs3).
  fold d in Hd.
  apply ai_recommendations_available in Hin. rewrite <- Hd in Hin.
  apply available_after_move in Hin as [Hin Hne].
  rewrite (available_ext _ gs gs1) in Hin by (rewrite Hframe; done).
  assert (mv_action mr = action_type_of (current_phase gs)) as Hact by done.
  assert (player_picks gs3 = (if ban then player_picks gs else player_picks gs ++ [c])
          ∧ player_bans gs3 = (if ban then player_bans gs ++ [c] else player_bans gs)
          ∧ ai_picks gs3 = (if ban then ai_picks gs else ai_picks gs ++ [d])
          ∧ ai_bans gs3 = (if ban then ai_bans gs ++ [d] else ai_bans gs)
          ∧ current_phase gs3 = current_phase gs
          ∧ moves_evaluated gs3 = moves_evaluated gs ++ [mr]
          ∧ score gs3 = score gs + pts
          ∧ streak_count gs3 = streak_count gs1
          ∧ perfect_moves gs3 = perfect_moves gs1
          ∧ combo_count gs3 = combo_count gs1
          ∧ achievements gs3 = achievements gs
          ∧ game_id gs3 = game_id gs ∧ player_name gs3 = player_name gs
          ∧ difficulty gs3 = difficulty gs
          ∧ historical_match_id gs3 = historical_match_id gs)
    as (F1 & F2 & F3 & F4 & F5 & F6 & F7 & F8 & F9 & F10 & F11 & F12 & F13 & F14 & F15).
  { rewrite Hgs3, Hd. unfold record_player_move. rewrite Hact. fold ban.
    rewrite Hframe. destruct ban; cbn; done. }
  rewrite Hpm. cbn [mv_score mv_extras mr].
  cbn [current_phase set_current_phase] in Hfin.
  assert (∃ new, gs' = set_completed_at (completed_at gs')
                         (set_final_win_probability (final_win_probability gs')
                            (set_achievements (achievements gs ++ new)
                               (set_current_phase (current_phase gs + 1) gs3)))
                 ∧ new ⊆ ["flawless"; "speedster"; "draft_god"]
                 ∧ NoDup new ∧ (∀ k, k ∈ new → k ∉ achievements gs)
                 ∧ (current_phase gs + 1 < 20 → new = []))
    as (new & Hgs' & N1 & N2 & N3 & N4).
  { rewrite F5 in Hfin. destruct (20 <=? current_phase gs + 1) eqn:E20.
    - destruct Hfin as (fr & Hfr & _).
      apply complete_game_Return in Hfr as (g1 & Hch & -> & _).
      apply check_achievements_run in Hch as (-> & N1 & N2 & N3 & _).
      exists (new_achievements fr). cbn in *. rewrite F11 in *.
      split_and!; try done. intros Hlt. apply Z.leb_le in E20. lia.
    - destruct Hfin as [-> _]. exists []. rewrite app_nil_r, <- F11.
      split_and!; [by destruct gs3|by intros k ?%elem_of_nil|constructor
                  |by intros k ?%elem_of_nil|done]. }
  rewrite Hgs'. cbn. rewrite F1, F2, F3, F4, F6, F7, F8, F9, F10, F12, F13, F14, F15.
  split_and!; try done.
  - by eapply elem_of_take_1.
  - exists tb. split; [done|]. by rewrite <- Hbon.
  - by exists new.
Qed.

End Step.

(** ** Sessions reached by accepted moves *)

Lemma play_induction self (I : GameState → Prop) :
  (∀ c t rnd now gs o gs',
     I gs → make_move self c t rnd now gs = Return (MoveDone o) gs' → I gs') →
  ∀ moves gs gs', I gs → play self moves gs = Some gs' → I gs'.
Proof.
  intros Hstep. induction moves as [|[[[c t] rnd] now] moves IH]; intros gs gs' HI; simpl.
  - by intros [= <-].
  - destruct (make_move self c t rnd now gs) as [[e|o] gs1|e gs1] eqn:Hm; try done.
    apply IH. by eapply Hstep.
Qed.

Lemma range_snoc (n : Z) : 0 ≤ n → range 0 (n + 1) = range 0 n ++ [n].
Proof.
  intros Hn. unfold range. rewrite !Z.sub_0_r.
  replace (Z.to_nat (n + 1)) with (Z.to_nat n + 1)%nat by lia.
  rewrite seq_app, map_app. simpl. do 3 f_equal. lia.
Qed.

Lemma bans_before_succ (n : Z) :
  0 ≤ n →
  bans_before (n + 1)
  = bans_before n + (if bool_decide (action_type_of n = "ban") then 1 else 0).
Proof.
  intros Hn. unfold bans_before. rewrite range_snoc by done.
  rewrite filter_app, length_app, filter_cons, filter_nil.
  case_bool_decide as E.
  - rewrite decide_True by done. simpl. lia.
  - rewrite decide_False by done. simpl. lia.
Qed.

Lemma drafted_step (pp pb ap ab : list string) (c d : string) (ban : bool) :
  (if ban then pp else pp ++ [c]) ++ (if ban then pb ++ [c] else pb)
  ++ (if ban then ap else ap ++ [d]) ++ (if ban then ab ++ [d] else ab)
  ≡ₚ c :: d :: pp ++ pb ++ ap ++ ab.
Proof.
  destruct ban; solve_Permutation.
Qed.

Lemma draft_ok_step self c t rnd now gs o gs' :
  draft_ok self gs → make_move self c t rnd now gs = Return (MoveDone o) gs' →
  draft_ok self gs'.
Proof.
  intros [Hnd Hsub] H. apply make_move_step in H
    as (Hc & Hd & Hne & P1 & P2 & P3 & P4 & _).
  unfold draft_ok, drafted in *. rewrite P1, P2, P3, P4, drafted_step.
  apply available_spec in Hc as (Hc & C1 & C2 & C3 & C4).
  apply available_spec in Hd as (Hd & D1 & D2 & D3 & D4).
  split.
  - apply NoDup_cons. split; [|apply NoDup_cons; split; [|done]].
    + rewrite elem_of_cons, !elem_of_app. intros [?|?]; [congruence|tauto].
    + rewrite !elem_of_app. tauto.
  - intros x. rewrite !elem_of_cons. intros [->|[->|Hx]]; [done|done|by apply Hsub].
Qed.

Lemma draft_ok_fresh self game_id player_name difficulty m started :
  draft_ok self (new_game_state game_id player_name difficulty m started).
Proof. split; [constructor|]. by intros x ?%elem_of_nil. Qed.

Lemma play_player_champions self moves : ∀ gs gs',
  play self moves gs = Some gs' →
  player_picks gs' ++ player_bans gs'
  ≡ₚ (player_picks gs ++ player_bans gs) ++ map (λ mv, mv.1.1.1) moves.
Proof.
  induction moves as [|[[[c t] rnd] now] moves IH]; intros gs gs'; simpl.
  - intros [= <-]. by rewrite app_nil_r.
  - destruct (make_move self c t rnd now gs) as [[e|o] gs1|e gs1] eqn:Hm; try done.
    intros Hplay. rewrite (IH _ _ Hplay).
    apply make_move_step in Hm as (_ & _ & _ & -> & -> & _).
    destruct (bool_decide _); solve_Permutation.
Qed.

(** X15. In a session reached from a new game by accepted moves no champion
    is drafted twice: the picks and bans of the player and of the opponent,
    taken together, hold no champion more than once; all of them are
    champions of the pool; and the picks and bans of the player are the
    champions that the player submitted. *)
Theorem play_never_drafts_twice self game_id player_name difficulty m started moves gs :
  play self moves (new_game_state game_id player_name difficulty m started) = Some gs →
  NoDup (player_picks gs ++ player_bans gs ++ ai_picks gs ++ ai_bans gs)
  ∧ (∀ c, c ∈ player_picks gs ++ player_bans gs ++ ai_picks gs ++ ai_bans gs →
          c ∈ all_champions (assistant self))
  ∧ player_picks gs ++ player_bans gs ≡ₚ map (λ mv, mv.1.1.1) moves.
Proof.
  intros Hplay.
  destruct (play_induction self (draft_ok self) (draft_ok_step self) moves _ _
              (draft_ok_fresh self game_id player_name difficulty m started) Hplay)
    as [Hnd Hsub].
  split; [done|]. split; [done|].
  by rewrite (play_player_champions _ _ _ _ Hplay).
Qed.

(** X15: the hypothesis holds of the session that [twenty_moves] lead to,
    which has drafted no champion twice. *)
Lemma play_never_drafts_twice_witness :
  play league_engine twenty_moves (league_session "hard") = Some session_after_twenty
  ∧ NoDup (player_picks session_after_twenty ++ player_bans session_after_twenty
           ++ ai_picks session_after_twenty ++ ai_bans session_after_twenty).
Proof.
  assert (play league_engine twenty_moves (league_session "hard")
          = Some session_after_twenty) as H by (vm_compute; reflexivity).
  split; [exact H|].
  exact (proj1 (play_never_drafts_twice league_engine _ _ _ _ _ _ _ H)).
Defined.

Lemma sizes_ok_step self c t rnd now gs o gs' :
  sizes_ok gs → make_move self c t rnd now gs = Return (MoveDone o) gs' → sizes_ok gs'.
Proof.
  intros (H0 & H1 & H2 & H3 & H4) H. apply make_move_step in H
    as (_ & _ & _ & P1 & P2 & P3 & P4 & P5 & _).
  unfold sizes_ok. rewrite P1, P2, P3, P4, P5, bans_before_succ by done.
  destruct (bool_decide _); rewrite ?length_app; simpl; lia.
Qed.

Lemma bans_before_le_0 (n : Z) : n ≤ 0 → bans_before n = 0.
Proof.
  intros Hn. unfold bans_before, range. by replace (Z.to_nat (n - 0)) with 0%nat by lia.
Qed.

Lemma bans_before_from_13 (n : Z) : 13 ≤ n → bans_before n = 7.
Proof.
  intros Hn. replace n with (13 + Z.of_nat (Z.to_nat (n - 13))) by lia.
  induction (Z.to_nat (n - 13)) as [|k IH]; [by vm_compute|].
  rewrite Nat2Z.inj_succ, <- Z.add_1_r, Z.add_assoc, bans_before_succ, IH by lia.
  rewrite bool_decide_eq_false_2; [done|].
  rewrite action_type_of_ban, !elem_of_cons, elem_of_nil. lia.
Qed.

Lemma bans_before_le_7 (n : Z) : 0 ≤ bans_before n ≤ 7.
Proof.
  destruct (decide (13 ≤ n)); [rewrite bans_before_from_13 by done; lia|].
  destruct (decide (n ≤ 0)); [rewrite bans_before_le_0 by done; lia|].
  assert (n ∈ [1; 2; 3; 4; 5; 6; 7; 8; 9; 10; 11; 12]) as Hin.
  { rewrite !elem_of_cons, elem_of_nil. lia. }
  rewrite !elem_of_cons, elem_of_nil in Hin.
  repeat (destruct Hin as [->|Hin]; [by vm_compute|]). done.
Qed.

(** X16. In a session reached from a new game by [n] accepted moves each
    side has banned as many champions as there are ban phases among the
    phases 0 .. n - 1, and picked n minus that many; no side ever holds more
    than 7 bans, and after the twenty moves of a complete game each side
    holds 7 bans and 13 picks. *)
Theorem play_draft_sizes self game_id player_name difficulty m started moves gs :
  play self moves (new_game_state game_id player_name difficulty m started) = Some gs →
  let n := Z.of_nat (length moves) in
  Z.of_nat (length (player_bans gs)) = bans_before n
  ∧ Z.of_nat (length (ai_bans gs)) = bans_before n
  ∧ Z.of_nat (length (player_picks gs)) = n - bans_before n
  ∧ Z.of_nat (length (ai_picks gs)) = n - bans_before n
  ∧ bans_before n ≤ 7
  ∧ (n = 20 →
     length (player_bans gs) = 7%nat ∧ length (player_picks gs) = 13%nat
     ∧ length (ai_bans gs) = 7%nat ∧ length (ai_picks gs) = 13%nat).
Proof.
  intros Hplay n.
  assert (sizes_ok (new_game_state game_id player_name difficulty m started)) as H0.
  { unfold sizes_ok. cbn. rewrite bans_before_le_0 by done. lia. }
  destruct (play_induction self sizes_ok (sizes_ok_step self) moves _ _ H0 Hplay)
    as (_ & H1 & H2 & H3 & H4).
  destruct (play_invariant self moves _ _ Hplay) as (Hph & _).
  cbn [current_phase new_game_state] in Hph. rewrite Z.add_0_l in Hph. fold n in Hph.
  rewrite Hph in *. split_and!; try done; [apply bans_before_le_7|].
  intros Hn. rewrite Hn, bans_before_from_13 in * by lia. lia.
Qed.

(** X16: the hypothesis holds of the session that [twenty_moves] lead to,
    in which the player holds 7 bans and 13 picks. *)
Lemma play_draft_sizes_witness :
  play league_engine twenty_moves (league_session "hard") = Some session_after_twenty
  ∧ length (player_bans session_after_twenty) = 7%nat
  ∧ length (player_picks session_after_twenty) = 13%nat.
Proof.
  assert (play league_engine twenty_moves (league_session "hard")
          = Some session_after_twenty) as H by (vm_compute; reflexivity).
  split; [exact H|].
  destruct (play_draft_sizes league_engine _ _ _ _ _ _ _ H) as (_ & _ & _ & _ & _ & H20).
  destruct (H20 eq_refl) as (H1 & H2 & _). split; [exact H1|exact H2].
Defined.

(** ** The time bonus *)

Lemma float_9_9_nearest : round64 (99 # 10) = Finite float_9_9.
Proof. vm_compute. reflexivity. Qed.

(** The bonus exceeds 200 exactly up to the float 9.9: the difference
    [30 - t] then rounds to at least the float 20.1, whose product with 10
    rounds to 201 or more; for a larger [t] the difference rounds to the
    float before 20.1 or less, and the product stays below 201. *)
Lemma speed_bonus_threshold (t : Q) (tb : Z) :
  time_bonus_of t = Some tb → 200 < tb ↔ (t <= float_9_9)%Q.
Proof.
  intros Htb.
  set (g := (inject_Z 5657647031884186 * pow2 (4 - 52))%Q).
  set (g' := (inject_Z (5657647031884186 - 1) * pow2 (4 - 52))%Q).
  set (m := ((inject_Z 5657647031884186 - (1 # 2)) * pow2 (4 - 52))%Q).
  set (h' := (inject_Z (7072058789855232 - 1) * pow2 (7 - 52))%Q).
  set (n := ((inject_Z 7072058789855232 - (1 # 2)) * pow2 (7 - 52))%Q).
  assert (m == 30 - float_9_9)%Q as Em by closed_Q.
  assert (201 <= g * 10)%Q as Hg by closed_Q.
  assert (g' * 10 < n)%Q as Hg' by closed_Q.
  assert (h' < 201)%Q as Hh' by closed_Q.
  assert (inject_Z 201 * pow2 0 == 201)%Q as E201 by closed_Q.
  assert (m <= 30 - t → g <= nearest (30 - t))%Q as Hup.
  { intros H. apply nearest_above_midpoint; [lia|lia|reflexivity|exact H]. }
  assert (30 - t < m → nearest (30 - t) <= g')%Q as Hdown.
  { intros H. apply nearest_below_midpoint; [lia|lia|exact H]. }
  assert (∀ y, y < n → nearest y <= h')%Q as Hdown'.
  { intros y H. apply nearest_below_midpoint; [lia|lia|exact H]. }
  assert (∀ y, 201 <= y → 201 <= nearest y)%Q as Hup'.
  { intros y H. rewrite <- E201 in *. apply nearest_ge; [lia|lia|exact H]. }
  clearbody g g' m h' n.
  destruct (time_bonus_of_cases t)
    as [[Hx E]|[(d & Hd & Hd0 & _ & [(p & Hp & _ & E)|[_ E]])|[_ E]]];
    rewrite E in Htb; try discriminate; injection Htb as <-.
  - split; [lia|]. intros Ht. specialize (Hup ltac:(lra)). lra.
  - assert (0 <= p)%Q as Hp0 by (rewrite Hp; apply nearest_sign_nonneg; lra).
    split.
    + intros Hlt. assert (201 ≤ int_of_float p) as H201 by lia.
      apply int_of_float_ge in H201; [|done]. change (inject_Z 201) with 201%Q in H201.
      destruct (Qlt_le_dec float_9_9 t) as [Ht|Ht]; [|done].
      specialize (Hdown ltac:(lra)). specialize (Hdown' (d * 10)%Q ltac:(lra)). lra.
    + intros Ht. assert (201 ≤ int_of_float p); [|lia].
      apply int_of_float_ge; [done|]. change (inject_Z 201) with 201%Q.
      specialize (Hup ltac:(lra)). specialize (Hup' (d * 10)%Q ltac:(lra)). lra.
Qed.

(** The bonus overflows exactly up to [overflow_time]: the difference then
    rounds to a float whose product with 10 is [2^1024] or more. *)
Lemma overflow_threshold (t : Q) : time_bonus_of t = None ↔ (t <= overflow_time)%Q.
Proof.
  set (g := (inject_Z 7205759403792794 * pow2 (1020 - 52))%Q).
  set (g' := (inject_Z (7205759403792794 - 1) * pow2 (1020 - 52))%Q).
  set (m := ((inject_Z 7205759403792794 - (1 # 2)) * pow2 (1020 - 52))%Q).
  set (h' := (inject_Z (2 ^ 53 - 1) * pow2 (1023 - 52))%Q).
  set (n := ((inject_Z (2 ^ 53) - (1 # 2)) * pow2 (1023 - 52))%Q).
  set (top := pow2 1024).
  assert (m == 30 - overflow_time)%Q as Em by closed_Q.
  assert (top <= g * 10)%Q as Hg by closed_Q.
  assert (g' * 10 < n)%Q as Hg' by closed_Q.
  assert (h' < top)%Q as Hh' by closed_Q.
  assert (0 < g)%Q as Hg0 by closed_Q.
  assert (g' < top)%Q as Hg'1 by closed_Q.
  assert (0 < top)%Q as Hpos by apply pow2_pos.
  assert (m <= 30 - t → g <= nearest (30 - t))%Q as Hup.
  { intros H. apply nearest_above_midpoint; [lia|lia|reflexivity|exact H]. }
  assert (30 - t < m → nearest (30 - t) <= g')%Q as Hdown.
  { intros H. apply nearest_below_midpoint; [lia|lia|exact H]. }
  assert (∀ y, y < n → nearest y <= h')%Q as Hdown'.
  { intros y H. apply nearest_below_midpoint; [lia|lia|exact H]. }
  assert (∀ y, top <= y → top <= nearest y)%Q as Hup'.
  { intros y H. pose proof (nearest_ge y 1 1024 ltac:(lia) ltac:(lia)) as H'.
    change (inject_Z 1) with 1%Q in H'. fold top in H'.
    specialize (H' ltac:(lra)). lra. }
  pose proof (time_bonus_of_cases t) as Hc. cbv zeta in Hc. fold top in Hc.
  clearbody g g' m h' n top.
  destruct Hc as [[Hx E]|[(d & Hd & Hd0 & Hd1 & [(p & Hp & Hp1 & E)|[Hinf E]])|[Hinf E]]];
    rewrite E.
  - split; [done|]. intros Ht. specialize (Hup ltac:(lra)). lra.
  - split; [done|]. intros Ht.
    specialize (Hup ltac:(lra)). specialize (Hup' (d * 10)%Q ltac:(lra)). lra.
  - split; [|done]. intros _.
    destruct (Qlt_le_dec overflow_time t) as [Ht|Ht]; [|done].
    specialize (Hdown ltac:(lra)). specialize (Hdown' (d * 10)%Q ltac:(lra)). lra.
  - split; [|done]. intros _.
    destruct (Qlt_le_dec overflow_time t) as [Ht|Ht]; [|done].
    specialize (Hdown ltac:(lra)). lra.
Qed.

Lemma time_bonus_of_bounds (t : Q) (tb : Z) :
  time_bonus_of t = Some tb →
  ((30 <= t)%Q → tb = 0) ∧ ((0 <= t)%Q → tb ≤ 300) ∧ ((t <= 0)%Q → 300 ≤ tb).
Proof.
  intros Htb.
  assert (inject_Z 15 * pow2 1 == 30)%Q as E30 by closed_Q.
  assert (inject_Z 75 * pow2 2 == 300)%Q as E300 by closed_Q.
  assert (∀ y, y <= 30 → nearest y <= 30)%Q as Hle30.
  { intros y H. rewrite <- E30 in *. apply nearest_le; [lia|lia|exact H]. }
  assert (∀ y, 30 <= y → 30 <= nearest y)%Q as Hge30.
  { intros y H. rewrite <- E30 in *. apply nearest_ge; [lia|lia|exact H]. }
  assert (∀ y, y <= 300 → nearest y <= 300)%Q as Hle300.
  { intros y H. rewrite <- E300 in *. apply nearest_le; [lia|lia|exact H]. }
  assert (∀ y, 300 <= y → 300 <= nearest y)%Q as Hge300.
  { intros y H. rewrite <- E300 in *. apply nearest_ge; [lia|lia|exact H]. }
  destruct (time_bonus_of_cases t)
    as [[Hx E]|[(d & Hd & Hd0 & _ & [(p & Hp & _ & E)|[_ E]])|[_ E]]];
    rewrite E in Htb; try discriminate; injection Htb as <-.
  - split_and!; [done|done|].
    intros Ht. specialize (Hge30 (30 - t)%Q ltac:(lra)). lra.
  - assert (0 <= p)%Q as Hp0 by (rewrite Hp; apply nearest_sign_nonneg; lra).
    split_and!.
    + intros Ht. pose proof (nearest_sign_nonpos (30 - t)%Q ltac:(lra)). lra.
    + intros Ht. apply Z.nlt_ge. intros Hlt.
      assert (301 ≤ int_of_float p) as H301 by lia.
      apply int_of_float_ge in H301; [|done]. change (inject_Z 301) with 301%Q in H301.
      specialize (Hle30 (30 - t)%Q ltac:(lra)).
      specialize (Hle300 (d * 10)%Q ltac:(lra)). lra.
    + intros Ht. apply int_of_float_ge; [done|]. change (inject_Z 300) with 300%Q.
      specialize (Hge30 (30 - t)%Q ltac:(lra)).
      specialize (Hge300 (d * 10)%Q ltac:(lra)). lra.
Qed.

(** X17. The time bonus [int(max(0, 30 - time_taken) * 10)], in the
    arithmetic of binary64 floats.  It overflows, and [score_pick] raises
    [OverflowError], exactly for the times up to [overflow_time], about
    -1.8e307.  Otherwise it is never negative; it is 0 from thirty seconds
    on and at most 300 for a time that is not negative, but a negative time
    is not refused and earns 300 or more.  It exceeds 200, and is then
    awarded once more as the "Speed Bonus", exactly for the times up to the
    float 9.9 (which is a little above 9.9, so that a move made in 9.9
    seconds earns 201 points and the bonus a second time). *)
Theorem time_bonus_of_range (t : Q) :
  (time_bonus_of t = None ↔ (t <= overflow_time)%Q)
  ∧ (overflow_time < - (10 ^ 307))%Q
  ∧ (∀ tb, time_bonus_of t = Some tb →
       0 ≤ tb
       ∧ ((30 <= t)%Q → tb = 0)
       ∧ ((0 <= t)%Q → tb ≤ 300)
       ∧ ((t <= 0)%Q → 300 ≤ tb)
       ∧ (200 < tb ↔ (t <= float_9_9)%Q))
  ∧ round64 (99 # 10) = Finite float_9_9
  ∧ (99 # 10 < float_9_9)%Q
  ∧ time_bonus_of float_9_9 = Some 201.
Proof.
  split; [apply overflow_threshold|]. split; [closed_Q|].
  split; [|split; [apply float_9_9_nearest|split; [closed_Q|by vm_compute]]].
  intros tb Htb.
  destruct (time_bonus_of_bounds t tb Htb) as (H1 & H2 & H3).
  split_and!; [by eapply time_bonus_of_nonneg|done|done|done|].
  by apply speed_bonus_threshold.
Qed.

(** The optimal choice made in 9.9 seconds in a fresh session: the time
    bonus is 201, not 200, and is awarded twice; the move earns
    100 + 201 + 50 + 201 + 25 points. *)
Example score_pick_at_9_9 :
  ∃ total reasoning extras gs',
    score_pick "X" only_x float_9_9 (league_session "easy")
    = Return (total, reasoning, extras) gs'
    ∧ ex_time_bonus extras = 201
    ∧ bonuses extras = [("First Blood", 50); ("Speed Bonus", 201); ("Streak", 25)]
    ∧ total = 577.
Proof. eexists _, _, _, _. split; [vm_compute; reflexivity|]. by split_and!. Qed.

(** The same choice with a time taken of -1e308: [score_pick] raises
    [OverflowError], and the session has counted a perfect move and a
    streak of 1 all the same. *)
Example score_pick_overflow :
  ∃ gs',
    score_pick "X" only_x (- (10 ^ 308)) (league_session "easy") = Raise OverflowError gs'
    ∧ perfect_moves gs' = 1 ∧ streak_count gs' = 1
    ∧ moves_evaluated gs' = [] ∧ score gs' = 0.
Proof. eexists. split; [vm_compute; reflexivity|]. by split_and!. Qed.

(** ** The score of a session *)

Lemma base_score_of_nonneg rank : 0 ≤ base_score_of rank.
Proof.
  unfold base_score_of. destruct rank as [r|]; [|done].
  repeat (destruct (_ =? _) || destruct (_ <=? _)); done.
Qed.

Lemma named_bonuses_nonneg rank tb streak' perfect' combo' :
  0 ≤ Zsum (map snd (named_bonuses rank tb streak' perfect' combo')).
Proof.
  unfold named_bonuses.
  destruct (is_rank0 rank && (perfect' =? 1)); destruct (is_rank0 rank && (3 <=? streak'));
    destruct (combo' =? 1); destruct (Z.ltb_spec 200 tb); destruct (Z.ltb_spec 0 streak');
    cbn [app map snd Zsum fold_right]; lia.
Qed.

Lemma Zsum_app (l1 l2 : list Z) : Zsum (l1 ++ l2) = Zsum l1 + Zsum l2.
Proof. induction l1 as [|x l1 IH]; simpl; [done|]. rewrite IH. lia. Qed.

Lemma Zsum_nonneg (l : list Z) : Forall (λ x, 0 ≤ x) l → 0 ≤ Zsum l.
Proof. induction 1; simpl; lia. Qed.

(** The records that a series of accepted moves appends. *)
Lemma play_moves_evaluated self moves : ∀ gs gs',
  play self moves gs = Some gs' →
  ∃ added,
    moves_evaluated gs' = moves_evaluated gs ++ added
    ∧ score gs' = score gs + Zsum (map mv_score added)
    ∧ Forall (λ mv, 0 ≤ mv_score mv) added
    ∧ map mv_champion added = map (λ mv, mv.1.1.1) moves
    ∧ map mv_time_taken added = map (λ mv, mv.1.1.2) moves
    ∧ map mv_phase added
      = map (λ i, current_phase gs + Z.of_nat i) (seq 0 (length moves)).
Proof.
  induction moves as [|[[[c t] rnd] now] moves IH]; intros gs gs'; simpl.
  - intros [= <-]. exists []. rewrite app_nil_r. simpl. split_and!; try done; lia.
  - destruct (make_move self c t rnd now gs) as [[e|o] gs1|e gs1] eqn:Hm; try done.
    intros (added & H1 & H2 & H3 & H4 & H5 & H6)%IH.
    pose proof (make_move_fields _ _ _ _ _ _ _ _ Hm)
      as (_ & _ & _ & _ & Hph & _ & Hch & _).
    pose proof (make_move_accepted _ _ _ _ _ _ _ _ Hm)
      as (? & ? & ? & ? & ? & _ & _ & _ & Hpm & _).
    assert (mv_time_taken (player_move o) = t) as Htm by (by rewrite Hpm).
    apply make_move_step in Hm
      as (_ & _ & _ & _ & _ & _ & _ & P5 & P6 & P7 & P8 & _).
    exists (player_move o :: added). rewrite H1, H2, P6, P7, <- app_assoc. simpl.
    split_and!; try done; try lia.
    + constructor; [|done]. destruct P8 as (tb & Htb & ->).
      pose proof (base_score_of_nonneg
                    (find_rank 0 c (visible_hints (difficulty gs)
                                      (player_recommendations self gs)))).
      pose proof (named_bonuses_nonneg
                    (find_rank 0 c (visible_hints (difficulty gs)
                                      (player_recommendations self gs)))
                    tb (streak_count gs1) (perfect_moves gs1)
                    (combo_count gs1)).
      pose proof (time_bonus_of_nonneg t tb Htb). lia.
    + by rewrite Hch, H4.
    + by rewrite Htm, H5.
    + rewrite Hph, H6, Z.add_0_r, P5. f_equal.
      rewrite <- seq_shift, map_map. apply map_ext. intros i. lia.
Qed.

Lemma wp_bonus_of_nonneg p : 0 ≤ wp_bonus_of p.
Proof. unfold wp_bonus_of. repeat destruct (Qgtb _ _); done. Qed.

Lemma bonus_of_nonneg key : 0 ≤ bonus_of key.
Proof.
  unfold bonus_of. destruct (achievements_table !! key) as [a|] eqn:E; [|done].
  apply elem_of_map_to_list in E.
  assert (Forall (λ kv, 0 ≤ ach_bonus kv.2) (map_to_list achievements_table)) as Hall.
  { apply (bool_decide_unpack _). by vm_compute. }
  eapply Forall_forall in Hall; [|exact E]. exact Hall.
Qed.

Lemma achievement_bonus_of_nonneg l : 0 ≤ achievement_bonus_of l.
Proof.
  unfold achievement_bonus_of. apply Zsum_nonneg, Forall_forall.
  intros x (k & -> & _)%list_elem_of_fmap. apply bonus_of_nonneg.
Qed.

(** X18. In a session reached from a new game by accepted moves one record
    is kept per move, in the order of the moves, with the champion and the
    time submitted and the phase indices 0, 1, 2, ...; no move is worth
    fewer than 0 points; the score of the session is the sum of the points
    of its records, which is also the base score of
    [calculate_final_score], and the final total is never below it. *)
Theorem play_score_bookkeeping self game_id player_name difficulty m started moves gs :
  play self moves (new_game_state game_id player_name difficulty m started) = Some gs →
  map mv_champion (moves_evaluated gs) = map (λ mv, mv.1.1.1) moves
  ∧ map mv_time_taken (moves_evaluated gs) = map (λ mv, mv.1.1.2) moves
  ∧ map mv_phase (moves_evaluated gs) = map Z.of_nat (seq 0 (length moves))
  ∧ Forall (λ mv, 0 ≤ mv_score mv) (moves_evaluated gs)
  ∧ score gs = Zsum (map mv_score (moves_evaluated gs))
  ∧ fs_base_score (calculate_final_score gs) = score gs
  ∧ score gs ≤ total_score (calculate_final_score gs).
Proof.
  intros (added & H1 & H2 & H3 & H4 & H5 & H6)%play_moves_evaluated.
  cbn [moves_evaluated score current_phase new_game_state app] in *.
  rewrite Z.add_0_l in H2.
  rewrite H1. split_and!; try done.
  - unfold calculate_final_score. rewrite H1. destruct (if 3000 <=? _ then _ else _).
    cbn. lia.
  - unfold calculate_final_score. rewrite H1. destruct (if 3000 <=? _ then _ else _).
    cbn. pose proof (wp_bonus_of_nonneg (final_win_probability gs)).
    pose proof (achievement_bonus_of_nonneg (achievements gs)). lia.
Qed.

(** X18: the hypothesis holds of the session that [twenty_moves] lead to,
    whose score is the sum of the points of its records. *)
Lemma play_score_bookkeeping_witness :
  play league_engine twenty_moves (league_session "hard") = Some session_after_twenty
  ∧ score session_after_twenty = Zsum (map mv_score (moves_evaluated session_after_twenty))
  ∧ score session_after_twenty ≤ total_score (calculate_final_score session_after_twenty).
Proof.
  assert (play league_engine twenty_moves (league_session "hard")
          = Some session_after_twenty) as H by (vm_compute; reflexivity).
  split; [exact H|].
  destruct (play_score_bookkeeping league_engine _ _ _ _ _ _ _ H)
    as (_ & _ & _ & _ & H1 & _ & H2).
  split; [exact H1|exact H2].
Defined.

(** ** Streaks, perfect moves and combos *)

Lemma base_score_of_100 rank : base_score_of rank = 100 ↔ is_rank0 rank = true.
Proof.
  unfold base_score_of, is_rank0. destruct rank as [r|]; [|done].
  destruct (r =? 0); [done|]. destruct (r <=? 2); [done|]. by destruct (r <=? 5).
Qed.

Lemma counters_ok_step self c t rnd now gs o gs' :
  counters_ok gs → make_move self c t rnd now gs = Return (MoveDone o) gs' →
  counters_ok gs'.
Proof.
  intros (H1 & H2 & H3 & H4) H.
  apply make_move_step in H
    as (_ & _ & _ & _ & _ & _ & _ & _ & P6 & _ & _ & P9 & _ & P11 & P12 & P13 & _ & _ & _
        & P16 & _).
  cbv zeta in *.
  set (rank := find_rank 0 c _) in *.
  unfold counters_ok. rewrite P6, P11, P12, P13, P16.
  rewrite filter_app, length_app, filter_cons, filter_nil.
  pose proof (base_score_of_100 rank) as Hb. rewrite <- P9 in Hb.
  assert (difficulty gs = "pro" → rank = None) as Hpro.
  { intros Hd. subst rank. by rewrite Hd. }
  clearbody rank. unfold streak_after.
  destruct rank as [r|]; simpl in *.
  - destruct (Z.eqb_spec r 0) as [Hr0|Hr].
    + rewrite decide_True by (by apply Hb). cbn [length andb].
      split_and!; try lia; try (destruct (3 <=? _); lia).
      intros Hd. by specialize (Hpro Hd).
    + rewrite decide_False by (rewrite Hb; done). cbn [length andb].
      split_and!; try lia; try (destruct (r <=? 2); lia).
      intros Hd. by specialize (Hpro Hd).
  - rewrite decide_False by (rewrite Hb; done). cbn [length]. split_and!; try lia. done.
Qed.

(** X19. In a session reached from a new game by accepted moves the streak
    and the number of combos are between 0 and the number of perfect moves,
    which is the number of recorded moves with base points 100 and never
    exceeds the number of moves; at difficulty "pro" it stays 0. *)
Theorem play_counters self game_id player_name difficulty m started moves gs :
  play self moves (new_game_state game_id player_name difficulty m started) = Some gs →
  0 ≤ streak_count gs ≤ perfect_moves gs
  ∧ 0 ≤ combo_count gs ≤ perfect_moves gs
  ∧ perfect_moves gs
    = Z.of_nat (length (filter (λ mv, ex_base (mv_extras mv) = 100) (moves_evaluated gs)))
  ∧ perfect_moves gs ≤ Z.of_nat (length moves)
  ∧ (difficulty = "pro" → perfect_moves gs = 0 ∧ streak_count gs = 0 ∧ combo_count gs = 0).
Proof.
  intros Hplay.
  assert (counters_ok (new_game_state game_id player_name difficulty m started)) as H0.
  { unfold counters_ok. cbn. split_and!; done. }
  destruct (play_induction self counters_ok (counters_ok_step self) moves _ _ H0 Hplay)
    as (H1 & H2 & H3 & H4).
  destruct (play_invariant self moves _ _ Hplay) as (_ & Hd & _).
  cbn in Hd.
  destruct (play_moves_evaluated self moves _ _ Hplay) as (added & Hm & _ & _ & Hc & _).
  cbn [moves_evaluated new_game_state app] in Hm.
  split; [done|]. split; [done|]. split; [done|]. split.
  - rewrite H3. pose proof (length_filter (λ mv, ex_base (mv_extras mv) = 100)
                              (moves_evaluated gs)) as Hle.
    rewrite Hm in *. apply (f_equal length) in Hc. rewrite !length_map in Hc. lia.
  - intros Hpro. rewrite Hd in H4. specialize (H4 Hpro). lia.
Qed.

(** X19: the hypothesis holds of the session that [twenty_moves] lead to. *)
Lemma play_counters_witness :
  play league_engine twenty_moves (league_session "hard") = Some session_after_twenty
  ∧ 0 ≤ streak_count session_after_twenty ≤ perfect_moves session_after_twenty.
Proof.
  assert (play league_engine twenty_moves (league_session "hard")
          = Some session_after_twenty) as H by (vm_compute; reflexivity).
  split; [exact H|].
  exact (proj1 (play_counters league_engine _ _ _ _ _ _ _ H)).
Defined.

(** ** The base points of a move *)

Lemma find_rank_bound i c l r :
  find_rank i c l = Some r → i ≤ r < i + Z.of_nat (length l).
Proof.
  revert i. induction l as [|x l IH]; intros i; simpl; [done|].
  case_bool_decide; [intros [= <-]; lia|]. intros Hr%IH. lia.
Qed.

Lemma visible_hints_length difficulty recs :
  let n := length (visible_hints difficulty recs) in
  (n ≤ 5)%nat
  ∧ (difficulty = "medium" → (n ≤ 3)%nat)
  ∧ (difficulty = "hard" → (n ≤ 1)%nat)
  ∧ (difficulty ∉ ["easy"; "medium"; "hard"] → n = 0%nat).
Proof.
  unfold visible_hints. rewrite !not_elem_of_cons.
  repeat case_bool_decide; rewrite ?length_take; cbn [length]; subst;
    split_and!; try lia; try discriminate; tauto.
Qed.

(** X20. The base points of an accepted move are 0, 50, 75 or 100: the
    rank of the move is looked up among the hints of the difficulty, which
    are five at most, so the 25 points of a rank above 5 are never awarded.
    At "medium" the base is 0, 75 or 100, at "hard" 0 or 100, and at any
    other difficulty than these and "easy" it is 0. *)
Theorem make_move_base_points self c t rnd now gs o gs' :
  make_move self c t rnd now gs = Return (MoveDone o) gs' →
  let base := ex_base (mv_extras (player_move o)) in
  base ∈ [0; 50; 75; 100]
  ∧ (difficulty gs = "medium" → base ∈ [0; 75; 100])
  ∧ (difficulty gs = "hard" → base ∈ [0; 100])
  ∧ (difficulty gs ∉ ["easy"; "medium"; "hard"] → base = 0).
Proof.
  intros H base. subst base.
  rewrite (make_move_graded_among_hints _ _ _ _ _ _ _ _ H).
  destruct (visible_hints_length (difficulty gs) (player_recommendations self gs))
    as (L5 & L3 & L1 & L0).
  destruct (find_rank 0 c _) as [r|] eqn:Hr.
  - apply find_rank_bound in Hr. unfold base_score_of.
    unfold scoring_rules.optimal_pick, scoring_rules.good_pick,
      scoring_rules.acceptable_pick, scoring_rules.suboptimal_pick.
    split_and!.
    + rewrite !elem_of_cons, !elem_of_nil. case_tests; lia.
    + intros Hd. specialize (L3 Hd). rewrite !elem_of_cons, !elem_of_nil. case_tests; lia.
    + intros Hd. specialize (L1 Hd). rewrite !elem_of_cons, !elem_of_nil. case_tests; lia.
    + intros Hd. specialize (L0 Hd). lia.
  - cbn. rewrite !elem_of_cons. split_and!; auto.
Qed.

(** X20: the first move of a "hard" session of [league_engine] is accepted,
    with base points 0 or 100. *)
Lemma make_move_base_points_witness :
  ∃ o gs',
    make_move league_engine "C00" 30 0 0 (league_session "hard") = Return (MoveDone o) gs'
    ∧ ex_base (mv_extras (player_move o)) ∈ [0; 100].
Proof.
  destruct (make_move league_engine "C00" 30 0 0 (league_session "hard"))
    as [[e|o] gs'|e gs'] eqn:H;
    [vm_compute in H; discriminate H| |vm_compute in H; discriminate H].
  exists o, gs'. split; [reflexivity|].
  destruct (make_move_base_points league_engine _ _ _ _ _ _ _ H) as (_ & _ & Hh & _).
  apply Hh. reflexivity.
Defined.

(** ** Achievements of a session *)

Lemma achievements_ok_step self c t rnd now gs o gs' :
  achievements_ok gs → make_move self c t rnd now gs = Return (MoveDone o) gs' →
  achievements_ok gs'.
Proof.
  intros (H1 & H2 & H3) H. apply make_move_step in H
    as (_ & _ & _ & _ & _ & _ & _ & P5 & _ & _ & _ & _ & _ & _ & _ & _
        & (new & Hnew & N1 & N2 & N3 & N4) & _).
  unfold achievements_ok. rewrite Hnew, P5. split_and!.
  - apply NoDup_app. split_and!; [done| |done]. intros x Hx Hx'. by apply (N3 x).
  - intros x [Hx|Hx]%elem_of_app; [by apply H2|by apply N1].
  - intros Hlt. rewrite N4, H3 by lia. done.
Qed.

Lemma achievement_bonus_of_submseteq l k :
  l ⊆+ k → achievement_bonus_of l ≤ achievement_bonus_of k.
Proof.
  induction 1 as [|x l k _ IH|x y l|x l k _ IH|l1 l2 l3 _ IH1 _ IH2];
    rewrite ?achievement_bonus_of_cons; try lia.
  pose proof (bonus_of_nonneg x). case_bool_decide; lia.
Qed.

(** X21. In a session reached from a new game by accepted moves the
    achievements hold no key twice and only the keys "flawless", "speedster"
    and "draft_god" (the five other achievements of the scorer's table are
    never unlocked); there are none before the twentieth move; and the
    achievement bonus of the final score is between 0 and 925. *)
Theorem play_achievements self game_id player_name difficulty m started moves gs :
  play self moves (new_game_state game_id player_name difficulty m started) = Some gs →
  NoDup (achievements gs)
  ∧ achievements gs ⊆ ["flawless"; "speedster"; "draft_god"]
  ∧ ((length moves < 20)%nat → achievements gs = [])
  ∧ 0 ≤ achievement_bonus (calculate_final_score gs) ≤ 925.
Proof.
  intros Hplay.
  assert (achievements_ok (new_game_state game_id player_name difficulty m started)) as H0.
  { unfold achievements_ok. cbn. split_and!; [constructor|by intros x ?%elem_of_nil|done]. }
  destruct (play_induction self achievements_ok (achievements_ok_step self) moves _ _ H0 Hplay)
    as (H1 & H2 & H3).
  destruct (play_invariant self moves _ _ Hplay) as (Hph & _).
  cbn [current_phase new_game_state] in Hph.
  split; [done|]. split; [done|]. split; [intros Hlt; apply H3; lia|].
  assert (achievement_bonus (calculate_final_score gs) = achievement_bonus_of (achievements gs))
    as ->.
  { unfold calculate_final_score. by destruct (if 3000 <=? _ then _ else _). }
  split; [apply achievement_bonus_of_nonneg|].
  transitivity (achievement_bonus_of unlockable); [|by vm_compute].
  apply achievement_bonus_of_submseteq. by apply NoDup_submseteq.
Qed.

(** X21: the hypothesis holds of the session that [twenty_moves] lead to. *)
Lemma play_achievements_witness :
  play league_engine twenty_moves (league_session "hard") = Some session_after_twenty
  ∧ NoDup (achievements session_after_twenty)
  ∧ achievements session_after_twenty ⊆ ["flawless"; "speedster"; "draft_god"].
Proof.
  assert (play league_engine twenty_moves (league_session "hard")
          = Some session_after_twenty) as H by (vm_compute; reflexivity).
  split; [exact H|].
  destruct (play_achievements league_engine _ _ _ _ _ _ _ H) as (H1 & H2 & _).
  split; [exact H1|exact H2].
Defined.

(** ** Asking for the actions of a phase *)

(** X22. [get_available_actions] never changes the session.  It raises
    [IndexError] exactly when the difficulty is "hard" and no champion is
    left unpicked and unbanned (it indexes the first recommendation without
    a guard); in every other case it returns the action of the phase, at
    most 50 champions, all of them unpicked and unbanned, a time limit of
    30, and at most five hints, each of which recommends a champion that is
    unpicked and unbanned. *)
Theorem get_available_actions_total self gs :
  (difficulty gs = "hard" ∧ available (assistant self) gs = [] →
   get_available_actions self gs = Raise IndexError gs)
  ∧ (¬ (difficulty gs = "hard" ∧ available (assistant self) gs = []) →
     ∃ actions,
       get_available_actions self gs = Return actions gs
       ∧ action_type actions = action_type_of (current_phase gs)
       ∧ phase actions = current_phase gs
       ∧ time_limit actions = 30
       ∧ (length (available_champions actions) ≤ 50)%nat
       ∧ (∀ c, c ∈ available_champions actions →
               c ∈ all_champions (assistant self)
               ∧ (c ∉ player_picks gs ++ player_bans gs ++ ai_picks gs ++ ai_bans gs))
       ∧ (length (recommendations actions) ≤ 5)%nat
       ∧ (∀ r, r ∈ recommendations actions →
               rec_champion r ∈ available (assistant self) gs)).
Proof.
  rewrite get_available_actions_eq. split.
  - intros [Hd Ha]. apply player_recommendations_nil in Ha.
    by rewrite Hd, Ha.
  - intros Hn.
    destruct (bool_decide (difficulty gs = "hard")
              && bool_decide (player_recommendations self gs = [])) eqn:E.
    { apply andb_true_iff in E as [E1%bool_decide_eq_true E2%bool_decide_eq_true].
      apply player_recommendations_nil in E2. destruct Hn. by split. }
    eexists. split; [reflexivity|]. cbn.
    destruct (visible_hints_length (difficulty gs) (player_recommendations self gs))
      as (L5 & _).
    split_and!; try done.
    + rewrite length_take. lia.
    + intros c Hc%elem_of_take_1%available_spec. rewrite !elem_of_app. tauto.
    + intros r Hr.
      assert (r ∈ player_recommendations self gs) as Hin.
      { revert Hr. unfold visible_hints.
        repeat case_bool_decide; first [apply elem_of_take_1|by intros ?%elem_of_nil]. }
      revert Hin. unfold player_recommendations.
      destruct (bool_decide (current_phase gs ∈ ban_phases)).
      * intros (c & Hc%elem_of_take_1 & ->)%recommend_ban_elem. done.
      * intros (c & Hc%elem_of_take_1 & ->)%recommend_pick_elem. done.
Qed.

(** ** A move that raises *)



Section Raising.
Variable self : DraftMasterGame.




End Raising.



(** ** The registry of sessions *)

(** X24. [start_new_game] raises [IndexError], and registers nothing, when
    the engine has no match to draw.  Otherwise it returns a session at
    phase index 0 with score 0, nothing picked or banned, no move recorded
    and no achievement, made for one of the matches of the engine, and
    registers it under "game_" followed by the clock reading; every session
    registered under another identifier stays as it is, and a session
    already registered under that identifier (started at the same reading)
    is replaced. *)
Theorem start_new_game_registers player_name difficulty rnd now self :
  (matches self = [] →
   start_new_game player_name difficulty rnd now self = Raise IndexError self)
  ∧ (matches self ≠ [] →
     ∃ m gs self',
       start_new_game player_name difficulty rnd now self = Return gs self'
       ∧ m ∈ matches self
       ∧ gs = new_game_state ("game_" +:+ str_of_Z now) player_name difficulty m now
       ∧ current_phase gs = 0 ∧ score gs = 0 ∧ drafted gs = []
       ∧ moves_evaluated gs = [] ∧ achievements gs = []
       ∧ historical_match_id gs = match_id (metadata m)
       ∧ active_games self' = <["game_" +:+ str_of_Z now := gs]> (active_games self)
       ∧ active_games self' !! ("game_" +:+ str_of_Z now) = Some gs
       ∧ (∀ id, id ≠ "game_" +:+ str_of_Z now →
                active_games self' !! id = active_games self !! id)
       ∧ matches self' = matches self ∧ assistant self' = assistant self).
Proof.
  split.
  - intros Hm. unfold start_new_game. run. unfold random_choice. by rewrite Hm.
  - intros Hm. unfold start_new_game, random_choice.
    assert (rnd mod length (matches self) < length (matches self))%nat as Hlt.
    { apply Nat.mod_upper_bound. by destruct (matches self). }
    destruct (lookup_lt_is_Some_2 _ _ Hlt) as [m Hlk].
    exists m. eexists _, _. run. cbn. rewrite Hlk. cbn.
    split; [reflexivity|]. split; [by eapply list_elem_of_lookup_2|].
    split; [reflexivity|]. cbn.
    split_and!; try done.
    + apply lookup_insert_eq.
    + intros id Hid. by apply lookup_insert_ne.
Qed.

(** ** Comparison with the real match *)

(** X26. [_compare_to_real_match] leaves the session as it is.  It returns
    the empty dictionary exactly when no match of the engine has the
    identifier that the session remembers, and raises [IndexError] when the
    first match with that identifier lists no team.  Otherwise it reports,
    for that match, the picks of its first team, the champions that these
    share with the picks of the player (each once), a similarity of 20
    points per shared champion - between 0 and 20 times the number of real
    picks - and whether the first listed team won. *)
Theorem compare_to_real_match_similarity self gs :
  match _compare_to_real_match self gs with
  | Return None gs' =>
    gs' = gs
    ∧ ∀ m, m ∈ matches self → match_id (metadata m) ≠ historical_match_id gs
  | Return (Some cmp) gs' =>
    gs' = gs
    ∧ ∃ m first_team rest,
        m ∈ matches self ∧ match_id (metadata m) = historical_match_id gs
        ∧ team_stats m = first_team :: rest
        ∧ real_team_won cmp = win first_team
        ∧ real_team_picks cmp = get_team_picks (draft m) (team1_id (metadata m))
        ∧ NoDup (shared_champions cmp)
        ∧ (∀ c, c ∈ shared_champions cmp ↔ c ∈ player_picks gs ∧ c ∈ real_team_picks cmp)
        ∧ (similarity cmp == 20 * inject_Z (Z.of_nat (length (shared_champions cmp))))%Q
        ∧ (0 <= similarity cmp
           <= 20 * inject_Z (Z.of_nat (length (real_team_picks cmp))))%Q
  | Raise e gs' =>
    gs' = gs ∧ e = IndexError
    ∧ ∃ m, m ∈ matches self ∧ match_id (metadata m) = historical_match_id gs
           ∧ team_stats m = []
  end.
Proof.
  unfold _compare_to_real_match, index0. run.
  destruct (List.find _ (matches self)) as [m|] eqn:Hfind.
  - apply find_some in Hfind as [Hin%list_elem_of_In Hid%bool_decide_eq_true].
    destruct (team_stats m) as [|first_team rest] eqn:Hts.
    + split; [done|]. split; [done|]. by exists m.
    + split; [done|]. exists m, first_team, rest. cbn.
      set (real := get_team_picks (draft m) (team1_id (metadata m))).
      set (common := (list_to_set (player_picks gs) ∩ list_to_set real : gset string)).
      assert (∀ c, c ∈ elements common ↔ c ∈ player_picks gs ∧ c ∈ real) as Hshared.
      { intros c. subst common. by rewrite elem_of_elements, elem_of_intersection,
          !elem_of_list_to_set. }
      assert (length (elements common) ≤ length real)%nat as Hle.
      { apply submseteq_length, NoDup_submseteq; [apply NoDup_elements|].
        intros c Hc. by apply Hshared in Hc as [_ ?]. }
      assert (size common = length (elements common)) as Hsize by done.
      rewrite Hsize.
      set (n := inject_Z (Z.of_nat (length (elements common)))).
      assert (n / 5 * 100 == 20 * n)%Q as Hsim by field.
      assert (0 <= n)%Q by (unfold Qle; simpl; lia).
      assert (n <= inject_Z (Z.of_nat (length real)))%Q by (unfold Qle; simpl; lia).
      split_and!; try done; [apply NoDup_elements|rewrite Hsim; lra..].
  - split; [done|]. intros m Hm Hid.
    eapply find_none in Hfind; [|by apply list_elem_of_In].
    by rewrite bool_decide_eq_true_2 in Hfind.
Qed.

(** ** Ingestion *)

Lemma extract_draft_fold actions d0 :
  fold_left
    (λ d action,
       let entry := draft_entry action in
       let sequence := sequence d ++ [entry] in
       if bool_decide (act_type entry = "ban")
       then {| bans := bans d ++ [entry]; picks := picks d; sequence := sequence |}
       else if bool_decide (act_type entry = "pick")
       then {| bans := bans d; picks := picks d ++ [entry]; sequence := sequence |}
       else {| bans := bans d; picks := picks d; sequence := sequence |})
    actions d0
  = {| bans := bans d0 ++ filter (λ e, act_type e = "ban") (map draft_entry actions);
       picks := picks d0 ++ filter (λ e, act_type e = "pick") (map draft_entry actions);
       sequence := sequence d0 ++ map draft_entry actions |}.
Proof.
  revert d0. induction actions as [|a actions IH]; intros d0.
  - cbn. rewrite !app_nil_r. by destruct d0.
  - cbn [fold_left map]. rewrite IH. rewrite !filter_cons. cbv zeta.
    case_bool_decide as Hb.
    + rewrite decide_True by done. rewrite decide_False by (rewrite Hb; done).
      cbn [bans picks sequence]. by rewrite <- !app_assoc.
    + rewrite decide_False by done. case_bool_decide as Hp.
      * rewrite decide_True by done. cbn [bans picks sequence]. by rewrite <- !app_assoc.
      * rewrite decide_False by done. cbn [bans picks sequence]. by rewrite <- !app_assoc.
Qed.

Lemma extract_draft_eq game :
  let entries := map draft_entry (default [] (rg_draftActions game)) in
  _extract_draft game
  = {| bans := filter (λ e, act_type e = "ban") entries;
       picks := filter (λ e, act_type e = "pick") entries;
       sequence := entries |}.
Proof. unfold _extract_draft. by rewrite extract_draft_fold. Qed.

(** X27. [_extract_draft] keeps one entry per draft action in [sequence],
    in the order of the actions, with "" for a missing name, team or type
    and 0 for a missing sequence number; [bans] and [picks] are the entries
    of type "ban" and of type "pick", in that order, and an entry of any
    other type is in [sequence] only.  So [get_team_picks] and
    [get_team_bans] of the extracted draft give, for a team, the champions
    of its pick (ban) actions in the order of the draft. *)
Theorem extract_draft_partition game :
  let d := _extract_draft game in
  let entries := map draft_entry (default [] (rg_draftActions game)) in
  sequence d = entries
  ∧ bans d = filter (λ e, act_type e = "ban") entries
  ∧ picks d = filter (λ e, act_type e = "pick") entries
  ∧ (∀ e, e ∈ bans d ++ picks d ↔ e ∈ sequence d ∧ act_type e ∈ ["ban"; "pick"])
  ∧ (length (bans d) + length (picks d) ≤ length (sequence d))%nat
  ∧ (∀ team, get_team_picks d team
             = map act_champion
                 (filter (λ e, act_team_id e = team ∧ act_type e = "pick") entries))
  ∧ (∀ team, get_team_bans d team
             = map act_champion
                 (filter (λ e, act_team_id e = team ∧ act_type e = "ban") entries)).
Proof.
  intros d entries. subst d. rewrite extract_draft_eq. fold entries.
  cbn [bans picks sequence]. split_and!; try done.
  - intros e. rewrite elem_of_app, !list_elem_of_filter, !elem_of_cons, elem_of_nil. tauto.
  - clear. induction entries as [|e entries IH]; [done|].
    rewrite !filter_cons. destruct (decide (act_type e = "ban")) as [Hb|Hb].
    + rewrite decide_False by (rewrite Hb; done). simpl. lia.
    + destruct (decide (act_type e = "pick")); simpl; lia.
  - intros team. unfold get_team_picks. cbn [picks]. f_equal.
    rewrite list_filter_filter. done.
  - intros team. unfold get_team_bans. cbn [bans]. f_equal.
    rewrite list_filter_filter. done.
Qed.

Lemma extract_team_stats_win game md t :
  t ∈ _extract_team_stats game md →
  pt_win t = true ↔ ∃ w, winner_team_id md = Some w ∧ w ≠ "" ∧ pt_team_id t = w.
Proof.
  unfold _extract_team_stats. intros (team & -> & _)%list_elem_of_fmap.
  cbn [pt_win pt_team_id]. destruct (winner_team_id md) as [w|].
  - case_bool_decide as Hw.
    + split; [done|]. intros (w' & [= <-] & Hne & _). done.
    + rewrite bool_decide_eq_true. split; [by exists w|]. by intros (w' & [= <-] & _ & ?).
  - split; [done|]. by intros (w & ? & _).
Qed.

(** X28. [_extract_team_stats] makes one entry per listed team, in order,
    and marks as winners exactly the teams whose identifier is the winner
    that [_extract_metadata] found, provided that identifier is not empty.
    [_extract_metadata] finds a winner only among the first two teams and
    only when the first team carries a "win" key: the first team if its
    value is true, otherwise the second team if its value is true.  So no
    team is marked when fewer than two teams are listed or when the first
    team has no "win" key, and at most one team is marked when the listed
    teams have distinct identifiers. *)
Theorem extract_team_stats_winner game :
  let md := _extract_metadata game in
  let ts := _extract_team_stats game md in
  let teams := default [] (rg_teams game) in
  map pt_team_id ts = map (λ t, str_of_id (default (IdStr "") (rt_id t))) teams
  ∧ (∀ t, t ∈ ts →
       pt_win t = true ↔ ∃ w, winner_team_id md = Some w ∧ w ≠ "" ∧ pt_team_id t = w)
  ∧ (∀ w, winner_team_id md = Some w →
       ∃ team1 team2 rest,
         teams = team1 :: team2 :: rest
         ∧ (rt_win team1 = Some true ∧ w = pm_team1_id md
            ∨ rt_win team1 = Some false ∧ rt_win team2 = Some true ∧ w = pm_team2_id md))
  ∧ ((length teams < 2)%nat → Forall (λ t, pt_win t = false) ts)
  ∧ (∀ team1 rest, teams = team1 :: rest → rt_win team1 = None →
       Forall (λ t, pt_win t = false) ts)
  ∧ (NoDup (map pt_team_id ts) → (length (filter (λ t, pt_win t = true) ts) ≤ 1)%nat).
Proof.
  intros md ts teams.
  assert (∀ w, winner_team_id md = Some w →
            ∃ team1 team2 rest,
              teams = team1 :: team2 :: rest
              ∧ (rt_win team1 = Some true ∧ w = pm_team1_id md
                 ∨ rt_win team1 = Some false ∧ rt_win team2 = Some true
                   ∧ w = pm_team2_id md)) as Hwinner.
  { intros w. subst md. unfold _extract_metadata. fold teams.
    destruct teams as [|team1 [|team2 rest]]; [done..|].
    cbn [winner_team_id pm_team1_id pm_team2_id].
    destruct (rt_win team1) as [[|]|] eqn:E1; cbn [default]; [| |done].
    - intros [= <-]. exists team1, team2, rest. split; [done|]. by left.
    - destruct (rt_win team2) as [[|]|] eqn:E2; cbn [default]; [|done..].
      intros [= <-]. exists team1, team2, rest. split; [done|]. by right. }
  assert (winner_team_id md = None → Forall (λ t, pt_win t = false) ts) as Hnone.
  { intros Hn. apply Forall_forall. intros t Ht.
    destruct (pt_win t) eqn:E; [|done].
    apply (extract_team_stats_win game md t Ht) in E as (w & Hw & _). congruence. }
  split_and!.
  - subst ts. unfold _extract_team_stats. fold teams. by rewrite map_map.
  - intros t Ht. exact (extract_team_stats_win game md t Ht).
  - exact Hwinner.
  - intros Hlen. apply Hnone. destruct (winner_team_id md) as [w|] eqn:E; [|done].
    destruct (Hwinner w eq_refl) as (? & ? & ? & Hteams & _).
    rewrite Hteams in Hlen. simpl in Hlen. lia.
  - intros team1 rest Hteams Hwin. apply Hnone.
    destruct (winner_team_id md) as [w|] eqn:E; [|done].
    destruct (Hwinner w eq_refl) as (t1 & ? & ? & Hteams' & Hcases).
    rewrite Hteams in Hteams'. injection Hteams' as <- _.
    destruct Hcases as [[? _]|[? _]]; congruence.
  - intros Hnd.
    assert (∀ t t', t ∈ ts → t' ∈ ts → pt_win t = true → pt_win t' = true →
                    pt_team_id t = pt_team_id t') as Hsame.
    { intros t t' Ht Ht' (w & Hw & _ & E)%(extract_team_stats_win game md t Ht)
        (w' & Hw' & _ & E')%(extract_team_stats_win game md t' Ht'). congruence. }
    clearbody ts. clear -Hnd Hsame.
    induction ts as [|t ts IH]; [simpl; lia|].
    simpl in Hnd. apply NoDup_cons in Hnd as [Hfresh Hnd].
    rewrite filter_cons. destruct (decide (pt_win t = true)) as [Hw|Hw].
    + assert (filter (λ t, pt_win t = true) ts = []) as ->; [|simpl; lia].
      destruct (filter (λ t, pt_win t = true) ts) as [|t' l] eqn:E; [done|].
      assert (t' ∈ filter (λ t, pt_win t = true) ts) as [Hw' Ht']%list_elem_of_filter
        by (rewrite E; left).
      destruct Hfresh. rewrite (Hsame t t'); [|left|by right|done|done].
      apply list_elem_of_fmap. by exists t'.
    + apply IH; [done|]. intros t1 t2 H1 H2. apply Hsame; by right.
Qed.

(** X29. In a corpus of parsed games every champion that [build_from_matches]
    counts, and so every champion with a win rate or a pick rate of its own,
    occurs in a draft sequence: it is in the pool [all_champions] of the
    assistant made for the corpus. *)
Theorem parsed_corpus_pool games a c :
  let parsed_matches := map core_match games in
  assistant_of parsed_matches a →
  is_Some (champion_games (tally parsed_matches) !! c) → c ∈ all_champions a.
Proof.
  intros ms (_ & _ & _ & Hpool) Hc. apply Hpool.
  destruct (champion_games_picked ms c Hc) as (m & ts & Hm & _ & Hpick).
  unfold sequence_champions. apply list_elem_of_In, in_flat_map. exists m.
  split; [by apply list_elem_of_In|]. apply list_elem_of_In.
  apply list_elem_of_fmap in Hm as (game & -> & _).
  revert Hpick. unfold get_team_picks, core_match. cbn [draft].
  rewrite extract_draft_eq. cbn [picks sequence].
  intros (e & -> & He)%list_elem_of_fmap. apply list_elem_of_fmap. exists e.
  split; [done|]. apply list_elem_of_filter in He as [_ He].
  by apply list_elem_of_filter in He as [_ He].
Qed.

(** X29: the hypotheses hold of the corpus made of [sample_game], of
    [sample_assistant] and of the champion "A". *)
Lemma parsed_corpus_pool_witness :
  assistant_of (map core_match [sample_game]) sample_assistant
  ∧ is_Some (champion_games (tally (map core_match [sample_game])) !! "A")
  ∧ "A" ∈ all_champions sample_assistant.
Proof.
  assert (assistant_of (map core_match [sample_game]) sample_assistant) as Ha.
  { split; [reflexivity|]. split; [reflexivity|]. split.
    - apply (bool_decide_unpack _). vm_compute. reflexivity.
    - assert (sequence_champions (map core_match [sample_game])
              = all_champions sample_assistant) as -> by (vm_compute; reflexivity).
      reflexivity. }
  assert (is_Some (champion_games (tally (map core_match [sample_game])) !! "A")) as Hc.
  { vm_compute. eexists. reflexivity. }
  split; [exact Ha|]. split; [exact Hc|].
  exact (parsed_corpus_pool [sample_game] sample_assistant "A" Ha Hc).
Defined.

(** ** Rating and celebration *)

Ltac decide_elem :=
  rewrite ?elem_of_app, ?elem_of_cons, ?elem_of_nil;
  split; [intros H; repeat destruct H as [H|H]; try discriminate H; try done
         |intros H; try discriminate H; try done; tauto].

(** X30. The celebration of a final score carries the rating and the rank of
    the score, and its effects follow the same thresholds as the rating:
    "fireworks" for "Legendary" (3000 or more), "confetti" for "Master"
    (2000), "stars" for "Diamond" (1500), "glow" for "Platinum" (1000) and
    none of these for "Gold"; "lightning" is added exactly when "draft_god"
    is newly unlocked and "rainbow_burst" exactly when "flawless" is, the
    message of "draft_god" taking precedence over that of "flawless". *)
Theorem celebration_matches_rating gs new :
  let fs := calculate_final_score gs in
  let cel := _get_celebration fs new in
  title cel = rating fs ∧ cel_rank cel = rank fs
  ∧ (rating fs, rank fs)
    = (if 3000 <=? total_score fs then ("Legendary", "S+")
       else if 2000 <=? total_score fs then ("Master", "S")
       else if 1500 <=? total_score fs then ("Diamond", "A")
       else if 1000 <=? total_score fs then ("Platinum", "B")
       else ("Gold", "C"))
  ∧ ("fireworks" ∈ effects cel ↔ rating fs = "Legendary")
  ∧ ("confetti" ∈ effects cel ↔ rating fs = "Master")
  ∧ ("stars" ∈ effects cel ↔ rating fs = "Diamond")
  ∧ ("glow" ∈ effects cel ↔ rating fs = "Platinum")
  ∧ ("lightning" ∈ effects cel ↔ "draft_god" ∈ new)
  ∧ ("rainbow_burst" ∈ effects cel ↔ "flawless" ∈ new)
  ∧ ("draft_god" ∈ new → message cel = "DRAFT GOD! 90%+ win probability achieved!")
  ∧ ("draft_god" ∉ new → "flawless" ∈ new →
     message cel = "FLAWLESS VICTORY! Perfect draft!").
Proof.
  intros fs cel. subst cel. unfold _get_celebration.
  assert ((rating fs, rank fs)
          = (if 3000 <=? total_score fs then ("Legendary", "S+")
             else if 2000 <=? total_score fs then ("Master", "S")
             else if 1500 <=? total_score fs then ("Diamond", "A")
             else if 1000 <=? total_score fs then ("Platinum", "B")
             else ("Gold", "C"))) as Hr.
  { subst fs. unfold calculate_final_score. cbv zeta.
    set (T := Zsum _ + _ + _).
    destruct (3000 <=? T) eqn:E1; cbn [rating rank total_score]; rewrite ?E1; [done|].
    destruct (2000 <=? T) eqn:E2; cbn [rating rank total_score]; rewrite ?E1, ?E2; [done|].
    destruct (1500 <=? T) eqn:E3; cbn [rating rank total_score]; rewrite ?E1, ?E2, ?E3;
      [done|].
    destruct (1000 <=? T) eqn:E4; cbn [rating rank total_score];
      by rewrite ?E1, ?E2, ?E3, ?E4. }
  destruct (3000 <=? total_score fs); [|destruct (2000 <=? total_score fs);
    [|destruct (1500 <=? total_score fs); [|destruct (1000 <=? total_score fs)]]];
    injection Hr as -> Hrank; rewrite Hrank;
    destruct (decide ("flawless" ∈ new)) as [Hf|Hf];
    destruct (decide ("draft_god" ∈ new)) as [Hd|Hd];
    rewrite ?(bool_decide_eq_true_2 _ Hf), ?(bool_decide_eq_false_2 _ Hf),
      ?(bool_decide_eq_true_2 _ Hd), ?(bool_decide_eq_false_2 _ Hd);
    cbn [effects message title cel_rank];
    (split_and!; try done; try (by decide_elem)).
Qed.
